(** * stage-mylist: the watch-list service (cursor pagination and
      version-keyed page cache), embedded from

      - src/services/myList.service.ts  (addToList, removeFromList,
        decodeCursorSafe, getList, bumpUserVersion)
      - src/services/myList.cache.ts    (userVersionKey, pageCacheKey)
      - src/controllers/myList.controller.ts (listItems, removeItem)
      - src/utils/pagination.ts         (toNumberOrDefault)
      - src/utils/httpError.ts, src/middleware/errorHandler.ts
      - src/models/*.ts                 (the collections and their indexes)

    MongoDB collections are finite lists and maps, Redis is a finite map
    from key strings to values, and every service function is a state
    transformer over both that either returns or throws. Both stores can
    fail: Redis by its schedule of rejected commands, MongoDB by the
    calls its driver rejects. *)

From Stdlib Require Import ZArith QArith Lqa String Ascii List Bool Permutation.
From stdpp Require Import gmap strings list pretty sorting.

Open Scope string_scope.
Open Scope Z_scope.

(* ================================================================== *)
(** * JavaScript values used by the service *)
(* ================================================================== *)

(** A JavaScript [number]. Finite doubles are rationals; comparisons and
    [Math.min] never round, so they are exact on this representation. *)
Inductive number :=
| NaN
| Infinity (negative : bool)
| Finite (q : Q).

Definition Number_isFinite (n : number) : bool :=
  match n with Finite _ => true | _ => false end.

(** [a > b] on numbers: any comparison with NaN is false. *)
Definition number_gt (a b : number) : bool :=
  match a, b with
  | NaN, _ | _, NaN => false
  | Infinity s1, Infinity s2 => negb s1 && s2
  | Infinity s, Finite _ => negb s
  | Finite _, Infinity s => s
  | Finite x, Finite y => negb (Qle_bool x y)
  end.

Definition Math_min (a b : number) : number :=
  match a, b with
  | NaN, _ | _, NaN => NaN
  | Infinity true, _ | _, Infinity true => Infinity true
  | Infinity false, x | x, Infinity false => x
  | Finite x, Finite y => if Qle_bool x y then Finite x else Finite y
  end.

Definition ofZ (z : Z) : number := Finite (inject_Z z).

(** [a + b] on numbers, exact on the rationals. *)
Definition number_add (a b : number) : number :=
  match a, b with
  | NaN, _ | _, NaN => NaN
  | Infinity s1, Infinity s2 => if Bool.eqb s1 s2 then Infinity s1 else NaN
  | Infinity s, Finite _ | Finite _, Infinity s => Infinity s
  | Finite x, Finite y => Finite (x + y)
  end.

(** The integer a number denotes, when it denotes one. *)
Definition toInteger (n : number) : option Z :=
  match n with
  | Finite q =>
      if (Qnum q mod Zpos (Qden q) =? 0)%Z then Some (Qnum q / Zpos (Qden q))%Z
      else None
  | _ => None
  end.

(** [a ?? b] *)
Definition nullish {A} (a : option A) (b : A) : A :=
  match a with Some x => x | None => b end.

(** [s.split(sep)] for a one-character separator: always at least one
    field. *)
Fixpoint str_split (sep : ascii) (s : string) : list string :=
  match s with
  | EmptyString => [EmptyString]
  | String c rest =>
      if Ascii.eqb c sep then EmptyString :: str_split sep rest
      else match str_split sep rest with
           | f :: fs => String c f :: fs
           | [] => [String c EmptyString]
           end
  end.

(** A string is falsy exactly when it is empty. *)
Definition truthy (s : string) : bool :=
  match s with EmptyString => false | _ => true end.

(* ------------------------------------------------------------------ *)
(** ** Buffer: base64 *)
(* ------------------------------------------------------------------ *)

(** Strings stand for byte sequences (UTF-8 text restricted to what the
    cursor holds: ASCII), so [Buffer.from(s)] and [toString("utf8")] are
    the identity on them. *)

Definition b64char (n : N) : ascii :=
  if (n <? 26)%N then ascii_of_N (n + 65)
  else if (n <? 52)%N then ascii_of_N (n + 71)
  else if (n <? 62)%N then ascii_of_N (n - 4)
  else if (n =? 62)%N then "+"%char
  else "/"%char.

(** The decoder's table: the standard and the URL-safe alphabet. *)
Definition unbase64 (c : ascii) : option N :=
  let n := N_of_ascii c in
  if ((65 <=? n) && (n <=? 90))%N then Some (n - 65)%N
  else if ((97 <=? n) && (n <=? 122))%N then Some (n - 71)%N
  else if ((48 <=? n) && (n <=? 57))%N then Some (n + 4)%N
  else if ((n =? 43) || (n =? 45))%N then Some 62%N
  else if ((n =? 47) || (n =? 95))%N then Some 63%N
  else None.

(** [Buffer.from(s).toString("base64")] *)
Fixpoint toBase64 (s : string) : string :=
  match s with
  | EmptyString => EmptyString
  | String a EmptyString =>
      let x := N_of_ascii a in
      String (b64char (x / 4)) (String (b64char ((x mod 4) * 16)) "==")
  | String a (String b EmptyString) =>
      let x := N_of_ascii a in
      let y := N_of_ascii b in
      String (b64char (x / 4))
        (String (b64char ((x mod 4) * 16 + y / 16))
           (String (b64char ((y mod 16) * 4)) "="))
  | String a (String b (String c rest)) =>
      let x := N_of_ascii a in
      let y := N_of_ascii b in
      let z := N_of_ascii c in
      String (b64char (x / 4))
        (String (b64char ((x mod 4) * 16 + y / 16))
           (String (b64char ((y mod 16) * 4 + z / 64))
              (String (b64char (z mod 64)) (toBase64 rest))))
  end.

(** Node's decoder is lenient: characters outside the table are skipped
    and decoding stops at the first ['=']. *)
Fixpoint sextets (s : string) : list N :=
  match s with
  | EmptyString => []
  | String c rest =>
      if Ascii.eqb c "="%char then []
      else match unbase64 c with
           | Some n => n :: sextets rest
           | None => sextets rest
           end
  end.

Fixpoint bytesOfSextets (l : list N) : string :=
  match l with
  | a :: b :: c :: d :: rest =>
      String (ascii_of_N (a * 4 + b / 16))
        (String (ascii_of_N ((b mod 16) * 16 + c / 4))
           (String (ascii_of_N ((c mod 4) * 64 + d)) (bytesOfSextets rest)))
  | [a; b; c] =>
      String (ascii_of_N (a * 4 + b / 16))
        (String (ascii_of_N ((b mod 16) * 16 + c / 4)) EmptyString)
  | [a; b] => String (ascii_of_N (a * 4 + b / 16)) EmptyString
  | _ => EmptyString
  end.

(** [Buffer.from(s, "base64").toString("utf8")] *)
Definition fromBase64 (s : string) : string := bytesOfSextets (sextets s).

(* ------------------------------------------------------------------ *)
(** ** ObjectId and Date as text *)
(* ------------------------------------------------------------------ *)

(** An ObjectId is its 12 bytes read as a big-endian natural number;
    MongoDB orders ObjectIds bytewise, which is the order of these
    numbers. *)
Definition ObjectId := N.

Definition hexchar (n : N) : ascii :=
  if (n <? 10)%N then ascii_of_N (n + 48) else ascii_of_N (n + 87).

(** [w] hexadecimal digits of [n], most significant first. *)
Fixpoint hex (w : nat) (n : N) : string :=
  match w with
  | O => EmptyString
  | S w' => hex w' (n / 16) +:+ String (hexchar (n mod 16)) EmptyString
  end.

(** [id.toString()], also what a template literal prints: 24 lower-case
    hexadecimal digits. *)
Definition ObjectId_toString (id : ObjectId) : string := hex 24 id.

(** A Date is its time value, milliseconds since the epoch. *)
Definition Date := Z.

Definition digit (n : Z) : ascii := ascii_of_N (Z.to_N n + 48).

(** [w] decimal digits of [n], zero padded. *)
Fixpoint digits (w : nat) (n : Z) : string :=
  match w with
  | O => EmptyString
  | S w' => digits w' (n / 10) +:+ String (digit (n mod 10)) EmptyString
  end.

(** Days since the epoch to (year, month, day) in the proleptic
    Gregorian calendar, and back. *)
Definition civil_from_days (z : Z) : Z * Z * Z :=
  let z := z + 719468 in
  let era := z / 146097 in
  let doe := z - era * 146097 in
  let yoe := (doe - doe / 1460 + doe / 36524 - doe / 146096) / 365 in
  let y := yoe + era * 400 in
  let doy := doe - (365 * yoe + yoe / 4 - yoe / 100) in
  let mp := (5 * doy + 2) / 153 in
  let d := doy - (153 * mp + 2) / 5 + 1 in
  let m := if mp <? 10 then mp + 3 else mp - 9 in
  (if m <=? 2 then y + 1 else y, m, d).

Definition days_from_civil (y m d : Z) : Z :=
  let y := if m <=? 2 then y - 1 else y in
  let era := y / 400 in
  let yoe := y - era * 400 in
  let doy := (153 * (if 2 <? m then m - 3 else m + 9) + 2) / 5 + d - 1 in
  let doe := yoe * 365 + yoe / 4 - yoe / 100 + doy in
  era * 146097 + doe - 719468.

(** [d.toISOString()]: "YYYY-MM-DDTHH:mm:ss.sssZ", with a sign and six
    digits for years outside 0..9999. *)
Definition Date_toISOString (t : Date) : string :=
  let day := t / 86400000 in
  let ms := t mod 86400000 in
  let '(y, m, d) := civil_from_days day in
  let year :=
    if (0 <=? y) && (y <=? 9999) then digits 4 y
    else if y <? 0 then "-" +:+ digits 6 (- y)
    else "+" +:+ digits 6 y in
  year +:+ "-" +:+ digits 2 m +:+ "-" +:+ digits 2 d +:+ "T"
    +:+ digits 2 (ms / 3600000) +:+ ":" +:+ digits 2 (ms / 60000 mod 60)
    +:+ ":" +:+ digits 2 (ms / 1000 mod 60) +:+ "." +:+ digits 3 (ms mod 1000)
    +:+ "Z".

(** The library functions whose accepted inputs vary with the runtime
    and the driver version are parameters of the model:
    - [Date_parse s] is the time value of [new Date(s)], [None] when it
      is NaN;
    - [ObjectId_isValid s] is [Types.ObjectId.isValid(s)];
    - [ObjectId_new s] is [new Types.ObjectId(s)], [None] when the
      constructor throws;
    - [Number_toString n] is the text of [n] in a template literal and
      [Query_limit n] the number of documents [.limit(n)] lets through
      ([None]: all of them); both are used for numbers that are not
      integers only;
    - the four messages are the [err.message] of the errors that the
      runtime, the BSON library, the Redis client and the MongoDB driver
      raise on their own. *)
Class Builtins := {
  Date_parse : string -> option Date;
  ObjectId_isValid : string -> bool;
  ObjectId_new : string -> option ObjectId;
  Number_toString : number -> string;
  Query_limit : number -> option nat;
  TypeError_message : string;
  BSONError_message : string;
  RedisError_message : string;
  MongoError_message : string;
}.

(** The service's settings, read from the environment at start-up
    ([Number(process.env.X ?? default)]). *)
Class Config := {
  PAGE_TTL_SECONDS : number;
  MAX_LIMIT : number;
  DEFAULT_LIMIT : number;
}.

Definition defaultConfig : Config :=
  {| PAGE_TTL_SECONDS := ofZ 60; MAX_LIMIT := ofZ 100; DEFAULT_LIMIT := ofZ 20 |}.

(* ================================================================== *)
(** * Data model (src/models) *)
(* ================================================================== *)

Inductive ContentType := movie | tvshow.

Definition ContentType_eqb (a b : ContentType) : bool :=
  match a, b with
  | movie, movie | tvshow, tvshow => true
  | _, _ => false
  end.

Inductive Visibility := available | unavailable | removed.

(** A document of the Movies or TVShows collection, as far as the
    service reads it. *)
Module Content.
Record t := mk {
  title : string;
  posterUrl : option string;
  genres : option (list string);
  description : option string;
}.
End Content.

Module Episode.
Record t := mk {
  showId : option ObjectId;
  title : string;
}.
End Episode.

Module Snapshot.
Record t := mk {
  title : string;
  posterUrl : option string;
  genres : option (list string);
  shortDescription : option string;
}.
End Snapshot.

(** A document of the MyListItem collection (IMyListItem). *)
Module Item.
Record t := mk {
  _id : ObjectId;
  userId : ObjectId;
  contentType : ContentType;
  contentId : ObjectId;
  episodeId : option ObjectId;
  addedAt : Date;
  snapshot : Snapshot.t;
  contentVisibility : Visibility;
}.
End Item.

(** The ordering key of the pagination index
    [{ userId: 1, addedAt: -1, _id: -1 }]. *)
Definition orderingKey (r : Item.t) : Date * ObjectId :=
  (Item.addedAt r, Item._id r).

(** [keyBefore k r]: the record [r] lies strictly after position [k] in
    the newest-first order, that is, its key is strictly smaller. *)
Definition keyBefore (k : Date * ObjectId) (r : Item.t) : bool :=
  (Item.addedAt r <? fst k) || ((Item.addedAt r =? fst k) && (Item._id r <? snd k)%N).

(** The sort [{ addedAt: -1, _id: -1 }]: [a] may precede [b]. *)
Definition newestFirst (a b : Item.t) : Prop :=
  Item.addedAt b < Item.addedAt a
  \/ (Item.addedAt b = Item.addedAt a /\ (Item._id b <= Item._id a)%N).

#[global] Instance newestFirst_dec : RelDecision newestFirst.
Proof. intros a b. unfold newestFirst. apply _. Defined.

(** The database: the five collections. *)
Record Db := mkDb {
  users : gset ObjectId;
  movies : gmap ObjectId Content.t;
  tvshows : gmap ObjectId Content.t;
  episodes : gmap ObjectId Episode.t;
  mylistitems : list Item.t;
}.

Definition set_mylistitems (db : Db) (l : list Item.t) : Db :=
  mkDb (users db) (movies db) (tvshows db) (episodes db) l.

(** The result page of a list call: [{ items, nextCursor, total? }]. *)
Record Payload := mkPayload {
  items : list Item.t;
  nextCursor : option string;
  total : option Z;
}.

(** Redis. Version keys hold counters (integer strings), page keys hold
    the JSON text of a payload, which is identified with the payload it
    parses to. [faults] is the schedule of connection failures: each
    command consumes one flag and is rejected when the flag is set; an
    exhausted schedule means no further failures. Expiry is not
    modelled: no key times out during the calls considered. *)
Record Redis := mkRedis {
  counters : gmap string Z;
  pages : gmap string Payload;
  faults : list bool;
}.

Record World := mkWorld {
  db : Db;
  redis : Redis;
  log : list string;
}.

(* ================================================================== *)
(** * Errors and the request monad *)
(* ================================================================== *)

(** src/utils/httpError.ts *)
Record HttpError := mkHttpError {
  status : Z;
  message : string;
  code : option string;
}.

Inductive Error :=
| EHttp (e : HttpError)          (* throw new HttpError(...) *)
| EPlain (msg : string)          (* throw new Error(msg) *)
| ETypeError                     (* a property read on undefined *)
| EBSON                          (* the ObjectId constructor rejecting *)
| ERedis                         (* a rejected Redis command *)
| EMongo (errcode : option Z).   (* a store error with its err.code *)

Inductive result (A : Type) :=
| Ok (a : A)
| Throw (e : Error).
Arguments Ok {A} a.
Arguments Throw {A} e.

Definition M (A : Type) : Type := World -> result A * World.

Definition ret {A} (a : A) : M A := fun w => (Ok a, w).

Definition throw {A} (e : Error) : M A := fun w => (Throw e, w).

Definition bind {A B} (m : M A) (k : A -> M B) : M B :=
  fun w => match m w with
           | (Ok a, w') => k a w'
           | (Throw e, w') => (Throw e, w')
           end.

(** [try { m } catch (err) { h err }] *)
Definition try_catch {A} (m : M A) (h : Error -> M A) : M A :=
  fun w => match m w with
           | (Ok a, w') => (Ok a, w')
           | (Throw e, w') => h e w'
           end.

Notation "x <- m ;; k" := (bind m (fun x => k))
  (at level 100, m at next level, right associativity).
Notation "m ;;; k" := (bind m (fun _ => k))
  (at level 100, right associativity).

Definition throwHttp {A} (st : Z) (msg : string) (c : string) : M A :=
  throw (EHttp (mkHttpError st msg (Some c))).

Definition logger_error (msg : string) : M unit :=
  fun w => (Ok tt, mkWorld (db w) (redis w) (log w ++ [msg])).

(* ================================================================== *)
(** * The membership store (Mongoose models) *)
(* ================================================================== *)

(** The calls the service awaits on the models. *)
Inductive StoreCall :=
| UserExists
| MovieFindById
| TVShowFindById
| EpisodeFindById
| ItemCreate
| ItemFindOne
| ItemFindOneAndDelete
| ItemFind
| ItemCountDocuments.

(** The MongoDB driver: [rejects c] is [Some errcode] when the awaited
    call [c] is rejected (server unreachable, timeout, server error),
    [errcode] being the [err.code] of the error, if it has one. Every
    service function awaits each of its calls at most once, so this
    describes any run of one service call. *)
Class Driver := {
  rejects : StoreCall -> option (option Z);
}.

(** The driver that answers every call. Statements that name no driver
    are about this one. *)
#[global] Instance answering : Driver := {| rejects := fun _ => None |}.

(** One awaited call: rejected by the driver, or run on the database. *)
Definition store_call `{Driver} {A} (c : StoreCall) (run : M A) : M A :=
  match rejects c with
  | Some errcode => throw (EMongo errcode)
  | None => run
  end.

Definition set_db (w : World) (d : Db) : World := mkWorld d (redis w) (log w).

Definition UserModel_exists `{Driver} (id : ObjectId) : M bool :=
  store_call UserExists
    (fun w => (Ok (bool_decide (id ∈ users (db w))), w)).

Definition MovieModel_findById `{Driver} (id : ObjectId)
  : M (option Content.t) :=
  store_call MovieFindById (fun w => (Ok (movies (db w) !! id), w)).

Definition TVShowModel_findById `{Driver} (id : ObjectId)
  : M (option Content.t) :=
  store_call TVShowFindById (fun w => (Ok (tvshows (db w) !! id), w)).

Definition EpisodeModel_findById `{Driver} (id : ObjectId)
  : M (option Episode.t) :=
  store_call EpisodeFindById (fun w => (Ok (episodes (db w) !! id), w)).

(** The filter [{ userId, contentId }]. *)
Definition sameEntry (uid cid : ObjectId) (r : Item.t) : bool :=
  (Item.userId r =? uid)%N && (Item.contentId r =? cid)%N.

(** What an insert of [doc] collides with: the primary key, or the
    unique index [{ userId: 1, contentId: 1 }]. *)
Definition collides (doc r : Item.t) : bool :=
  (Item._id r =? Item._id doc)%N
  || sameEntry (Item.userId doc) (Item.contentId doc) r.

(** The defaults of MyListItemSchema that [create] fills in: an array
    path that is absent becomes the empty array. ([addedAt] and
    [contentVisibility] are always given by addToList; the timestamps
    and the version key Mongoose adds are not part of [Item.t].) *)
Definition schemaDefaults (doc : Item.t) : Item.t :=
  let s := Item.snapshot doc in
  Item.mk (Item._id doc) (Item.userId doc) (Item.contentType doc)
    (Item.contentId doc) (Item.episodeId doc) (Item.addedAt doc)
    (Snapshot.mk (Snapshot.title s) (Snapshot.posterUrl s)
       (Some (default [] (Snapshot.genres s))) (Snapshot.shortDescription s))
    (Item.contentVisibility doc).

(** [MyListItemModel.create(doc)]: the schema defaults, validation
    ([snapshot.title] is a required string, which an empty one does not
    satisfy), then the insert, rejected with code 11000 on a duplicate
    key. The document stored is the one returned. *)
Definition MyListItemModel_create `{Driver} (doc : Item.t) : M Item.t :=
  store_call ItemCreate
    (fun w =>
       let l := mylistitems (db w) in
       let item := schemaDefaults doc in
       if negb (truthy (Snapshot.title (Item.snapshot item))) then
         (Throw (EMongo None), w)
       else if existsb (collides item) l then (Throw (EMongo (Some 11000)), w)
       else (Ok item, set_db w (set_mylistitems (db w) (l ++ [item])))).

(** [MyListItemModel.findOne({ userId, contentId }).lean()] *)
Definition MyListItemModel_findOne `{Driver} (uid cid : ObjectId)
  : M (option Item.t) :=
  store_call ItemFindOne
    (fun w => (Ok (List.find (sameEntry uid cid) (mylistitems (db w))), w)).

Fixpoint deleteFirst {A} (p : A -> bool) (l : list A) : list A :=
  match l with
  | [] => []
  | x :: l' => if p x then l' else x :: deleteFirst p l'
  end.

(** [MyListItemModel.findOneAndDelete({ userId, contentId })] *)
Definition MyListItemModel_findOneAndDelete `{Driver} (uid cid : ObjectId)
  : M (option Item.t) :=
  store_call ItemFindOneAndDelete
    (fun w =>
       let l := mylistitems (db w) in
       match List.find (sameEntry uid cid) l with
       | Some r =>
           (Ok (Some r),
            set_db w (set_mylistitems (db w) (deleteFirst (sameEntry uid cid) l)))
       | None => (Ok None, w)
       end).

(** The query object getList builds: [userId], optionally [contentType],
    optionally the [$or] of the cursor position. *)
Record Query := mkQuery {
  q_userId : ObjectId;
  q_contentType : option ContentType;
  q_or : option (Date * ObjectId);
}.

Definition matchesQuery (q : Query) (r : Item.t) : bool :=
  (Item.userId r =? q_userId q)%N
  && match q_contentType q with
     | Some ct => ContentType_eqb (Item.contentType r) ct
     | None => true
     end
  && match q_or q with
     | Some k => keyBefore k r
     | None => true
     end.

(** [.limit(n)]: zero means no limit, a negative [n] limits to [-n]. *)
Definition Mongo_limit {A} (n : Z) (l : list A) : list A :=
  if n =? 0 then l else take (Z.abs_nat n) l.

(** [MyListItemModel.find(q).sort({ addedAt: -1, _id: -1 }).limit(n).lean().exec()] *)
Definition MyListItemModel_find `{Driver} (q : Query) (n : Z)
  : M (list Item.t) :=
  store_call ItemFind
    (fun w =>
       (Ok (Mongo_limit n
              (merge_sort newestFirst
                 (List.filter (matchesQuery q) (mylistitems (db w))))), w)).

(** The same query with a limit that is not an integer: how many
    documents pass is the driver's and the server's business. *)
Definition MyListItemModel_findOther `{Builtins} `{Driver} (q : Query)
    (n : number) : M (list Item.t) :=
  store_call ItemFind
    (fun w =>
       let found :=
         merge_sort newestFirst
           (List.filter (matchesQuery q) (mylistitems (db w))) in
       (Ok (match Query_limit n with
            | Some k => take k found
            | None => found
            end), w)).

(** [MyListItemModel.countDocuments({ userId })] *)
Definition MyListItemModel_countDocuments `{Driver} (uid : ObjectId) : M Z :=
  store_call ItemCountDocuments
    (fun w =>
       (Ok (Z.of_nat
              (length (List.filter (fun r => (Item.userId r =? uid)%N)
                         (mylistitems (db w))))), w)).

(* ================================================================== *)
(** * Redis commands (ioredis) and cache keys (myList.cache.ts) *)
(* ================================================================== *)

Definition set_redis (w : World) (r : Redis) : World := mkWorld (db w) r (log w).

(** One command: rejected when the fault schedule says so. *)
Definition redis_cmd {A} (run : Redis -> A * Redis) : M A :=
  fun w =>
    let r := redis w in
    match faults r with
    | true :: fs => (Throw ERedis, set_redis w (mkRedis (counters r) (pages r) fs))
    | false :: fs =>
        let '(a, r') := run (mkRedis (counters r) (pages r) fs) in
        (Ok a, set_redis w r')
    | [] => let '(a, r') := run r in (Ok a, set_redis w r')
    end.

(** GET of a version key: the counter as its decimal text. *)
Definition redis_get (key : string) : M (option string) :=
  redis_cmd (fun r => (pretty <$> counters r !! key, r)).

(** SETNX of a version key. *)
Definition redis_setnx (key : string) (v : Z) : M unit :=
  redis_cmd (fun r =>
    (tt, match counters r !! key with
         | Some _ => r
         | None => mkRedis (<[key := v]> (counters r)) (pages r) (faults r)
         end)).

(** INCR: an absent key counts as 0. *)
Definition redis_incr (key : string) : M Z :=
  redis_cmd (fun r =>
    let v := default 0 (counters r !! key) + 1 in
    (v, mkRedis (<[key := v]> (counters r)) (pages r) (faults r))).

(** EXPIRE: a command like any other, without effect on the model. *)
Definition redis_expire (key : string) (seconds : Z) : M unit :=
  redis_cmd (fun r => (tt, r)).

(** GET of a page key, followed by [JSON.parse]. *)
Definition redis_get_page (key : string) : M (option Payload) :=
  redis_cmd (fun r => (pages r !! key, r)).

(** [redis.set(key, JSON.stringify(payload), "EX", ttl, "NX")] *)
Definition redis_set_EX_NX (key : string) (payload : Payload) (ttl : number)
  : M unit :=
  redis_cmd (fun r =>
    (tt, match pages r !! key with
         | Some _ => r
         | None => mkRedis (counters r) (<[key := payload]> (pages r)) (faults r)
         end)).

Definition userVersionKey (userId : string) : string :=
  "mylist:" +:+ userId +:+ ":version".

(** pageCacheKey, the limit given by its text in the template
    literal. *)
Definition pageCacheKeyText (userId version limit : string)
    (cursor : option string) : string :=
  let cursorKey :=
    match cursor with
    | Some c => if truthy c then c else "start"
    | None => "start"
    end in
  "mylist:" +:+ userId +:+ ":v" +:+ version +:+ ":limit" +:+ limit
    +:+ ":cursor" +:+ cursorKey.

(** pageCacheKey for a limit that is an integer. *)
Definition pageCacheKey (userId version : string) (limit : Z)
    (cursor : option string) : string :=
  pageCacheKeyText userId version (pretty limit) cursor.

(* ================================================================== *)
(** * The list service (src/services/myList.service.ts) *)
(* ================================================================== *)

Module ListOptions.
Record t := mk {
  limit : option number;
  cursor : option string;
  contentType : option ContentType;
}.
End ListOptions.

Module AddPayload.
Record t := mk {
  contentId : string;
  contentType : ContentType;
  episodeId : option string;
  snapshot : option Snapshot.t;
}.
End AddPayload.

(** [docs[i]] *)
Definition arrayGet {A} (l : list A) (i : Z) : option A :=
  if i <? 0 then None else l !! Z.to_nat i.

(** [docs.splice(start)]: what is left in [docs]. *)
Definition arraySplice {A} (start : Z) (l : list A) : list A :=
  let len := Z.of_nat (length l) in
  let s := if start <? 0 then Z.max (len + start) 0 else Z.min start len in
  take (Z.to_nat s) l.

(** The cursor text a page ends with:
    [Buffer.from(`${addedAt.toISOString()}|${_id}`).toString("base64")]. *)
Definition encodeCursor (addedAt : Date) (id : ObjectId) : string :=
  toBase64 (Date_toISOString addedAt +:+ "|" +:+ ObjectId_toString id).

Section Service.
Context `{Builtins} `{Config} `{Driver}.

(** [new Types.ObjectId(s)] *)
Definition newObjectId (s : string) : M ObjectId :=
  match ObjectId_new s with
  | Some id => ret id
  | None => throw EBSON
  end.

Definition bumpUserVersion (userId : string) : M unit :=
  let versionKey := userVersionKey userId in
  try_catch
    (_ <- redis_incr versionKey ;;
     redis_expire versionKey (60 * 60 * 24 * 30))
    (fun err => logger_error "redis incr failed").

(** A snapshot built from the content document. *)
Definition snapshotOf (c : Content.t) : Snapshot.t :=
  Snapshot.mk (Content.title c) (Content.posterUrl c)
    (Some (default [] (Content.genres c)))
    (Some (match Content.description c with
           | Some d => if truthy d then d else ""
           | None => ""
           end)).

(** The first part of addToList, from "Basic validation" to "Prepare
    document to insert": the identifier checks, the lookups of user,
    content and episode, and the document [doc]. [now] is the value of
    [new Date()] and [newId] the identifier the driver generates for
    the insert. *)
Definition prepareDocument (userId : string) (payload : AddPayload.t)
    (now : Date) (newId : ObjectId) : M Item.t :=
  let episodeGiven :=
    match AddPayload.episodeId payload with
    | Some e => if truthy e then Some e else None
    | None => None
    end in
  if negb (ObjectId_isValid userId) then
    throwHttp 400 "invalid userId" "INVALID_USER_ID"
  else if negb (ObjectId_isValid (AddPayload.contentId payload)) then
    throwHttp 400 "invalid contentId" "INVALID_CONTENT_ID"
  else if match episodeGiven with
          | Some e => negb (ObjectId_isValid e)
          | None => false
          end then
    throwHttp 400 "invalid episodeId" "INVALID_EPISODE_ID"
  else
    userOid <- newObjectId userId ;;
    contentOid <- newObjectId (AddPayload.contentId payload) ;;
    episodeOid <- match episodeGiven with
                  | Some e => id <- newObjectId e ;; ret (Some id)
                  | None => ret None
                  end ;;
    userExists <- UserModel_exists userOid ;;
    if negb userExists then throwHttp 404 "user not found" "USER_NOT_FOUND"
    else
      snapshot <-
        match AddPayload.contentType payload with
        | movie =>
            found <- MovieModel_findById contentOid ;;
            match found with
            | None => throwHttp 404 "movie not found" "CONTENT_NOT_FOUND"
            | Some m =>
                let snapshot :=
                  match AddPayload.snapshot payload with
                  | Some s => s
                  | None => snapshotOf m
                  end in
                match episodeOid with
                | Some _ =>
                    throwHttp 400 "episodeId provided for movie contentType"
                      "INVALID_PAYLOAD"
                | None => ret snapshot
                end
            end
        | tvshow =>
            found <- TVShowModel_findById contentOid ;;
            match found with
            | None => throwHttp 404 "tv show not found" "CONTENT_NOT_FOUND"
            | Some show =>
                let snapshot :=
                  match AddPayload.snapshot payload with
                  | Some s => s
                  | None => snapshotOf show
                  end in
                match episodeOid with
                | Some eid =>
                    episode <- EpisodeModel_findById eid ;;
                    match episode with
                    | None =>
                        throwHttp 404 "episode not found" "EPISODE_NOT_FOUND"
                    | Some ep =>
                        if match Episode.showId ep with
                           | None => true
                           | Some linkedShowId =>
                               negb (String.eqb (ObjectId_toString linkedShowId)
                                       (ObjectId_toString contentOid))
                           end
                        then throwHttp 400
                               "episode does not belong to provided tv show"
                               "EPISODE_MISMATCH"
                        else ret snapshot
                    end
                | None => ret snapshot
                end
            end
        end ;;
      ret (Item.mk newId userOid (AddPayload.contentType payload) contentOid
             episodeOid now snapshot available).

(** The second part of addToList: the insert in its try/catch. *)
Definition insertDocument (userId : string) (doc : Item.t) : M Item.t :=
  try_catch
    (item <- MyListItemModel_create doc ;;
     bumpUserVersion userId ;;;
     ret item)
    (fun err =>
       match err with
       | EMongo (Some 11000) =>
           existing <- MyListItemModel_findOne (Item.userId doc)
                         (Item.contentId doc) ;;
           match existing with
           | Some e =>
               try_catch (bumpUserVersion userId) (fun _ => ret tt) ;;;
               ret e
           | None =>
               throwHttp 500 "duplicate key but fetch failed" "INTERNAL_ERROR"
           end
       | _ =>
           logger_error "addToList failed" ;;;
           throwHttp 500 "failed to add item to list" "INTERNAL_ERROR"
       end).

(** [addToList(userId, payload)]. The third parameter of the source,
    [includeTotal], is never read and is left out. *)
Definition addToList (userId : string) (payload : AddPayload.t)
    (now : Date) (newId : ObjectId) : M Item.t :=
  doc <- prepareDocument userId payload now newId ;;
  insertDocument userId doc.

Definition removeFromList (userId contentId : string) : M (option Item.t) :=
  try_catch
    (uid <- newObjectId userId ;;
     cid <- newObjectId contentId ;;
     res <- MyListItemModel_findOneAndDelete uid cid ;;
     match res with
     | Some _ => bumpUserVersion userId
     | None => ret tt
     end ;;;
     ret res)
    (fun err =>
       throwHttp 500 "failed to remove item from list" "INTERNAL_ERROR").

(** decode and validate cursor *)
Definition decodeCursorSafe (cursor : string) : M (Date * ObjectId) :=
  try_catch
    (let raw := fromBase64 cursor in
     let parts := str_split "|" raw in
     let addedAtStr := parts !! 0%nat in
     let idStr := parts !! 1%nat in
     match addedAtStr, idStr with
     | Some addedAtStr, Some idStr =>
         if negb (truthy addedAtStr) || negb (truthy idStr) then
           throw (EPlain "invalid cursor format")
         else
           match Date_parse addedAtStr with
           | None => throw (EPlain "invalid cursor date")
           | Some addedAt =>
               if negb (ObjectId_isValid idStr) then
                 throw (EPlain "invalid cursor id")
               else
                 id <- newObjectId idStr ;;
                 ret (addedAt, id)
           end
     | _, _ => throw (EPlain "invalid cursor format")
     end)
    (fun err =>
       logger_error "cursor decode error:" ;;;
       throwHttp 400 "Invalid cursor" "INVALID_CURSOR").

(** Line 1 of getList: [Math.min(opts.limit ?? DEFAULT_LIMIT, MAX_LIMIT)]. *)
Definition pageLimit (opts : ListOptions.t) : number :=
  Math_min (nullish (ListOptions.limit opts) DEFAULT_LIMIT) MAX_LIMIT.

(** The rest of getList, for a page limit that is an integer. *)
Definition getListWith (limit : Z) (userId : string) (opts : ListOptions.t)
    (includeTotal : bool) : M Payload :=
  if negb (ObjectId_isValid userId) then throw (EPlain "invalid userId")
  else
    (* fetch version atomically *)
    let versionKey := userVersionKey userId in
    got <- redis_get versionKey ;;
    version <- match got with
               | Some v => if truthy v then ret v
                           else redis_setnx versionKey 0 ;;; ret "0"
               | None => redis_setnx versionKey 0 ;;; ret "0"
               end ;;
    let cacheKey := pageCacheKey userId version limit (ListOptions.cursor opts) in
    (* try cache *)
    cached <- try_catch (redis_get_page cacheKey)
                (fun err => logger_error "redis get failed" ;;; ret None) ;;
    match cached with
    | Some page => ret page
    | None =>
        (* build DB query *)
        uid <- newObjectId userId ;;
        position <- match ListOptions.cursor opts with
                    | Some c =>
                        if truthy c then
                          k <- decodeCursorSafe c ;; ret (Some k)
                        else ret None
                    | None => ret None
                    end ;;
        let queryAny := mkQuery uid (ListOptions.contentType opts) position in
        docs <- MyListItemModel_find queryAny (limit + 1) ;;
        page <- (if Z.of_nat (length docs) >? limit then
                   match arrayGet docs (limit - 1) with
                   | None => throw ETypeError
                   | Some last =>
                       ret (arraySplice limit docs,
                            Some (encodeCursor (Item.addedAt last) (Item._id last)))
                   end
                 else ret (docs, None)) ;;
        total <- (if includeTotal then
                    n <- MyListItemModel_countDocuments uid ;; ret (Some n)
                  else ret None) ;;
        let payload := mkPayload (fst page) (snd page) total in
        (* cache write with NX to avoid overwriting *)
        try_catch (redis_set_EX_NX cacheKey payload PAGE_TTL_SECONDS)
          (fun err => logger_error "redis set failed") ;;;
        ret payload
    end.

(** The rest of getList, for a page limit that is not an integer: a
    fraction, NaN or -Infinity. The steps are those of [getListWith];
    the limit is printed into the key by the runtime, applied to the
    query by the driver, and [limit - 1] is no array index, so that
    [docs[limit - 1]] is undefined and reading its [addedAt] throws. *)
Definition getListOther (limit : number) (userId : string)
    (opts : ListOptions.t) (includeTotal : bool) : M Payload :=
  if negb (ObjectId_isValid userId) then throw (EPlain "invalid userId")
  else
    let versionKey := userVersionKey userId in
    got <- redis_get versionKey ;;
    version <- match got with
               | Some v => if truthy v then ret v
                           else redis_setnx versionKey 0 ;;; ret "0"
               | None => redis_setnx versionKey 0 ;;; ret "0"
               end ;;
    let cacheKey :=
      pageCacheKeyText userId version (Number_toString limit)
        (ListOptions.cursor opts) in
    cached <- try_catch (redis_get_page cacheKey)
                (fun err => logger_error "redis get failed" ;;; ret None) ;;
    match cached with
    | Some page => ret page
    | None =>
        uid <- newObjectId userId ;;
        position <- match ListOptions.cursor opts with
                    | Some c =>
                        if truthy c then
                          k <- decodeCursorSafe c ;; ret (Some k)
                        else ret None
                    | None => ret None
                    end ;;
        let queryAny := mkQuery uid (ListOptions.contentType opts) position in
        docs <- MyListItemModel_findOther queryAny (number_add limit (ofZ 1)) ;;
        page <- (if number_gt (ofZ (Z.of_nat (length docs))) limit then
                   throw ETypeError
                 else ret (docs, @None string)) ;;
        total <- (if includeTotal then
                    n <- MyListItemModel_countDocuments uid ;; ret (Some n)
                  else ret None) ;;
        let payload := mkPayload (fst page) (snd page) total in
        try_catch (redis_set_EX_NX cacheKey payload PAGE_TTL_SECONDS)
          (fun err => logger_error "redis set failed") ;;;
        ret payload
    end.

(** [getList(userId, opts, includeTotal)] *)
Definition getList (userId : string) (opts : ListOptions.t)
    (includeTotal : bool) : M Payload :=
  let limit := pageLimit opts in
  match toInteger limit with
  | Some whole => getListWith whole userId opts includeTotal
  | None => getListOther limit userId opts includeTotal
  end.

(* ---------------------------------------------------------------- *)
(** ** The request layer (controller, pagination helper, error handler) *)
(* ---------------------------------------------------------------- *)

(** src/utils/pagination.ts. The argument [v] is given by [Number(v)],
    which is NaN for an absent or non-numeric query value. *)
Definition toNumberOrDefault (v : number) (d : number) : number :=
  let n := v in
  if Number_isFinite n && number_gt n (ofZ 0) then n else d.

Inductive Body :=
| BodyPage (p : Payload)
| BodyMessage (success : bool) (msg : string)
| BodyError (errcode : option string) (msg : string).

Record Response := mkResponse {
  statusCode : Z;
  body : Body;
}.

(** [err.message] *)
Definition errorMessage (err : Error) : string :=
  match err with
  | EHttp e => message e
  | EPlain msg => msg
  | ETypeError => TypeError_message
  | EBSON => BSONError_message
  | ERedis => RedisError_message
  | EMongo _ => MongoError_message
  end.

(** src/middleware/errorHandler.ts. Only an HttpError has a [status]. *)
Definition errorHandler (err : Error) : Response :=
  match err with
  | EHttp e => mkResponse (status e) (BodyError (code e) (message e))
  | _ =>
      let message :=
        if truthy (errorMessage err) then errorMessage err
        else "Internal Server Error" in
      mkResponse 500 (BodyError None message)
  end.

(** A handler's response, a thrown error going through errorHandler. *)
Definition respond (m : M Response) (w : World) : Response * World :=
  match m w with
  | (Ok r, w') => (r, w')
  | (Throw e, w') => (errorHandler e, w')
  end.

(** The query string of [GET /api/mylist], [limit] by its [Number]. *)
Record ListQuery := mkListQuery {
  query_limit : number;
  query_cursor : option string;
  query_contentType : option ContentType;
  query_includeTotal : option string;
}.

Definition listItems (userId : string) (query : ListQuery) : M Response :=
  let limit := toNumberOrDefault (query_limit query) (ofZ 20) in
  let cursor := query_cursor query in
  let contentType := query_contentType query in
  let includeTotal :=
    match query_includeTotal query with
    | Some s => truthy s
    | None => false
    end in
  result <- getList userId (ListOptions.mk (Some limit) cursor contentType)
              includeTotal ;;
  ret (mkResponse 200 (BodyPage result)).

Definition removeItem (userId contentId : string) : M Response :=
  removed <- removeFromList userId contentId ;;
  match removed with
  | None => ret (mkResponse 404 (BodyMessage false "Item not found"))
  | Some _ => ret (mkResponse 200 (BodyMessage true "Removed"))
  end.
End Service.

(* ================================================================== *)
(** * A reference instance of the library parameters *)
(* ================================================================== *)

(** The parsers restricted to the canonical formats, which every
    runtime and driver version accepts: ISO-8601 date-times as
    [toISOString] prints them, and 24-digit hexadecimal ObjectIds. *)
Module Node.

Definition digitVal (c : ascii) : option Z :=
  let n := N_of_ascii c in
  if ((48 <=? n) && (n <=? 57))%N then Some (Z.of_N n - 48) else None.

Fixpoint parseDigits (s : string) (acc : Z) : option Z :=
  match s with
  | EmptyString => Some acc
  | String c r =>
      match digitVal c with
      | Some d => parseDigits r (acc * 10 + d)
      | None => None
      end
  end.

(** The [len] decimal digits of [s] at [pos]. *)
Definition field (s : string) (pos len : nat) : option Z :=
  let sub := substring pos len s in
  if (String.length sub =? len)%nat then parseDigits sub 0 else None.

Definition punct (s : string) (pos : nat) (c : ascii) : bool :=
  match String.get pos s with
  | Some c' => Ascii.eqb c c'
  | None => false
  end.

(** [rest] is "-MM-DDTHH:mm:ss.sssZ". *)
Definition parseAfterYear (y : Z) (rest : string) : option Date :=
  if negb ((String.length rest =? 20)%nat
           && punct rest 0 "-" && punct rest 3 "-" && punct rest 6 "T"
           && punct rest 9 ":" && punct rest 12 ":" && punct rest 15 "."
           && punct rest 19 "Z")
  then None
  else
    match field rest 1 2, field rest 4 2, field rest 7 2,
          field rest 10 2, field rest 13 2, field rest 16 3 with
    | Some m, Some d, Some hh, Some mm, Some ss, Some ms =>
        let day := days_from_civil y m d in
        if (1 <=? m) && (m <=? 12) && (1 <=? d)
           && (let '(y', m', d') := civil_from_days day in
               (y' =? y) && (m' =? m) && (d' =? d))
           && (hh <=? 23) && (mm <=? 59) && (ss <=? 59)
        then Some (day * 86400000 + hh * 3600000 + mm * 60000 + ss * 1000 + ms)
        else None
    | _, _, _, _, _, _ => None
    end.

Definition Date_parseISO (s : string) : option Date :=
  match s with
  | String "+" r =>
      match field r 0 6 with
      | Some y => parseAfterYear y (substring 6 (String.length r - 6) r)
      | None => None
      end
  | String "-" r =>
      match field r 0 6 with
      | Some y => if y =? 0 then None
                  else parseAfterYear (- y) (substring 6 (String.length r - 6) r)
      | None => None
      end
  | _ =>
      match field s 0 4 with
      | Some y => parseAfterYear y (substring 4 (String.length s - 4) s)
      | None => None
      end
  end.

Definition hexVal (c : ascii) : option N :=
  let n := N_of_ascii c in
  if ((48 <=? n) && (n <=? 57))%N then Some (n - 48)%N
  else if ((97 <=? n) && (n <=? 102))%N then Some (n - 87)%N
  else if ((65 <=? n) && (n <=? 70))%N then Some (n - 55)%N
  else None.

Fixpoint parseHex (s : string) (acc : N) : option N :=
  match s with
  | EmptyString => Some acc
  | String c r =>
      match hexVal c with
      | Some d => parseHex r (acc * 16 + d)%N
      | None => None
      end
  end.

Definition ObjectId_ofHex (s : string) : option ObjectId :=
  if (String.length s =? 24)%nat then parseHex s 0%N else None.

(** The decimal digits of the fraction [n / d], at most [k] of them. *)
Fixpoint fractionDigits (k : nat) (n d : Z) : string :=
  match k with
  | O => EmptyString
  | S k' =>
      if n =? 0 then EmptyString
      else String (digit (n * 10 / d)) (fractionDigits k' (n * 10 mod d) d)
  end.

(** A number as a template literal prints it, for the numbers whose
    decimal expansion is short. *)
Definition Number_text (n : number) : string :=
  match n with
  | NaN => "NaN"
  | Infinity true => "-Infinity"
  | Infinity false => "Infinity"
  | Finite q =>
      let d := Zpos (Qden q) in
      let a := Z.abs (Qnum q) in
      (if Qnum q <? 0 then "-" else "") +:+ pretty (a / d)
        +:+ (if a mod d =? 0 then ""
             else "." +:+ fractionDigits 20 (a mod d) d)
  end.

(** [.limit(n)] as the server reads a number: truncated towards zero,
    the sign dropped, and nothing (NaN, an infinity, a proper fraction)
    meaning no limit. *)
Definition limit_truncated (n : number) : option nat :=
  match n with
  | Finite q =>
      let k := Z.abs (Qnum q) / Zpos (Qden q) in
      if k =? 0 then None else Some (Z.to_nat k)
  | _ => None
  end.

Definition builtins : Builtins :=
  {| Date_parse := Date_parseISO;
     ObjectId_isValid := fun s => bool_decide (is_Some (ObjectId_ofHex s));
     ObjectId_new := ObjectId_ofHex;
     Number_toString := Number_text;
     Query_limit := limit_truncated;
     TypeError_message :=
       "Cannot read properties of undefined (reading 'addedAt')";
     BSONError_message :=
       "input must be a 24 character hex string, 12 byte Uint8Array, or an integer";
     RedisError_message := "Connection is closed.";
     MongoError_message := "connection timed out" |}.

End Node.

(* ================================================================== *)
(** * Specification-side definitions *)
(* ================================================================== *)

(** A number lies in the integer range [[lo, hi]]. *)
Definition inRange (lo hi : Z) (n : number) : Prop :=
  match n with
  | Finite q => (inject_Z lo <= q /\ q <= inject_Z hi)%Q
  | _ => False
  end.

(** The limit as the specification words it: clamped to
    [[1, maxLimit]], the default 20 taken when the limit is absent or
    not positive. [v] is the numeric value of the query parameter. *)
Definition clampedLimit (maxLimit : Z) (v : number) : Z :=
  match toInteger v with
  | Some z => if 0 <? z then Z.min z maxLimit else Z.min 20 maxLimit
  | None => Z.min 20 maxLimit
  end.

(** A number that is finite and positive but not an integer. *)
Definition fractional (v : number) : bool :=
  Number_isFinite v && number_gt v (ofZ 0)
  && bool_decide (toInteger v = None).

(** The default settings with another [MYLIST_MAX_LIMIT]. *)
Definition configWithMax (m : Z) : Config :=
  {| PAGE_TTL_SECONDS := ofZ 60; MAX_LIMIT := ofZ m; DEFAULT_LIMIT := ofZ 20 |}.

(** The options listItems hands to getList. *)
Definition listOptions (v : number) (cursor : option string)
    (contentType : option ContentType) : ListOptions.t :=
  ListOptions.mk (Some (toNumberOrDefault v (ofZ 20))) cursor contentType.

(** [s] has no occurrence of [sep]. *)
Fixpoint lacks (sep : ascii) (s : string) : bool :=
  match s with
  | EmptyString => true
  | String c r => negb (Ascii.eqb c sep) && lacks sep r
  end.

(** The error every failed cursor decoding ends in. *)
Definition InvalidCursor : Error :=
  EHttp (mkHttpError 400 "Invalid cursor" (Some "INVALID_CURSOR")).

(** The two fields decodeCursorSafe reads from a token: the first two
    '|'-separated fields of the decoded text, both non-empty. *)
Definition cursorFields (token : string) : option (string * string) :=
  match str_split "|" (fromBase64 token) with
  | a :: b :: _ => if truthy a && truthy b then Some (a, b) else None
  | _ => None
  end.

(** A well-formed cursor in the specification's sense: the base64 text
    of "<ISO-8601 addedAt>|<recordId>", that is, the encoding of the
    pair its two fields denote. *)
Definition wellFormedCursor (token : string) : bool :=
  match str_split "|" (fromBase64 token) with
  | [a; b] =>
      match Node.Date_parseISO a, Node.ObjectId_ofHex b with
      | Some t, Some id => String.eqb (encodeCursor t id) token
      | _, _ => false
      end
  | _ => false
  end.

(** What decodeCursorSafe accepts, as a decision table over the two
    fields. *)
Definition acceptedCursor `{Builtins} (token : string)
  : option (Date * ObjectId) :=
  match cursorFields token with
  | Some (a, b) =>
      match Date_parse a with
      | Some t =>
          if ObjectId_isValid b then
            match ObjectId_new b with
            | Some id => Some (t, id)
            | None => None
            end
          else None
      | None => None
      end
  | None => None
  end.

(** The world after one [logger.error]. *)
Definition logged (msg : string) (w : World) : World :=
  mkWorld (db w) (redis w) (log w ++ [msg]).

(** Sample data for the concrete instances below. *)
Module Sample.
Definition emptyDb : Db := mkDb ∅ ∅ ∅ ∅ [].
Definition emptyRedis : Redis := mkRedis ∅ ∅ [].
Definition emptyWorld : World := mkWorld emptyDb emptyRedis [].
(** 2024-01-01T00:00:00.000Z *)
Definition newYear : Date := 1704067200000.
(** The ObjectId 507f1f77bcf86cd799439011. *)
Definition someId : ObjectId := 24912482966938930280208240657%N.
(** A cursor with a third field after the record id. *)
Definition paddedCursor : string :=
  toBase64 "2024-01-01T00:00:00.000Z|507f1f77bcf86cd799439011|x".
End Sample.

(** The unique index [{ userId: 1, contentId: 1 }] holds of a list of
    records. *)
Definition uniqueEntries (l : list Item.t) : Prop :=
  NoDup (map (fun r => (Item.userId r, Item.contentId r)) l).

(** The primary key: no two records share an [_id]. *)
Definition uniqueIds (l : list Item.t) : Prop := NoDup (map Item._id l).

(** No Redis command is going to be rejected. *)
Definition reachable (w : World) : Prop := faults (redis w) = [].

(** The version of a user as getList reads it: an absent counter
    counts as 0. *)
Definition currentVersion (w : World) (userId : string) : Z :=
  default 0 (counters (redis w) !! userVersionKey userId).

(** The world with the version counter of [userId] set to [v]. *)
Definition withVersion (w : World) (userId : string) (v : Z) : World :=
  set_redis w (mkRedis (<[userVersionKey userId := v]> (counters (redis w)))
                 (pages (redis w)) (faults (redis w))).

(** A document with another [_id] and [addedAt]. *)
Definition reissued (doc : Item.t) (newId : ObjectId) (now : Date) : Item.t :=
  Item.mk newId (Item.userId doc) (Item.contentType doc) (Item.contentId doc)
    (Item.episodeId doc) now (Item.snapshot doc) (Item.contentVisibility doc).

(** An error of the HttpError class with one of the given statuses. *)
Definition httpStatusIn (allowed : list Z) (e : Error) : Prop :=
  match e with
  | EHttp h => In (status h) allowed
  | _ => False
  end.

(** The ObjectId constructor accepts what [isValid] accepts. *)
Definition consistentObjectIds `{Builtins} : Prop :=
  forall s, ObjectId_isValid s = true -> is_Some (ObjectId_new s).

(** Same catalogue: two databases differ at most in the list items. *)
Definition sameCatalogue (d d' : Db) : Prop :=
  users d' = users d /\ movies d' = movies d /\ tvshows d' = tvshows d
  /\ episodes d' = episodes d.

(** A genuine ObjectId: twelve bytes. *)
Definition validObjectId (id : ObjectId) : Prop := (id < 2 ^ 96)%N.

(** A small catalogue for the concrete instances: one user, one movie,
    two shows and an episode of the second show. *)
Module Catalogue.
Definition userHex : string := "507f1f77bcf86cd799439011".
Definition userOid : ObjectId := Sample.someId.
Definition movieHex : string := "507f1f77bcf86cd799439012".
Definition movieOid : ObjectId := (Sample.someId + 1)%N.
Definition showHex : string := "507f1f77bcf86cd799439013".
Definition showOid : ObjectId := (Sample.someId + 2)%N.
Definition otherShowOid : ObjectId := (Sample.someId + 3)%N.
Definition episodeHex : string := "507f1f77bcf86cd799439015".
Definition episodeOid : ObjectId := (Sample.someId + 4)%N.
Definition inception : Content.t :=
  Content.mk "Inception" (Some "http://example.com/poster.jpg")
    (Some ["Drama"; "Action"]) (Some "A heist in dreams").
Definition someShow : Content.t := Content.mk "Test Show" None None None.
Definition database : Db :=
  mkDb {[userOid]} {[movieOid := inception]}
    (<[showOid := someShow]> {[otherShowOid := someShow]})
    {[episodeOid := Episode.mk (Some otherShowOid) "S1E1"]} [].
Definition world : World := mkWorld database Sample.emptyRedis [].
Definition addMovie : AddPayload.t := AddPayload.mk movieHex movie None None.
Definition addMovieWithEpisode : AddPayload.t :=
  AddPayload.mk movieHex movie (Some episodeHex) None.
Definition addEpisode : AddPayload.t :=
  AddPayload.mk showHex tvshow (Some episodeHex) None.
(** The record addMovie creates at [Sample.newYear] under [_id] 1. *)
Definition movieItem : Item.t :=
  Item.mk 1%N userOid movie movieOid None Sample.newYear
    (@snapshotOf inception) available.
End Catalogue.

(** The error removeFromList converts every failure into. *)
Definition RemoveFailed : Error :=
  EHttp (mkHttpError 500 "failed to remove item from list"
           (Some "INTERNAL_ERROR")).

(** The sample world after the movie has been added once. *)
Definition worldWithMovie : World :=
  withVersion
    (set_db Catalogue.world
       (set_mylistitems Catalogue.database [Catalogue.movieItem]))
    Catalogue.userHex 1.

(** The documents the store query of getList matches, newest first,
    before [.limit] is applied. *)
Definition matching (d : Db) (q : Query) : list Item.t :=
  merge_sort newestFirst (List.filter (matchesQuery q) (mylistitems d)).

(** The page getList cuts from the fetched documents: the items kept
    and the next cursor, or the TypeError of reading a property of
    [docs[limit - 1]] when that is undefined. *)
Definition cutPage (limit : Z) (docs : list Item.t)
  : result (list Item.t * option string) :=
  if Z.of_nat (length docs) >? limit then
    match arrayGet docs (limit - 1) with
    | None => Throw ETypeError
    | Some last =>
        Ok (arraySplice limit docs,
            Some (encodeCursor (Item.addedAt last) (Item._id last)))
    end
  else Ok (docs, None).

(** The number of records of a user. *)
Definition countOf (d : Db) (uid : ObjectId) : Z :=
  Z.of_nat (length (List.filter (fun r => (Item.userId r =? uid)%N)
                      (mylistitems d))).

(** What getList computes from the store once the cache has missed. *)
Definition storeRead (d : Db) (uid : ObjectId) (limit : Z)
    (contentType : option ContentType) (position : option (Date * ObjectId))
    (includeTotal : bool) : result Payload :=
  match cutPage limit
          (Mongo_limit (limit + 1) (matching d (mkQuery uid contentType position)))
  with
  | Ok (kept, next) =>
      Ok (mkPayload kept next
            (if includeTotal then Some (countOf d uid) else None))
  | Throw e => Throw e
  end.

(** The position a cursor parameter stands for: [Some None] for an
    absent or empty cursor, [None] for one that does not decode. *)
Definition cursorPosition `{Builtins} (cursor : option string)
  : option (option (Date * ObjectId)) :=
  match cursor with
  | Some c =>
      if truthy c then
        match acceptedCursor c with
        | Some k => Some (Some k)
        | None => None
        end
      else Some None
  | None => Some None
  end.

(** The counters after getList has read (and, if absent, initialised)
    the version of [userId]. *)
Definition versionRead (cs : gmap string Z) (userId : string)
  : gmap string Z :=
  <[userVersionKey userId := default 0 (cs !! userVersionKey userId)]> cs.

(** A computation that never writes to the database. *)
Definition keepsDb {A} (m : M A) : Prop :=
  forall w, db (snd (m w)) = db w.

(** Sample worlds for listing: the user of the catalogue owns three
    records, two of them added in the same millisecond. *)
Module Listing.
Definition record (id : N) (t : Date) (ct : ContentType) : Item.t :=
  Item.mk id Catalogue.userOid ct (id + 100)%N None t
    (Snapshot.mk "Title" None None None) available.
Definition r1 : Item.t := record 1 Sample.newYear movie.
Definition r2 : Item.t := record 2 Sample.newYear tvshow.
Definition r3 : Item.t := record 3 (Sample.newYear + 1) movie.
Definition database : Db :=
  set_mylistitems Catalogue.database [r1; r2; r3].
Definition world : World := mkWorld database Sample.emptyRedis [].
Definition firstPage : ListOptions.t := ListOptions.mk None None None.
Definition movies : ListOptions.t := ListOptions.mk None None (Some movie).
End Listing.

(** [b] comes strictly after [a] in the newest-first order. *)
Definition strictlyNewer (a b : Item.t) : Prop :=
  keyBefore (orderingKey a) b = true.

(** Listing to the end: call getList, follow nextCursor until it is
    null, and concatenate the pages. [None] when [fuel] calls were not
    enough. *)
Fixpoint collectPages `{Builtins} `{Config} (fuel : nat) (limit : Z)
    (userId : string) (contentType : option ContentType)
    (cursor : option string) (w : World)
  : option (result (list Item.t) * World) :=
  match fuel with
  | O => None
  | S fuel' =>
      match getListWith limit userId
              (ListOptions.mk (Some (ofZ limit)) cursor contentType) false w
      with
      | (Ok page, w') =>
          match nextCursor page with
          | None => Some (Ok (items page), w')
          | Some c =>
              match collectPages fuel' limit userId contentType (Some c) w' with
              | Some (Ok rest, w'') => Some (Ok (items page ++ rest)%list, w'')
              | other => other
              end
          end
      | (Throw e, w') => Some (Throw e, w')
      end
  end.

(** Two pages with the same items and the same next cursor; their
    totals may differ. *)
Definition samePage (p q : Payload) : Prop :=
  items p = items q /\ nextCursor p = nextCursor q.

(** Every page cached for the user, version and limit at hand has the
    items and the next cursor that the store gives for its cursor under
    the content-type filter [contentType]. A cache without such pages is
    coherent, and so is one filled by earlier calls with this filter on
    the database as it is; one that holds a page written under another
    filter is not. *)
Definition coherentCache `{Builtins} (d : Db) (uid : ObjectId)
    (userId : string) (version : Z) (limit : Z)
    (contentType : option ContentType) (ps : gmap string Payload) : Prop :=
  forall cursor position page,
    cursorPosition cursor = Some position ->
    ps !! pageCacheKey userId (pretty version) limit cursor = Some page ->
    exists payload,
      storeRead d uid limit contentType position false = Ok payload
      /\ samePage page payload.

(** A cache that holds the first page of the sample list for limit 2,
    written by a call that asked for the total. *)
Definition warmCache : gmap string Payload :=
  {[pageCacheKey Catalogue.userHex (pretty 0) 2 None :=
      mkPayload [Listing.r3; Listing.r2]
        (Some (encodeCursor Sample.newYear 2%N)) (Some 3)]}.

(** The printers and parsers of the runtime agree on the ordering keys
    of the records of a list: the cursor of a record decodes to its
    key. *)
Definition cursorsDecode `{Builtins} (l : list Item.t) : Prop :=
  forall r, In r l ->
    acceptedCursor (encodeCursor (Item.addedAt r) (Item._id r))
    = Some (orderingKey r).

(** The calls addToList awaits outside its try block, and the re-fetch
    in its catch handler: nothing converts their rejections. *)
Definition unguardedReads : list StoreCall :=
  [UserExists; MovieFindById; TVShowFindById; EpisodeFindById; ItemFindOne].

(** The two calls getList awaits, both outside its try blocks. *)
Definition listReads : list StoreCall := [ItemFind; ItemCountDocuments].

(** [e] is the error of a call among [calls] that the driver rejects,
    as the driver raised it. *)
Definition driverError `{Driver} (calls : list StoreCall) (e : Error) : Prop :=
  exists c errcode,
    In c calls /\ rejects c = Some errcode /\ e = EMongo errcode.

#[global] Instance StoreCall_eq_dec : EqDecision StoreCall.
Proof. solve_decision. Defined.

(** The driver that rejects the call [c] with [errcode] and answers
    every other call. *)
Definition rejecting (c : StoreCall) (errcode : option Z) : Driver :=
  {| rejects := fun c' => if bool_decide (c' = c) then Some errcode else None |}.

(** The documents a store query with a limit that is not an integer
    fetches. *)
Definition fetchedOther `{Builtins} (d : Db) (q : Query) (n : number)
  : list Item.t :=
  match Query_limit n with
  | Some k => take k (matching d q)
  | None => matching d q
  end.

(** The error classes of the specification's taxonomy, by HTTP
    status. *)
Definition BadRequest (e : Error) : Prop := httpStatusIn [400] e.
Definition NotFound (e : Error) : Prop := httpStatusIn [404] e.
Definition Conflict (e : Error) : Prop := httpStatusIn [409] e.


(** A successful mutation of the list of [userId]: an add that returned
    a record, or a remove that deleted one. *)
Definition mutated `{Builtins} (userId : string) (w w' : World) : Prop :=
  (exists payload now newId item,
     addToList userId payload now newId w = (Ok item, w'))
  \/ (exists contentId r,
        removeFromList userId contentId w = (Ok (Some r), w')).

(* ================================================================== *)
(** * Numbers and the page limit *)
(* ================================================================== *)

Lemma Qle_bool_inject_Z (a b : Z) :
  Qle_bool (inject_Z a) (inject_Z b) = (a <=? b).
Proof. unfold Qle_bool, inject_Z; simpl. by rewrite !Z.mul_1_r. Qed.

Lemma toInteger_ofZ (z : Z) : toInteger (ofZ z) = Some z.
Proof.
  unfold toInteger, ofZ, inject_Z; simpl.
  rewrite Z.mod_1_r, Z.div_1_r. reflexivity.
Qed.

Lemma Math_min_ofZ (a b : Z) : Math_min (ofZ a) (ofZ b) = ofZ (Z.min a b).
Proof.
  unfold Math_min, ofZ. rewrite Qle_bool_inject_Z.
  destruct (Z.leb_spec a b); f_equal; f_equal; lia.
Qed.

(** An integer-valued rational against an integer. *)
Lemma toInteger_Finite_le (q : Q) (z m : Z) :
  toInteger (Finite q) = Some z ->
  Qle_bool q (inject_Z m) = (z <=? m).
Proof.
  unfold toInteger, Qle_bool, inject_Z; simpl.
  destruct (Z.eqb_spec (Qnum q mod Z.pos (Qden q)) 0) as [Hm|]; [|done].
  intros [= <-]. rewrite Z.mul_1_r.
  apply Z.div_exact in Hm; [|done].
  set (d := Z.pos (Qden q)) in *. set (k := Qnum q `div` d) in *.
  assert (0 < d) by (subst d; lia).
  rewrite Hm.
  destruct (Z.leb_spec k m), (Z.leb_spec (d * k) (m * d)); try reflexivity; nia.
Qed.

Lemma toInteger_Finite_gt0 (q : Q) (z : Z) :
  toInteger (Finite q) = Some z ->
  number_gt (Finite q) (ofZ 0) = (0 <? z).
Proof.
  intros Hq. unfold number_gt, ofZ.
  rewrite (toInteger_Finite_le q z 0 Hq).
  destruct (Z.leb_spec z 0), (Z.ltb_spec 0 z); simpl; try reflexivity; lia.
Qed.

Lemma pageLimit_default (m : Z) (c : option string) (ct : option ContentType) :
  @pageLimit (configWithMax m) (ListOptions.mk (Some (ofZ 20)) c ct)
  = ofZ (Z.min 20 m).
Proof. unfold pageLimit; simpl. apply Math_min_ofZ. Qed.

Lemma pageLimit_listOptions (m : Z) (v : number) c ct :
  fractional v = false ->
  toInteger (@pageLimit (configWithMax m) (listOptions v c ct))
  = Some (clampedLimit m v).
Proof.
  unfold fractional, listOptions, clampedLimit, toNumberOrDefault.
  destruct v as [| s | q]; simpl Number_isFinite; cbv iota.
  - intros _. simpl andb. cbv iota. rewrite pageLimit_default.
    by rewrite toInteger_ofZ.
  - intros _. simpl andb. cbv iota. rewrite pageLimit_default.
    by rewrite toInteger_ofZ.
  - rewrite !andb_true_l.
    destruct (toInteger (Finite q)) as [z|] eqn:Hq.
    + intros _. rewrite (toInteger_Finite_gt0 q z Hq).
      destruct (Z.ltb_spec 0 z).
      * unfold pageLimit; simpl nullish. simpl MAX_LIMIT.
        unfold Math_min, ofZ. rewrite (toInteger_Finite_le q z m Hq).
        destruct (Z.leb_spec z m).
        -- rewrite Hq. f_equal. lia.
        -- fold (ofZ m). rewrite toInteger_ofZ. f_equal. lia.
      * rewrite pageLimit_default. by rewrite toInteger_ofZ.
    + rewrite bool_decide_eq_true_2 by done. rewrite andb_true_r.
      intros ->. rewrite pageLimit_default. by rewrite toInteger_ofZ.
Qed.

Lemma clampedLimit_range (m : Z) (v : number) :
  1 <= m -> 1 <= clampedLimit m v <= m.
Proof.
  intros Hm. unfold clampedLimit.
  destruct (toInteger v) as [z|]; [destruct (Z.ltb_spec 0 z)|]; lia.
Qed.

(** The limit the controller hands on: for a limit parameter that is
    absent, not numeric, not positive or an integer, listItems runs the
    integer path of getList with the limit clamped. *)
Lemma listItems_whole_limit `{Builtins} `{Driver} (m : Z) (userId : string)
    (query : ListQuery) :
  fractional (query_limit query) = false ->
  @listItems _ (configWithMax m) _ userId query
  = (result <- @getListWith _ (configWithMax m) _
                 (clampedLimit m (query_limit query)) userId
                 (listOptions (query_limit query) (query_cursor query)
                    (query_contentType query))
                 match query_includeTotal query with
                 | Some s => truthy s
                 | None => false
                 end ;;
     ret (mkResponse 200 (BodyPage result))).
Proof.
  intros Hv.
  pose proof (pageLimit_listOptions m (query_limit query)
                (query_cursor query) (query_contentType query) Hv) as Hl.
  unfold listItems, getList.
  fold (listOptions (query_limit query) (query_cursor query)
          (query_contentType query)).
  cbv zeta. rewrite Hl. reflexivity.
Qed.

(** The limit parameter 0.5 is finite and positive, so it is neither
    defaulted nor clamped: the page limit is 0.5, outside [[1, 100]]. *)
Lemma pageLimit_half_not_clamped :
  ~ (forall v c ct,
       inRange 1 100 (@pageLimit defaultConfig (listOptions v c ct))).
Proof.
  intros Hall. specialize (Hall (Finite (1 # 2)) None None).
  vm_compute in Hall. destruct Hall as [Hlo _]. apply Hlo. reflexivity.
Qed.

(* ================================================================== *)
(** * The cursor codec *)
(* ================================================================== *)

Ltac nlia := zify; Z.to_euclidean_division_equations; lia.

Lemma b64char_table :
  forallb (fun n => match unbase64 (b64char n) with
                    | Some k => (k =? n)%N
                    | None => false
                    end && negb (Ascii.eqb (b64char n) "="))
    (map N.of_nat (seq 0 64)) = true.
Proof. vm_compute. reflexivity. Qed.

Lemma unbase64_b64char (n : N) :
  (n < 64)%N ->
  unbase64 (b64char n) = Some n /\ Ascii.eqb (b64char n) "=" = false.
Proof.
  intros Hn. pose proof b64char_table as Ht.
  rewrite forallb_forall in Ht.
  assert (In n (map N.of_nat (seq 0 64))) as Hin.
  { apply in_map_iff. exists (N.to_nat n). split; [lia|].
    apply in_seq. lia. }
  apply Ht in Hin. apply andb_prop in Hin as [Hu He]. split.
  - destruct (unbase64 (b64char n)) as [k|]; [|done].
    apply N.eqb_eq in Hu. by subst.
  - by apply negb_true_iff.
Qed.

Lemma sextets_b64char (n : N) (r : string) :
  (n < 64)%N -> sextets (String (b64char n) r) = n :: sextets r.
Proof.
  intros Hn. destruct (unbase64_b64char n Hn) as [Hu He].
  cbn [sextets]. by rewrite He, Hu.
Qed.

Lemma string_ind3 (P : string -> Prop) :
  P EmptyString ->
  (forall a, P (String a EmptyString)) ->
  (forall a b, P (String a (String b EmptyString))) ->
  (forall a b c s, P s -> P (String a (String b (String c s)))) ->
  forall s, P s.
Proof.
  intros H0 H1 H2 H3. fix IH 1.
  intros [|a [|b [|c s]]]; [exact H0 | apply H1 | apply H2 | apply H3, IH].
Qed.

Lemma byte_of (a : ascii) (n : N) : n = N_of_ascii a -> ascii_of_N n = a.
Proof. intros ->. apply ascii_N_embedding. Qed.

(** Decoding undoes encoding, for every byte string. *)
Lemma fromBase64_toBase64 (s : string) : fromBase64 (toBase64 s) = s.
Proof.
  induction s as [| a | a b | a b c s IH] using string_ind3.
  - reflexivity.
  - pose proof (N_ascii_bounded a).
    unfold fromBase64. cbn [toBase64]. cbv zeta.
    rewrite !sextets_b64char by nlia. cbn [sextets Ascii.eqb Bool.eqb].
    cbn [bytesOfSextets]. f_equal. apply byte_of. nlia.
  - pose proof (N_ascii_bounded a). pose proof (N_ascii_bounded b).
    unfold fromBase64. cbn [toBase64]. cbv zeta.
    rewrite !sextets_b64char by nlia. cbn [sextets Ascii.eqb Bool.eqb].
    cbn [bytesOfSextets]. f_equal; [|f_equal]; apply byte_of; nlia.
  - pose proof (N_ascii_bounded a). pose proof (N_ascii_bounded b).
    pose proof (N_ascii_bounded c).
    unfold fromBase64 in *. cbn [toBase64]. cbv zeta.
    rewrite !sextets_b64char by nlia.
    cbn [bytesOfSextets]. rewrite IH.
    f_equal; [|f_equal; [|f_equal]]; apply byte_of; nlia.
Qed.

Lemma toBase64_inj (s1 s2 : string) : toBase64 s1 = toBase64 s2 -> s1 = s2.
Proof.
  intros E. rewrite <- (fromBase64_toBase64 s1), <- (fromBase64_toBase64 s2).
  by rewrite E.
Qed.

Lemma lacks_app (sep : ascii) (a b : string) :
  lacks sep (a +:+ b) = lacks sep a && lacks sep b.
Proof.
  induction a as [|c a IH]; [reflexivity|].
  simpl. rewrite IH. by rewrite andb_assoc.
Qed.

Lemma truthy_app (a b : string) : truthy (a +:+ b) = truthy a || truthy b.
Proof. by destruct a. Qed.

Lemma str_split_lacks (sep : ascii) (s : string) :
  lacks sep s = true -> str_split sep s = [s].
Proof.
  induction s as [|c s IH]; [reflexivity|].
  cbn [lacks str_split]. intros [Hc Hs]%andb_prop.
  apply negb_true_iff in Hc. rewrite Hc, (IH Hs). reflexivity.
Qed.

Lemma str_split_app (sep : ascii) (a r : string) :
  lacks sep a = true ->
  str_split sep (a +:+ String sep r) = a :: str_split sep r.
Proof.
  induction a as [|c a IH].
  - intros _. simpl. by rewrite Ascii.eqb_refl.
  - simpl. intros [Hc Ha]%andb_prop.
    apply negb_true_iff in Hc. rewrite Hc, (IH Ha). reflexivity.
Qed.

Lemma digit_lacks_bar (k : Z) : 0 <= k < 10 -> Ascii.eqb (digit k) "|" = false.
Proof.
  intros Hk.
  assert (k = 0 \/ k = 1 \/ k = 2 \/ k = 3 \/ k = 4 \/ k = 5 \/ k = 6
          \/ k = 7 \/ k = 8 \/ k = 9) as Hc by lia.
  repeat (destruct Hc as [->|Hc]; [reflexivity|]). by subst.
Qed.

Lemma digits_lacks_bar (w : nat) (n : Z) : lacks "|" (digits w n) = true.
Proof.
  revert n. induction w as [|w IH]; intros n; [reflexivity|].
  cbn [digits]. rewrite lacks_app, IH. cbn [lacks].
  rewrite digit_lacks_bar; [reflexivity|].
  apply Z.mod_pos_bound. lia.
Qed.

Lemma hexchar_lacks_bar (k : N) : (k < 16)%N -> Ascii.eqb (hexchar k) "|" = false.
Proof.
  intros Hk.
  assert (k = 0 \/ k = 1 \/ k = 2 \/ k = 3 \/ k = 4 \/ k = 5 \/ k = 6
          \/ k = 7 \/ k = 8 \/ k = 9 \/ k = 10 \/ k = 11 \/ k = 12
          \/ k = 13 \/ k = 14 \/ k = 15)%N as Hc by lia.
  repeat (destruct Hc as [->|Hc]; [reflexivity|]). by subst.
Qed.

Lemma hex_lacks_bar (w : nat) (n : N) : lacks "|" (hex w n) = true.
Proof.
  revert n. induction w as [|w IH]; intros n; [reflexivity|].
  cbn [hex]. rewrite lacks_app, IH. cbn [lacks].
  rewrite hexchar_lacks_bar; [reflexivity|].
  apply N.mod_lt. lia.
Qed.

Lemma ObjectId_toString_lacks_bar (id : ObjectId) :
  lacks "|" (ObjectId_toString id) = true.
Proof. apply hex_lacks_bar. Qed.

Lemma ObjectId_toString_truthy (id : ObjectId) :
  truthy (ObjectId_toString id) = true.
Proof.
  unfold ObjectId_toString. cbn [hex]. rewrite truthy_app.
  apply orb_true_r.
Qed.

Lemma Date_toISOString_lacks_bar (t : Date) :
  lacks "|" (Date_toISOString t) = true.
Proof.
  unfold Date_toISOString.
  destruct (civil_from_days (t `div` 86400000)) as [[y m] d].
  repeat (rewrite lacks_app || rewrite digits_lacks_bar).
  destruct ((0 <=? y) && (y <=? 9999)); [|destruct (y <? 0)];
    repeat (rewrite lacks_app || rewrite digits_lacks_bar); reflexivity.
Qed.

Lemma Date_toISOString_truthy (t : Date) : truthy (Date_toISOString t) = true.
Proof.
  unfold Date_toISOString.
  destruct (civil_from_days (t `div` 86400000)) as [[y m] d].
  rewrite truthy_app. apply orb_true_r.
Qed.

Section Cursor.
Context `{Builtins}.

(** Decoding an encoded pair returns the pair, whenever the library
    parsers read back what the printers wrote. *)
Lemma decodeCursorSafe_encodeCursor (t : Date) (id : ObjectId) (w : World) :
  Date_parse (Date_toISOString t) = Some t ->
  ObjectId_isValid (ObjectId_toString id) = true ->
  ObjectId_new (ObjectId_toString id) = Some id ->
  decodeCursorSafe (encodeCursor t id) w = (Ok (t, id), w).
Proof.
  intros Hd Hv Hn. unfold decodeCursorSafe, encodeCursor, try_catch.
  rewrite fromBase64_toBase64.
  change ("|" +:+ ObjectId_toString id) with (String "|" (ObjectId_toString id)).
  rewrite str_split_app by apply Date_toISOString_lacks_bar.
  rewrite str_split_lacks by apply ObjectId_toString_lacks_bar.
  cbn [lookup list_lookup].
  rewrite Date_toISOString_truthy, ObjectId_toString_truthy. cbn [negb orb].
  rewrite Hd, Hv. cbn [negb]. unfold newObjectId, bind. rewrite Hn.
  reflexivity.
Qed.

(** Every call either returns what the decision table accepts or throws
    InvalidCursor, after logging. *)
Lemma decodeCursorSafe_accepted (token : string) (w : World) :
  decodeCursorSafe token w
  = match acceptedCursor token with
    | Some k => (Ok k, w)
    | None => (Throw InvalidCursor, logged "cursor decode error:" w)
    end.
Proof.
  unfold decodeCursorSafe, acceptedCursor, cursorFields, try_catch.
  destruct (str_split "|" (fromBase64 token)) as [|a [|b rest]];
    cbn [lookup list_lookup]; try reflexivity.
  destruct (truthy a), (truthy b); cbn [negb orb andb]; try reflexivity.
  destruct (Date_parse a) as [t|]; [|reflexivity].
  destruct (ObjectId_isValid b); cbn [negb]; [|reflexivity].
  unfold newObjectId, bind. destruct (ObjectId_new b); reflexivity.
Qed.

(** A cursor that decodes is neither empty nor the cache sentinel. *)
Lemma acceptedCursor_truthy (token : string) (k : Date * ObjectId) :
  acceptedCursor token = Some k -> truthy token = true /\ token <> "start".
Proof.
  unfold acceptedCursor. intros Hk. split.
  - destruct token; [discriminate Hk | reflexivity].
  - intros ->. discriminate Hk.
Qed.

End Cursor.

(** C3 (as amended). Decoding the cursor that encodes a pair (the
    base64 text of "<ISO-8601 addedAt>|<recordId>") returns exactly that
    pair, for every pair the Date and ObjectId parsers read back; and
    for every token decodeCursorSafe either returns the pair its first
    two fields denote or fails with InvalidCursor (HTTP 400) after
    logging, never with another error. It fails whenever the decoded
    text has fewer than two fields, an empty first or second field, an
    unparsable date or an invalid ObjectId. *)
Theorem cursor_round_trip_and_rejection `{Builtins} (t : Date) (id : ObjectId)
    (token : string) (w : World) :
  Date_parse (Date_toISOString t) = Some t ->
  ObjectId_isValid (ObjectId_toString id) = true ->
  ObjectId_new (ObjectId_toString id) = Some id ->
  decodeCursorSafe (encodeCursor t id) w = (Ok (t, id), w)
  /\ decodeCursorSafe token w
     = match acceptedCursor token with
       | Some k => (Ok k, w)
       | None => (Throw InvalidCursor, logged "cursor decode error:" w)
       end
  /\ (status (mkHttpError 400 "Invalid cursor" (Some "INVALID_CURSOR")) = 400
      /\ errorHandler InvalidCursor
         = mkResponse 400 (BodyError (Some "INVALID_CURSOR") "Invalid cursor")).
Proof.
  intros Hd Hv Hn. split; [by apply decodeCursorSafe_encodeCursor|].
  split; [apply decodeCursorSafe_accepted|]. split; reflexivity.
Qed.

Lemma cursor_round_trip_and_rejection_witness :
  @decodeCursorSafe Node.builtins
     (encodeCursor Sample.newYear Sample.someId) Sample.emptyWorld
  = (Ok (Sample.newYear, Sample.someId), Sample.emptyWorld).
Proof.
  refine (proj1 (@cursor_round_trip_and_rejection Node.builtins
                   Sample.newYear Sample.someId "start" Sample.emptyWorld
                   _ _ _)); vm_compute; reflexivity.
Defined.

(** C3 as stated fails: a token whose decoded text carries a third
    field is not the encoding of any pair, yet decoding it succeeds. *)
Lemma decodeCursorSafe_accepts_padded_cursor :
  ~ (forall token w,
       wellFormedCursor token = false ->
       exists w', @decodeCursorSafe Node.builtins token w
                  = (Throw InvalidCursor, w')).
Proof.
  intros Hall.
  destruct (Hall Sample.paddedCursor Sample.emptyWorld) as [w' Hw'].
  - vm_compute. reflexivity.
  - vm_compute in Hw'. discriminate Hw'.
Qed.

(* ================================================================== *)
(** * Cache keys and the version counter *)
(* ================================================================== *)

Lemma length_append (a b : string) :
  String.length (a +:+ b) = (String.length a + String.length b)%nat.
Proof. induction a as [|c a IH]; simpl; [reflexivity | by rewrite IH]. Qed.

Lemma append_inv_tail (a b r : string) : a +:+ r = b +:+ r -> a = b.
Proof.
  revert b. induction a as [|c a IH]; intros [|d b] E.
  - reflexivity.
  - apply (f_equal String.length) in E.
    rewrite !length_append in E. cbn [String.length] in E. lia.
  - apply (f_equal String.length) in E.
    rewrite !length_append in E. cbn [String.length] in E. lia.
  - simpl in E. injection E as -> E. f_equal. by apply IH.
Qed.

(** Pages cached under different versions never share a key. *)
Lemma pageCacheKey_version_inj (userId v1 v2 : string) (limit : Z)
    (cursor : option string) :
  pageCacheKey userId v1 limit cursor = pageCacheKey userId v2 limit cursor ->
  v1 = v2.
Proof.
  unfold pageCacheKey. intros E.
  apply String.app_inj in E. apply String.app_inj in E.
  apply String.app_inj in E. by apply append_inv_tail in E.
Qed.

(** The version key of a user is none of that user's page keys. *)
Lemma userVersionKey_ne_pageCacheKey (userId version : string) (limit : Z)
    (cursor : option string) :
  userVersionKey userId <> pageCacheKey userId version limit cursor.
Proof.
  unfold userVersionKey, pageCacheKey. intros E.
  apply String.app_inj in E. apply String.app_inj in E.
  apply (f_equal String.length) in E.
  change (":v" +:+ ?x) with (String ":" (String "v" x)) in E.
  cbn [String.length] in E. rewrite !length_append in E. simpl in E. lia.
Qed.

Section Bump.
Context `{Builtins}.

(** bumpUserVersion never throws and touches neither the database nor
    the cached pages. *)
Lemma bumpUserVersion_ok (userId : string) (w : World) :
  exists w', bumpUserVersion userId w = (Ok tt, w')
             /\ db w' = db w /\ pages (redis w') = pages (redis w).
Proof.
  unfold bumpUserVersion, try_catch, bind, redis_incr, redis_expire,
    redis_cmd, logger_error.
  destruct w as [d [cs ps fs] lg]; cbn [redis faults counters pages db log set_redis].
  destruct fs as [|[] [|[] fs]];
    cbn [redis faults counters pages db log set_redis]; eauto.
Qed.

(** With Redis reachable the bump adds exactly one to the counter. *)
Lemma bumpUserVersion_reachable (userId : string) (w : World) :
  reachable w ->
  bumpUserVersion userId w
  = (Ok tt, withVersion w userId (currentVersion w userId + 1)).
Proof.
  unfold reachable, bumpUserVersion, try_catch, bind, redis_incr, redis_expire,
    redis_cmd, withVersion, currentVersion.
  destruct w as [d [cs ps fs] lg]; cbn [redis faults counters pages db log set_redis].
  intros ->. reflexivity.
Qed.

(** With the INCR rejected the counter keeps its value and the failure
    is logged. *)
Lemma bumpUserVersion_rejected (userId : string) (d : Db) (cs : gmap string Z)
    (ps : gmap string Payload) (fs : list bool) (lg : list string) :
  bumpUserVersion userId (mkWorld d (mkRedis cs ps (true :: fs)) lg)
  = (Ok tt, mkWorld d (mkRedis cs ps fs) (lg ++ ["redis incr failed"])).
Proof. reflexivity. Qed.

End Bump.

(* ================================================================== *)
(** * Adding to the list *)
(* ================================================================== *)

(** Case analysis on the innermost scrutinee of the goal. *)
Ltac step :=
  match goal with
  | |- context [match ?x with _ => _ end] =>
      lazymatch x with
      | context [match _ with _ => _ end] => fail
      | _ => destruct x eqn:?
      end
  end; cbn beta iota.

(** The driver that answers: its calls run on the database. *)
Ltac answered := cbv beta iota zeta delta [rejects answering].

Ltac unfold_prepare :=
  unfold prepareDocument, newObjectId, throwHttp, bind, throw, ret,
    UserModel_exists, MovieModel_findById, TVShowModel_findById,
    EpisodeModel_findById, store_call;
  answered.

Section Add.
Context `{Builtins}.

(** The checks before the insert only read: whatever they answer, the
    world is as before. *)
Lemma prepareDocument_world (userId : string) (payload : AddPayload.t)
    (now : Date) (newId : ObjectId) (w : World) :
  snd (prepareDocument userId payload now newId w) = w.
Proof.
  unfold_prepare.
  repeat (first [reflexivity | step]).
Qed.

(** What a successful check of the request fixes about the document. *)
Lemma prepareDocument_Ok (userId : string) (payload : AddPayload.t)
    (now : Date) (newId : ObjectId) (w w' : World) (doc : Item.t) :
  prepareDocument userId payload now newId w = (Ok doc, w') ->
  w' = w
  /\ ObjectId_new userId = Some (Item.userId doc)
  /\ ObjectId_new (AddPayload.contentId payload) = Some (Item.contentId doc)
  /\ Item.userId doc ∈ users (db w)
  /\ Item._id doc = newId
  /\ Item.addedAt doc = now
  /\ Item.contentType doc = AddPayload.contentType payload
  /\ Item.contentVisibility doc = available.
Proof.
  unfold_prepare.
  repeat (first [discriminate | step]); intros [= <- <-];
    cbn [Item.userId Item.contentId Item._id Item.addedAt Item.contentType
           Item.contentVisibility];
    repeat split; try reflexivity;
    match goal with
    | Hn : negb (bool_decide _) = false |- _ =>
        apply negb_false_iff, bool_decide_eq_true in Hn; exact Hn
    end.
Qed.

(** The checks depend on the catalogue only: on the same users, movies,
    shows and episodes a request that passed passes again, with the
    same document up to [_id] and [addedAt]. *)
Lemma prepareDocument_replay (userId : string) (payload : AddPayload.t)
    (now now' : Date) (newId newId' : ObjectId) us ms ts es
    (l l' : list Item.t) (r r' : Redis) (lg lg' : list string)
    (doc : Item.t) (w1 : World) :
  prepareDocument userId payload now newId
    (mkWorld (mkDb us ms ts es l) r lg) = (Ok doc, w1) ->
  prepareDocument userId payload now' newId'
    (mkWorld (mkDb us ms ts es l') r' lg')
  = (Ok (reissued doc newId' now'), mkWorld (mkDb us ms ts es l') r' lg').
Proof.
  unfold_prepare. cbn [db users movies tvshows episodes].
  repeat (first [discriminate | step; cbn [db users movies tvshows episodes]]);
    intros [= <- <-]; reflexivity.
Qed.

End Add.

Section Insert.
Context `{Builtins}.

(** The three ways the insert can go: validation failure, duplicate
    key, or a new record. *)
Lemma insertDocument_cases (userId : string) (doc : Item.t) (w : World) :
  let l := mylistitems (db w) in
  if negb (truthy (Snapshot.title (Item.snapshot doc))) then
    insertDocument userId doc w
    = (Throw (EHttp (mkHttpError 500 "failed to add item to list"
                       (Some "INTERNAL_ERROR"))),
       logged "addToList failed" w)
  else if existsb (collides doc) l then
    match List.find (sameEntry (Item.userId doc) (Item.contentId doc)) l with
    | Some e =>
        exists w', insertDocument userId doc w = (Ok e, w')
                   /\ bumpUserVersion userId w = (Ok tt, w')
    | None =>
        insertDocument userId doc w
        = (Throw (EHttp (mkHttpError 500 "duplicate key but fetch failed"
                           (Some "INTERNAL_ERROR"))), w)
    end
  else
    exists w', insertDocument userId doc w = (Ok (schemaDefaults doc), w')
               /\ bumpUserVersion userId
                    (set_db w (set_mylistitems (db w)
                                 (l ++ [schemaDefaults doc])%list))
                  = (Ok tt, w').
Proof.
  cbv zeta. unfold insertDocument, try_catch, bind, MyListItemModel_create,
    MyListItemModel_findOne, store_call, throwHttp, throw, ret.
  answered.
  change (Snapshot.title (Item.snapshot (schemaDefaults doc)))
    with (Snapshot.title (Item.snapshot doc)).
  change (collides (schemaDefaults doc)) with (collides doc).
  destruct (negb (truthy (Snapshot.title (Item.snapshot doc)))); [reflexivity|].
  destruct (existsb (collides doc) (mylistitems (db w))).
  - change (Item.userId (schemaDefaults doc)) with (Item.userId doc).
    change (Item.contentId (schemaDefaults doc)) with (Item.contentId doc).
    destruct (List.find _ _) as [e|]; [|reflexivity].
    destruct (bumpUserVersion_ok userId w) as (w' & Hb & _). rewrite Hb. eauto.
  - destruct (bumpUserVersion_ok userId
                (set_db w (set_mylistitems (db w)
                             (mylistitems (db w) ++ [schemaDefaults doc])%list)))
      as (w' & Hb & _).
    rewrite Hb. eauto.
Qed.

Lemma sameCatalogue_set_mylistitems (d : Db) (l : list Item.t) :
  sameCatalogue d (set_mylistitems d l).
Proof. by destruct d. Qed.

(** The insert changes the list of records by at most appending the
    document, and only when it returns that document. *)
Lemma insertDocument_effect (userId : string) (doc : Item.t) (w w' : World)
    (r : result Item.t) :
  insertDocument userId doc w = (r, w') ->
  sameCatalogue (db w) (db w')
  /\ match r with
     | Ok item =>
         truthy (Snapshot.title (Item.snapshot doc)) = true
         /\ ((mylistitems (db w') = mylistitems (db w)
              /\ List.find (sameEntry (Item.userId doc) (Item.contentId doc))
                   (mylistitems (db w)) = Some item)
             \/ (mylistitems (db w') = (mylistitems (db w) ++ [item])%list
                 /\ item = schemaDefaults doc
                 /\ existsb (collides doc) (mylistitems (db w)) = false))
     | Throw e =>
         mylistitems (db w') = mylistitems (db w)
         /\ httpStatusIn [500] e
     end.
Proof.
  intros Hrun. pose proof (insertDocument_cases userId doc w) as Hc.
  cbv zeta in Hc.
  destruct (truthy (Snapshot.title (Item.snapshot doc))); cbn [negb] in Hc.
  2:{ rewrite Hc in Hrun. injection Hrun as <- <-.
      split; [by destruct w as [[]] |]. split; [reflexivity | by left]. }
  destruct (existsb (collides doc) (mylistitems (db w))) eqn:Hex.
  - destruct (List.find _ _) as [e|] eqn:Hf.
    + destruct Hc as (w1 & Hi & Hb). rewrite Hi in Hrun.
      injection Hrun as <- <-.
      destruct (bumpUserVersion_ok userId w) as (w2 & Hb2 & Hd & _).
      rewrite Hb in Hb2. injection Hb2 as <-. rewrite Hd.
      split; [done|]. split; [done|]. by left.
    + rewrite Hc in Hrun. injection Hrun as <- <-.
      split; [done|]. split; [reflexivity | by left].
  - destruct Hc as (w1 & Hi & Hb). rewrite Hi in Hrun.
    injection Hrun as <- <-.
    destruct (bumpUserVersion_ok userId
                (set_db w (set_mylistitems (db w)
                             (mylistitems (db w) ++ [schemaDefaults doc])%list)))
      as (w2 & Hb2 & Hd & _).
    rewrite Hb in Hb2. injection Hb2 as <-. rewrite Hd.
    split; [by destruct w as [[]] |]. split; [done|]. by right.
Qed.

Lemma addToList_unfold (userId : string) (payload : AddPayload.t)
    (now : Date) (newId : ObjectId) (w : World) :
  addToList userId payload now newId w
  = match fst (prepareDocument userId payload now newId w) with
    | Ok doc => insertDocument userId doc w
    | Throw e => (Throw e, w)
    end.
Proof.
  unfold addToList, bind.
  pose proof (prepareDocument_world userId payload now newId w) as Hw.
  destruct (prepareDocument userId payload now newId w) as [[doc|e] w1];
    simpl in *; by subst.
Qed.

Lemma prepareDocument_Throw (userId : string) (payload : AddPayload.t)
    (now : Date) (newId : ObjectId) (w w' : World) (e : Error) :
  consistentObjectIds ->
  prepareDocument userId payload now newId w = (Throw e, w') ->
  httpStatusIn [400; 404] e.
Proof.
  intros Hcons. unfold_prepare.
  repeat (first [discriminate | step]); intros [= <- <-];
    try (cbn; tauto);
    exfalso;
    repeat match goal with
    | Hn : negb (ObjectId_isValid ?s) = false |- _ =>
        apply negb_false_iff, Hcons in Hn; destruct Hn as [? Hn]
    end; congruence.
Qed.

End Insert.

(** ** Lists of records under the unique index *)

Lemma find_app_none {A} (p : A -> bool) (l1 l2 : list A) :
  List.find p l1 = None -> List.find p (l1 ++ l2) = List.find p l2.
Proof.
  induction l1 as [|x l1 IH]; [done|]. simpl.
  destruct (p x); [discriminate | exact IH].
Qed.

Lemma find_none_iff {A} (p : A -> bool) (l : list A) :
  List.find p l = None <-> forallb (fun x => negb (p x)) l = true.
Proof.
  induction l as [|x l IH]; simpl; [done|].
  destruct (p x); simpl; [split; discriminate | exact IH].
Qed.

Lemma filter_find_none {A} (p : A -> bool) (l : list A) :
  List.find p l = None -> List.filter p l = [].
Proof.
  induction l as [|x l IH]; simpl; [done|].
  destruct (p x); [discriminate | exact IH].
Qed.

Lemma not_collides_find (doc : Item.t) (l : list Item.t) :
  existsb (collides doc) l = false ->
  List.find (sameEntry (Item.userId doc) (Item.contentId doc)) l = None.
Proof.
  induction l as [|x l IH]; simpl; [done|].
  intros [Hx Hl]%orb_false_elim. unfold collides in Hx.
  apply orb_false_elim in Hx as [_ ->]. by apply IH.
Qed.

Lemma sameEntry_iff (uid cid : ObjectId) (r : Item.t) :
  sameEntry uid cid r = true <-> (Item.userId r, Item.contentId r) = (uid, cid).
Proof.
  unfold sameEntry. rewrite andb_true_iff, !N.eqb_eq.
  split; [intros [-> ->]; reflexivity | intros [= -> ->]; done].
Qed.

(** Under the unique index at most one record matches a pair. *)
Lemma uniqueEntries_filter (uid cid : ObjectId) (l : list Item.t) (r : Item.t) :
  uniqueEntries l ->
  List.find (sameEntry uid cid) l = Some r ->
  List.filter (sameEntry uid cid) l = [r].
Proof.
  unfold uniqueEntries. induction l as [|x l IH]; simpl; [done|].
  intros Hnd. apply NoDup_cons in Hnd as [Hx Hnd].
  destruct (sameEntry uid cid x) eqn:Hs.
  - intros [= ->]. f_equal. apply filter_find_none.
    destruct (List.find (sameEntry uid cid) l) as [y|] eqn:Hf; [|done].
    exfalso. apply Hx. apply find_some in Hf as [Hin Hy].
    apply sameEntry_iff in Hs, Hy. rewrite Hs, <- Hy.
    apply list_elem_of_In, in_map_iff. eauto.
  - intros Hf. by apply IH.
Qed.

Lemma uniqueEntries_snoc (l : list Item.t) (doc : Item.t) :
  uniqueEntries l -> existsb (collides doc) l = false ->
  uniqueEntries (l ++ [doc]).
Proof.
  unfold uniqueEntries. intros Hnd Hex. rewrite map_app. simpl.
  apply NoDup_app. split; [done|]. split; [|apply NoDup_singleton].
  intros k Hk ->%list_elem_of_singleton.
  apply list_elem_of_In, in_map_iff in Hk as (x & Hkx & Hin).
  apply not_collides_find in Hex.
  apply (find_none _ _ Hex) in Hin.
  apply sameEntry_iff in Hkx. congruence.
Qed.

Lemma uniqueIds_snoc (l : list Item.t) (doc : Item.t) :
  uniqueIds l -> existsb (collides doc) l = false -> uniqueIds (l ++ [doc]).
Proof.
  unfold uniqueIds. intros Hnd Hex. rewrite map_app. simpl.
  apply NoDup_app. split; [done|]. split; [|apply NoDup_singleton].
  intros k Hk ->%list_elem_of_singleton.
  apply list_elem_of_In, in_map_iff in Hk as (x & Hkx & Hin).
  assert (collides doc x = false) as Hc.
  { destruct (collides doc x) eqn:Hc; [|done].
    assert (existsb (collides doc) l = true) as Ht
      by (apply existsb_exists; eauto).
    congruence. }
  unfold collides in Hc. apply orb_false_elim in Hc as [Hc _].
  apply N.eqb_neq in Hc. done.
Qed.

(** ** ObjectIds print injectively *)

Lemma append_last_inj (a b : string) (c d : ascii) :
  a +:+ String c EmptyString = b +:+ String d EmptyString -> a = b /\ c = d.
Proof.
  revert b. induction a as [|x a IH]; intros [|y b]; simpl; intros E.
  - by injection E.
  - injection E as _ E. by destruct b.
  - injection E as _ E. by destruct a.
  - injection E as -> E. apply IH in E as [-> ->]. done.
Qed.

Lemma hexchar_inj (k1 k2 : N) :
  (k1 < 16)%N -> (k2 < 16)%N -> hexchar k1 = hexchar k2 -> k1 = k2.
Proof.
  unfold hexchar. intros H1 H2 E. apply (f_equal N_of_ascii) in E.
  destruct (N.ltb_spec k1 10), (N.ltb_spec k2 10);
    rewrite !N_ascii_embedding in E by lia; lia.
Qed.

Lemma hex_inj (w : nat) (a b : N) :
  (a < 16 ^ N.of_nat w)%N -> (b < 16 ^ N.of_nat w)%N ->
  hex w a = hex w b -> a = b.
Proof.
  revert a b. induction w as [|w IH]; intros a b Ha Hb E.
  - simpl in Ha, Hb. lia.
  - cbn [hex] in E. apply append_last_inj in E as [E1 E2].
    rewrite Nat2N.inj_succ, N.pow_succ_r' in Ha, Hb.
    apply hexchar_inj in E2; [|by apply N.mod_lt..].
    apply IH in E1; [|nlia..].
    rewrite (N.div_mod a 16), (N.div_mod b 16) by lia. congruence.
Qed.

Lemma ObjectId_toString_inj (a b : ObjectId) :
  validObjectId a -> validObjectId b ->
  ObjectId_toString a = ObjectId_toString b -> a = b.
Proof.
  unfold validObjectId, ObjectId_toString. intros Ha Hb.
  apply hex_inj; change (16 ^ N.of_nat 24)%N with (2 ^ 96)%N; assumption.
Qed.

(** ** What addToList does to the store *)

(** addToList never removes, reorders or rewrites a record and never
    touches the catalogue: the list of records is as before, or as
    before with the returned record appended; a returned record is in
    the list afterwards; a throwing call leaves the list as it was. *)
Theorem addToList_store_effect `{Builtins} (userId : string)
    (payload : AddPayload.t) (now : Date) (newId : ObjectId) (w : World) :
  let '(r, w') := addToList userId payload now newId w in
  sameCatalogue (db w) (db w')
  /\ match r with
     | Ok item =>
         In item (mylistitems (db w'))
         /\ (mylistitems (db w') = mylistitems (db w)
             \/ mylistitems (db w') = (mylistitems (db w) ++ [item])%list)
     | Throw _ => mylistitems (db w') = mylistitems (db w)
     end.
Proof.
  rewrite addToList_unfold.
  destruct (fst (prepareDocument userId payload now newId w)) as [doc|e];
    [|done].
  destruct (insertDocument userId doc w) as [r w'] eqn:Hi.
  apply insertDocument_effect in Hi as [Hcat Hr]. split; [exact Hcat|].
  destruct r as [item|e]; [|tauto].
  destruct Hr as [_ [[Heq Hf] | (Heq & -> & _)]]; rewrite Heq.
  - split; [|by left]. by apply find_some in Hf as [Hin _].
  - split; [|by right]. apply in_or_app. right. by left.
Qed.

Lemma errcode_11000 {A} (errcode : option Z) (a b : A) :
  match EMongo errcode with
  | EMongo (Some 11000) => a
  | _ => b
  end = if bool_decide (errcode = Some 11000) then a else b.
Proof.
  destruct errcode as [z|]; [|reflexivity].
  destruct z as [|p|p]; try reflexivity.
  do 14 (destruct p as [p|p|]; try reflexivity).
Qed.

Section AddErrors.
Context `{Builtins} `{Driver}.

(** The checks under any driver: they throw an HttpError 400 or 404, or
    pass on the rejection of one of their reads. *)
Lemma prepareDocument_Throw_any (userId : string) (payload : AddPayload.t)
    (now : Date) (newId : ObjectId) (w w' : World) (e : Error) :
  consistentObjectIds ->
  prepareDocument userId payload now newId w = (Throw e, w') ->
  httpStatusIn [400; 404] e \/ driverError unguardedReads e.
Proof.
  intros Hcons.
  unfold prepareDocument, newObjectId, UserModel_exists, MovieModel_findById,
    TVShowModel_findById, EpisodeModel_findById, store_call, throwHttp, bind,
    throw, ret, driverError.
  cbn beta iota zeta.
  repeat (first [discriminate | step]); intros [= <- <-];
    first
      [ left; cbn; tauto
      | right; eexists _, _; split; [|split; [eassumption | reflexivity]];
        cbn; tauto
      | exfalso;
        repeat match goal with
        | Hn : negb (ObjectId_isValid ?s) = false |- _ =>
            apply negb_false_iff, Hcons in Hn; destruct Hn as [? Hn]
        end; congruence ].
Qed.

(** The insert under any driver: every failure of [create] is converted
    to an HttpError 500, and only a rejected re-fetch gets through. *)
Lemma insertDocument_Throw_any (userId : string) (doc : Item.t)
    (w w' : World) (e : Error) :
  insertDocument userId doc w = (Throw e, w') ->
  httpStatusIn [500] e \/ driverError unguardedReads e.
Proof.
  unfold insertDocument, try_catch, bind at 1.
  destruct (MyListItemModel_create doc w) as [[item|e0] w0] eqn:Hc.
  - destruct (bumpUserVersion_ok userId w0) as (w1 & Hb & _).
    unfold bind. rewrite Hb. discriminate.
  - assert (exists errcode, e0 = EMongo errcode) as [errcode ->].
    { revert Hc. unfold MyListItemModel_create, store_call, throw.
      destruct (rejects ItemCreate); [intros [= <- _]; eauto|].
      repeat (first [discriminate | step]); intros [= <- _]; eauto. }
    rewrite errcode_11000. case_bool_decide.
    + unfold bind, MyListItemModel_findOne, store_call, throwHttp, throw, ret.
      destruct (rejects ItemFindOne) as [c|] eqn:Hr.
      * intros [= <- _]. right. exists ItemFindOne, c. cbn. tauto.
      * destruct (List.find _ _); [|intros [= <- _]; left; cbn; tauto].
        unfold try_catch.
        destruct (bumpUserVersion_ok userId w0) as (w1 & Hb & _).
        rewrite Hb. discriminate.
    + unfold bind, logger_error, throwHttp, throw.
      intros [= <- _]. left. cbn. tauto.
Qed.

End AddErrors.

(** Every error addToList throws, under any driver, is an HttpError
    with status 400, 404 or 500, or the error of a rejected read outside
    the try block (exists, the three findById) or of the re-fetch in
    the catch handler, passed on as the driver raised it; provided the
    ObjectId constructor accepts what isValid accepts. A rejected
    [create] is among the HttpErrors: the catch handler converts it. *)
Theorem addToList_errors `{Builtins} `{Driver} (userId : string)
    (payload : AddPayload.t) (now : Date) (newId : ObjectId) (w w' : World)
    (e : Error) :
  consistentObjectIds ->
  addToList userId payload now newId w = (Throw e, w') ->
  httpStatusIn [400; 404; 500] e \/ driverError unguardedReads e.
Proof.
  intros Hcons. unfold addToList, bind.
  destruct (prepareDocument userId payload now newId w) as [[doc|e0] w0] eqn:Hp.
  - intros Hi. apply insertDocument_Throw_any in Hi as [Hi|Hi]; [left|by right].
    destruct e; cbn in *; tauto.
  - intros [= <- <-].
    apply (prepareDocument_Throw_any _ _ _ _ _ _ _ Hcons) in Hp as [Hp|Hp];
      [left|by right].
    destruct e0; cbn in *; tauto.
Qed.

Lemma Node_consistentObjectIds : @consistentObjectIds Node.builtins.
Proof. intros s Hs. by apply bool_decide_eq_true in Hs. Qed.

(** The user lookup is rejected: addToList throws the driver's error,
    which is no HttpError. *)
Lemma addToList_errors_witness :
  @addToList Node.builtins (rejecting UserExists None) Catalogue.userHex
    Catalogue.addMovie Sample.newYear 1%N Catalogue.world
  = (Throw (EMongo None), Catalogue.world)
  /\ (httpStatusIn [400; 404; 500] (EMongo None)
      \/ @driverError (rejecting UserExists None) unguardedReads (EMongo None)).
Proof.
  split; [vm_compute; reflexivity|].
  refine (@addToList_errors Node.builtins (rejecting UserExists None)
            Catalogue.userHex Catalogue.addMovie Sample.newYear 1%N
            Catalogue.world Catalogue.world _ Node_consistentObjectIds _).
  vm_compute. reflexivity.
Defined.

(** A request that passes the checks and collides with no stored record
    appends exactly one record, its document with the schema defaults
    filled in, and returns that record, whatever Redis does; with Redis
    reachable it also raises the user's version by one, and nothing
    else changes. *)
Theorem addToList_fresh `{Builtins} (userId : string) (payload : AddPayload.t)
    (now : Date) (newId : ObjectId) (w : World) (doc : Item.t) :
  prepareDocument userId payload now newId w = (Ok doc, w) ->
  truthy (Snapshot.title (Item.snapshot doc)) = true ->
  existsb (collides doc) (mylistitems (db w)) = false ->
  let item := schemaDefaults doc in
  let w1 := set_db w (set_mylistitems (db w) (mylistitems (db w) ++ [item])) in
  (exists w',
     addToList userId payload now newId w = (Ok item, w')
     /\ db w' = db w1 /\ pages (redis w') = pages (redis w))
  /\ (reachable w ->
      addToList userId payload now newId w
      = (Ok item, withVersion w1 userId (currentVersion w userId + 1))).
Proof.
  intros Hp Ht Hex item w1. rewrite addToList_unfold, Hp. cbn [fst].
  pose proof (insertDocument_cases userId doc w) as Hc. cbv zeta in Hc.
  rewrite Ht, Hex in Hc. cbn [negb] in Hc. destruct Hc as (w' & -> & Hb).
  split.
  - exists w'. split; [reflexivity|].
    destruct (bumpUserVersion_ok userId w1) as (w2 & Hb2 & Hd & Hpg).
    fold item in Hb. fold w1 in Hb. rewrite Hb in Hb2. injection Hb2 as <-.
    split; [exact Hd | exact Hpg].
  - intros Hr. rewrite bumpUserVersion_reachable in Hb by exact Hr.
    injection Hb as <-. reflexivity.
Qed.

(** A supplied snapshot without genres, added while the INCR of the
    version is rejected: the record stored and returned has the empty
    list of genres, and the version counter is as before. *)
Lemma addToList_fresh_witness :
  let payload :=
    AddPayload.mk Catalogue.movieHex movie None
      (Some (Snapshot.mk "Inception" None None None)) in
  let item :=
    Item.mk 1%N Catalogue.userOid movie Catalogue.movieOid None Sample.newYear
      (Snapshot.mk "Inception" None (Some []) None) available in
  let w := mkWorld Catalogue.database (mkRedis ∅ ∅ [true]) [] in
  exists w',
    @addToList Node.builtins answering Catalogue.userHex payload
      Sample.newYear 1%N w = (Ok item, w')
    /\ db w' = set_mylistitems Catalogue.database [item]
    /\ pages (redis w') = ∅.
Proof.
  refine (proj1 (@addToList_fresh Node.builtins Catalogue.userHex
                   (AddPayload.mk Catalogue.movieHex movie None
                      (Some (Snapshot.mk "Inception" None None None)))
                   Sample.newYear 1%N
                   (mkWorld Catalogue.database (mkRedis ∅ ∅ [true]) [])
                   (Item.mk 1%N Catalogue.userOid movie Catalogue.movieOid None
                      Sample.newYear (Snapshot.mk "Inception" None None None)
                      available) _ _ _));
    vm_compute; reflexivity.
Defined.

(** Adding twice is idempotent: after a successful add, the same
    request (whatever its time and generated id) returns the same
    record, leaves the list of records as it is, and the list holds
    exactly one record for the pair. *)
Theorem addToList_idempotent `{Builtins} (userId : string)
    (payload : AddPayload.t) (now now2 : Date) (newId newId2 : ObjectId)
    (w w1 : World) (item : Item.t) :
  uniqueEntries (mylistitems (db w)) ->
  addToList userId payload now newId w = (Ok item, w1) ->
  exists w2,
    addToList userId payload now2 newId2 w1 = (Ok item, w2)
    /\ mylistitems (db w2) = mylistitems (db w1)
    /\ List.filter (sameEntry (Item.userId item) (Item.contentId item))
         (mylistitems (db w2)) = [item].
Proof.
  intros Huniq. rewrite addToList_unfold.
  destruct (prepareDocument userId payload now newId w) as [[doc|e] w0] eqn:Hp;
    cbn [fst]; [|discriminate].
  pose proof (prepareDocument_world userId payload now newId w) as Hw.
  rewrite Hp in Hw. cbn in Hw. subst w0.
  intros Hi. apply insertDocument_effect in Hi as [Hcat [Ht Hcase]].
  (* the same request passes the checks in the new world *)
  assert (prepareDocument userId payload now2 newId2 w1
          = (Ok (reissued doc newId2 now2), w1)) as Hp2.
  { destruct Hcat as (Hu & Hm & Hs & He).
    destruct w as [[us ms ts es l] r lg], w1 as [[us1 ms1 ts1 es1 l1] r1 lg1].
    cbn in Hu, Hm, Hs, He. subst.
    eapply prepareDocument_replay. exact Hp. }
  rewrite addToList_unfold, Hp2. cbn [fst].
  pose proof (insertDocument_cases userId (reissued doc newId2 now2) w1) as Hc.
  cbv zeta in Hc. cbn [reissued Item.snapshot Item.userId Item.contentId] in Hc.
  rewrite Ht in Hc. cbn [negb] in Hc.
  assert (List.find (sameEntry (Item.userId doc) (Item.contentId doc))
            (mylistitems (db w1)) = Some item
          /\ List.filter (sameEntry (Item.userId doc) (Item.contentId doc))
               (mylistitems (db w1)) = [item]
          /\ sameEntry (Item.userId doc) (Item.contentId doc) item = true)
    as (Hfind & Hfilter & Hsame).
  { destruct Hcase as [[Heq Hf] | (Heq & -> & Hex)]; rewrite Heq.
    - split; [exact Hf|]. split; [by apply uniqueEntries_filter|].
      by apply find_some in Hf as [_ Hs].
    - apply not_collides_find in Hex.
      assert (sameEntry (Item.userId doc) (Item.contentId doc)
                (schemaDefaults doc) = true)
        as Hs by (unfold sameEntry; cbn [schemaDefaults Item.userId Item.contentId];
                  by rewrite !N.eqb_refl).
      split; [|split; [|exact Hs]].
      + rewrite find_app_none by exact Hex. simpl. by rewrite Hs.
      + rewrite List.filter_app, (filter_find_none _ _ Hex). simpl.
        by rewrite Hs. }
  assert (existsb (collides (reissued doc newId2 now2)) (mylistitems (db w1))
          = true) as Hex2.
  { apply existsb_exists. exists item. split.
    - by apply find_some in Hfind as [Hin _].
    - unfold collides. cbn [reissued Item.userId Item.contentId].
      rewrite Hsame. apply orb_true_r. }
  rewrite Hex2, Hfind in Hc. destruct Hc as (w2 & Hi2 & Hb).
  exists w2. split; [exact Hi2|].
  destruct (bumpUserVersion_ok userId w1) as (w2' & Hb' & Hd & _).
  rewrite Hb in Hb'. injection Hb' as <-. rewrite Hd.
  split; [reflexivity|].
  apply sameEntry_iff in Hsame. injection Hsame as -> ->. exact Hfilter.
Qed.

Lemma addToList_idempotent_witness :
  exists w2,
    @addToList Node.builtins answering Catalogue.userHex Catalogue.addMovie
      (Sample.newYear + 5) 2%N
      (withVersion
         (set_db Catalogue.world
            (set_mylistitems Catalogue.database [Catalogue.movieItem]))
         Catalogue.userHex 1)
    = (Ok Catalogue.movieItem, w2)
    /\ mylistitems (db w2) = [Catalogue.movieItem]
    /\ List.filter (sameEntry Catalogue.userOid Catalogue.movieOid)
         (mylistitems (db w2)) = [Catalogue.movieItem].
Proof.
  refine (@addToList_idempotent Node.builtins Catalogue.userHex
            Catalogue.addMovie Sample.newYear (Sample.newYear + 5) 1%N 2%N
            Catalogue.world _ Catalogue.movieItem _ _).
  - apply NoDup_nil_2.
  - vm_compute. reflexivity.
Defined.

(** addToList keeps both unique indexes of the collection: the pair
    (userId, contentId) and the primary key. *)
Theorem addToList_keeps_unique_indexes `{Builtins} (userId : string)
    (payload : AddPayload.t) (now : Date) (newId : ObjectId) (w : World) :
  uniqueEntries (mylistitems (db w)) ->
  uniqueIds (mylistitems (db w)) ->
  let w' := snd (addToList userId payload now newId w) in
  uniqueEntries (mylistitems (db w')) /\ uniqueIds (mylistitems (db w')).
Proof.
  intros Hue Hui. cbv zeta. rewrite addToList_unfold.
  destruct (fst (prepareDocument userId payload now newId w)) as [doc|e];
    [|done].
  destruct (insertDocument userId doc w) as [r w'] eqn:Hi. cbn [snd].
  apply insertDocument_effect in Hi as [_ Hr].
  destruct r as [item|e].
  - destruct Hr as [_ [[-> _] | (-> & -> & Hex)]]; [done|].
    change (collides doc) with (collides (schemaDefaults doc)) in Hex.
    split; [by apply uniqueEntries_snoc | by apply uniqueIds_snoc].
  - destruct Hr as [-> _]. done.
Qed.

(** The movie is in the list already and is added again, under a new
    [_id]: the duplicate is turned away and both indexes still hold. *)
Lemma addToList_keeps_unique_indexes_witness :
  let w' := snd (@addToList Node.builtins answering Catalogue.userHex
                   Catalogue.addMovie (Sample.newYear + 5) 2%N worldWithMovie) in
  mylistitems (db worldWithMovie) = [Catalogue.movieItem]
  /\ uniqueEntries (mylistitems (db w')) /\ uniqueIds (mylistitems (db w')).
Proof.
  split; [reflexivity|].
  refine (@addToList_keeps_unique_indexes Node.builtins Catalogue.userHex
            Catalogue.addMovie (Sample.newYear + 5) 2%N worldWithMovie _ _);
    apply NoDup_singleton.
Defined.

(** ** The checks on content and episode *)

(** A movie must not carry an episode: the request is refused with
    400 INVALID_PAYLOAD once user and movie are found, and nothing is
    written. *)
Theorem addToList_movie_with_episode `{Builtins} (userId : string)
    (payload : AddPayload.t) (now : Date) (newId : ObjectId) (w : World)
    (e : string) (uid cid eid : ObjectId) (m : Content.t) :
  AddPayload.contentType payload = movie ->
  AddPayload.episodeId payload = Some e -> truthy e = true ->
  ObjectId_isValid userId = true -> ObjectId_new userId = Some uid ->
  ObjectId_isValid (AddPayload.contentId payload) = true ->
  ObjectId_new (AddPayload.contentId payload) = Some cid ->
  ObjectId_isValid e = true -> ObjectId_new e = Some eid ->
  uid ∈ users (db w) ->
  movies (db w) !! cid = Some m ->
  addToList userId payload now newId w
  = (Throw (EHttp (mkHttpError 400 "episodeId provided for movie contentType"
                     (Some "INVALID_PAYLOAD"))), w).
Proof.
  intros Hct Hep Hte Hvu Hnu Hvc Hnc Hve Hne Hu Hm.
  rewrite addToList_unfold. unfold_prepare.
  rewrite Hvu, Hvc, Hep, Hte, Hve. cbn [negb]. rewrite Hnu, Hnc, Hne.
  rewrite (bool_decide_eq_true_2 _ Hu). cbn [negb]. rewrite Hct, Hm.
  reflexivity.
Qed.

Lemma addToList_movie_with_episode_witness :
  @addToList Node.builtins answering Catalogue.userHex Catalogue.addMovieWithEpisode
    Sample.newYear 1%N Catalogue.world
  = (Throw (EHttp (mkHttpError 400 "episodeId provided for movie contentType"
                     (Some "INVALID_PAYLOAD"))), Catalogue.world).
Proof.
  refine (@addToList_movie_with_episode Node.builtins Catalogue.userHex
            Catalogue.addMovieWithEpisode Sample.newYear 1%N Catalogue.world
            Catalogue.episodeHex Catalogue.userOid Catalogue.movieOid
            Catalogue.episodeOid Catalogue.inception _ _ _ _ _ _ _ _ _ _ _);
    vm_compute; reflexivity.
Defined.

(** An episode of a show: when the episode does not exist the request
    fails with 404 EPISODE_NOT_FOUND, and when it belongs to another
    show (or to none) with 400 EPISODE_MISMATCH; in both cases nothing
    is written. *)
Theorem addToList_episode_checks `{Builtins} (userId : string)
    (payload : AddPayload.t) (now : Date) (newId : ObjectId) (w : World)
    (e : string) (uid cid eid : ObjectId) (show : Content.t) :
  AddPayload.contentType payload = tvshow ->
  AddPayload.episodeId payload = Some e -> truthy e = true ->
  ObjectId_isValid userId = true -> ObjectId_new userId = Some uid ->
  ObjectId_isValid (AddPayload.contentId payload) = true ->
  ObjectId_new (AddPayload.contentId payload) = Some cid ->
  ObjectId_isValid e = true -> ObjectId_new e = Some eid ->
  validObjectId cid ->
  uid ∈ users (db w) ->
  tvshows (db w) !! cid = Some show ->
  match episodes (db w) !! eid with
  | None =>
      addToList userId payload now newId w
      = (Throw (EHttp (mkHttpError 404 "episode not found"
                         (Some "EPISODE_NOT_FOUND"))), w)
  | Some ep =>
      match Episode.showId ep with
      | Some sid =>
          validObjectId sid -> sid <> cid ->
          addToList userId payload now newId w
          = (Throw (EHttp (mkHttpError 400
                             "episode does not belong to provided tv show"
                             (Some "EPISODE_MISMATCH"))), w)
      | None =>
          addToList userId payload now newId w
          = (Throw (EHttp (mkHttpError 400
                             "episode does not belong to provided tv show"
                             (Some "EPISODE_MISMATCH"))), w)
      end
  end.
Proof.
  intros Hct Hep Hte Hvu Hnu Hvc Hnc Hve Hne Hvalid Hu Hs.
  rewrite addToList_unfold. unfold_prepare.
  rewrite Hvu, Hvc, Hep, Hte, Hve. cbn [negb]. rewrite Hnu, Hnc, Hne.
  rewrite (bool_decide_eq_true_2 _ Hu). cbn [negb]. rewrite Hct, Hs.
  destruct (episodes (db w) !! eid) as [ep|]; [|reflexivity].
  destruct (Episode.showId ep) as [sid|]; [|reflexivity].
  intros Hsid Hne'.
  destruct (String.eqb_spec (ObjectId_toString sid) (ObjectId_toString cid))
    as [E|_]; [|reflexivity].
  by apply ObjectId_toString_inj in E.
Qed.

Lemma addToList_episode_checks_witness :
  @addToList Node.builtins answering Catalogue.userHex Catalogue.addEpisode
    Sample.newYear 1%N Catalogue.world
  = (Throw (EHttp (mkHttpError 400
                     "episode does not belong to provided tv show"
                     (Some "EPISODE_MISMATCH"))), Catalogue.world).
Proof.
  exact (@addToList_episode_checks Node.builtins Catalogue.userHex
           Catalogue.addEpisode Sample.newYear 1%N Catalogue.world
           Catalogue.episodeHex Catalogue.userOid Catalogue.showOid
           Catalogue.episodeOid Catalogue.someShow
           ltac:(vm_compute; reflexivity) ltac:(vm_compute; reflexivity)
           ltac:(vm_compute; reflexivity) ltac:(vm_compute; reflexivity)
           ltac:(vm_compute; reflexivity) ltac:(vm_compute; reflexivity)
           ltac:(vm_compute; reflexivity) ltac:(vm_compute; reflexivity)
           ltac:(vm_compute; reflexivity) ltac:(vm_compute; reflexivity)
           ltac:(vm_compute; reflexivity) ltac:(vm_compute; reflexivity)
           ltac:(vm_compute; reflexivity) ltac:(vm_compute; discriminate)).
Defined.

(* ================================================================== *)
(** * Removing from the list *)
(* ================================================================== *)

Lemma deleteFirst_find_none {A} (p : A -> bool) (l : list A) :
  List.find p l = None -> deleteFirst p l = l.
Proof.
  induction l as [|x l IH]; simpl; [done|].
  destruct (p x); [discriminate|]. intros Hf. by rewrite IH.
Qed.

Lemma deleteFirst_snoc {A} (p : A -> bool) (l : list A) (x : A) :
  List.find p l = None -> p x = true -> deleteFirst p (l ++ [x]) = l.
Proof.
  induction l as [|y l IH]; simpl; [by intros _ ->|].
  destruct (p y); [discriminate|]. intros Hf Hx. by rewrite IH.
Qed.

Lemma deleteFirst_length {A} (p : A -> bool) (l : list A) (x : A) :
  List.find p l = Some x -> S (length (deleteFirst p l)) = length l.
Proof.
  induction l as [|y l IH]; simpl; [done|].
  destruct (p y); [done|]. intros Hf. simpl. f_equal. by apply IH.
Qed.

Lemma deleteFirst_sublist {A} (p : A -> bool) (l : list A) :
  sublist (deleteFirst p l) l.
Proof.
  induction l as [|y l IH]; simpl; [done|].
  destruct (p y); [by apply sublist_cons | by apply sublist_skip].
Qed.

Lemma deleteFirst_filter_unique (uid cid : ObjectId) (l : list Item.t) :
  uniqueEntries l ->
  List.filter (sameEntry uid cid) (deleteFirst (sameEntry uid cid) l) = [].
Proof.
  intros Hu. destruct (List.find (sameEntry uid cid) l) as [r|] eqn:Hf.
  - pose proof (uniqueEntries_filter uid cid l r Hu Hf) as Hfl.
    clear Hu. revert Hf Hfl. induction l as [|y l IH]; simpl; [done|].
    destruct (sameEntry uid cid y) eqn:Hy.
    + by intros _ [= _ ->].
    + simpl. rewrite Hy. exact IH.
  - rewrite deleteFirst_find_none by exact Hf. by apply filter_find_none.
Qed.

Section Remove.
Context `{Builtins}.

(** The three ways a removal can go. *)
Lemma removeFromList_cases (userId contentId : string) (w : World) :
  match ObjectId_new userId, ObjectId_new contentId with
  | Some uid, Some cid =>
      match List.find (sameEntry uid cid) (mylistitems (db w)) with
      | Some r =>
          exists w',
            removeFromList userId contentId w = (Ok (Some r), w')
            /\ bumpUserVersion userId
                 (set_db w (set_mylistitems (db w)
                              (deleteFirst (sameEntry uid cid)
                                 (mylistitems (db w)))))
               = (Ok tt, w')
      | None => removeFromList userId contentId w = (Ok None, w)
      end
  | _, _ => removeFromList userId contentId w = (Throw RemoveFailed, w)
  end.
Proof.
  unfold removeFromList, newObjectId, try_catch, bind,
    MyListItemModel_findOneAndDelete, store_call, throwHttp, throw, ret.
  answered.
  destruct (ObjectId_new userId) as [uid|]; [|reflexivity].
  destruct (ObjectId_new contentId) as [cid|]; [|reflexivity].
  destruct (List.find (sameEntry uid cid) (mylistitems (db w))) as [r|];
    [|reflexivity].
  match goal with
  | |- context [bumpUserVersion userId ?w1] =>
      destruct (bumpUserVersion_ok userId w1) as (w' & Hb & _)
  end.
  rewrite Hb. eauto.
Qed.

End Remove.

(** Removing a pair that has no record is a normal negative result:
    the service returns nothing, the controller answers 404 "Item not
    found", and the world (records, version counter, cached pages, log)
    is exactly as before. *)
Theorem removeFromList_not_found `{Builtins} (userId contentId : string)
    (uid cid : ObjectId) (w : World) :
  ObjectId_new userId = Some uid ->
  ObjectId_new contentId = Some cid ->
  List.find (sameEntry uid cid) (mylistitems (db w)) = None ->
  removeFromList userId contentId w = (Ok None, w)
  /\ respond (removeItem userId contentId) w
     = (mkResponse 404 (BodyMessage false "Item not found"), w).
Proof.
  intros Hu Hc Hf. pose proof (removeFromList_cases userId contentId w) as Hr.
  rewrite Hu, Hc, Hf in Hr. split; [exact Hr|].
  unfold respond, removeItem, bind. rewrite Hr. reflexivity.
Qed.

Lemma removeFromList_not_found_witness :
  @removeFromList Node.builtins answering Catalogue.userHex Catalogue.showHex
    worldWithMovie = (Ok None, worldWithMovie).
Proof.
  refine (proj1 (@removeFromList_not_found Node.builtins Catalogue.userHex
                   Catalogue.showHex Catalogue.userOid Catalogue.showOid
                   worldWithMovie _ _ _)); vm_compute; reflexivity.
Defined.

(** Removing a pair that has a record deletes the first matching record
    and nothing else and returns it, whatever Redis does; with Redis
    reachable it also raises the user's version by one, and nothing
    else changes. Under the unique index no record of the pair is
    left. *)
Theorem removeFromList_found `{Builtins} (userId contentId : string)
    (uid cid : ObjectId) (w : World) (r : Item.t) :
  ObjectId_new userId = Some uid ->
  ObjectId_new contentId = Some cid ->
  List.find (sameEntry uid cid) (mylistitems (db w)) = Some r ->
  let rest := deleteFirst (sameEntry uid cid) (mylistitems (db w)) in
  (exists w',
     removeFromList userId contentId w = (Ok (Some r), w')
     /\ db w' = set_mylistitems (db w) rest
     /\ pages (redis w') = pages (redis w))
  /\ (reachable w ->
      removeFromList userId contentId w
      = (Ok (Some r),
         withVersion (set_db w (set_mylistitems (db w) rest)) userId
           (currentVersion w userId + 1)))
  /\ S (length rest) = length (mylistitems (db w))
  /\ sublist rest (mylistitems (db w))
  /\ (uniqueEntries (mylistitems (db w)) ->
      List.filter (sameEntry uid cid) rest = []).
Proof.
  intros Hu Hc Hf rest.
  pose proof (removeFromList_cases userId contentId w) as Hcases.
  rewrite Hu, Hc, Hf in Hcases. destruct Hcases as (w' & -> & Hb).
  fold rest in Hb.
  split.
  { exists w'. split; [reflexivity|].
    destruct (bumpUserVersion_ok userId
                (set_db w (set_mylistitems (db w) rest)))
      as (w2 & Hb2 & Hd & Hpg).
    rewrite Hb in Hb2. injection Hb2 as <-. split; [exact Hd | exact Hpg]. }
  split.
  { intros Hr. rewrite bumpUserVersion_reachable in Hb by exact Hr.
    injection Hb as <-. reflexivity. }
  split; [by eapply deleteFirst_length|].
  split; [apply deleteFirst_sublist|]. apply deleteFirst_filter_unique.
Qed.

(** The movie is removed while the INCR of the version is rejected: the
    record is deleted and returned all the same. *)
Lemma removeFromList_found_witness :
  let w := mkWorld (db worldWithMovie)
             (mkRedis (counters (redis worldWithMovie)) ∅ [true]) [] in
  exists w',
    @removeFromList Node.builtins answering Catalogue.userHex
      Catalogue.movieHex w = (Ok (Some Catalogue.movieItem), w')
    /\ db w' = set_mylistitems (db w) []
    /\ pages (redis w') = ∅.
Proof.
  refine (proj1 (@removeFromList_found Node.builtins Catalogue.userHex
                   Catalogue.movieHex Catalogue.userOid Catalogue.movieOid
                   (mkWorld (db worldWithMovie)
                      (mkRedis (counters (redis worldWithMovie)) ∅ [true]) [])
                   Catalogue.movieItem _ _ _));
    vm_compute; reflexivity.
Defined.

(** An identifier the ObjectId constructor rejects makes removeFromList
    fail with HttpError 500 "failed to remove item from list" (not a
    400), which the controller passes on as a 500 response; nothing is
    written. *)
Theorem removeFromList_malformed_id `{Builtins} (userId contentId : string)
    (w : World) :
  ObjectId_new userId = None \/ ObjectId_new contentId = None ->
  removeFromList userId contentId w = (Throw RemoveFailed, w)
  /\ respond (removeItem userId contentId) w
     = (mkResponse 500
          (BodyError (Some "INTERNAL_ERROR") "failed to remove item from list"),
        w).
Proof.
  intros Hbad. pose proof (removeFromList_cases userId contentId w) as Hr.
  assert (removeFromList userId contentId w = (Throw RemoveFailed, w)) as E.
  { destruct Hbad as [E|E]; rewrite E in Hr; [exact Hr|].
    by destruct (ObjectId_new userId). }
  split; [exact E|]. unfold respond, removeItem, bind. rewrite E. reflexivity.
Qed.

Lemma removeFromList_malformed_id_witness :
  @removeFromList Node.builtins answering Catalogue.userHex "not-an-id" worldWithMovie
  = (Throw RemoveFailed, worldWithMovie).
Proof.
  refine (proj1 (@removeFromList_malformed_id Node.builtins Catalogue.userHex
                   "not-an-id" worldWithMovie _)).
  right. vm_compute. reflexivity.
Defined.

(** Insert and delete compose to the identity on the list of records:
    removing what a fresh add has just stored returns that record and
    restores the list as it was before the add. *)
Theorem add_then_remove `{Builtins} (userId : string) (payload : AddPayload.t)
    (now : Date) (newId : ObjectId) (w w1 : World) (doc item : Item.t) :
  existsb (collides doc) (mylistitems (db w)) = false ->
  prepareDocument userId payload now newId w = (Ok doc, w) ->
  addToList userId payload now newId w = (Ok item, w1) ->
  exists w2,
    removeFromList userId (AddPayload.contentId payload) w1
    = (Ok (Some item), w2)
    /\ mylistitems (db w2) = mylistitems (db w).
Proof.
  intros Hex Hp. rewrite addToList_unfold, Hp. cbn [fst]. intros Hi.
  apply prepareDocument_Ok in Hp as (_ & Hu & Hc & _).
  apply insertDocument_effect in Hi as [_ [_ Hcase]].
  apply not_collides_find in Hex as Hnone.
  assert (mylistitems (db w1) = (mylistitems (db w) ++ [item])%list
          /\ item = schemaDefaults doc) as [Hl Hitem].
  { destruct Hcase as [[_ Hf] | (Hl & Hitem & _)]; [congruence | done]. }
  assert (sameEntry (Item.userId doc) (Item.contentId doc) item = true) as Hs
    by (subst item; unfold sameEntry;
        cbn [schemaDefaults Item.userId Item.contentId];
        by rewrite !N.eqb_refl).
  pose proof (removeFromList_cases userId (AddPayload.contentId payload) w1)
    as Hr.
  rewrite Hu, Hc, Hl, (find_app_none _ _ _ Hnone) in Hr. simpl in Hr.
  rewrite Hs in Hr. destruct Hr as (w2 & Hrem & Hb).
  exists w2. split; [exact Hrem|].
  match type of Hb with
  | bumpUserVersion _ ?w0 = _ =>
      destruct (bumpUserVersion_ok userId w0) as (w2' & Hb' & Hd & _)
  end.
  rewrite Hb in Hb'. injection Hb' as <-. rewrite Hd.
  destruct w1 as [[] ? ?]. cbn. by apply deleteFirst_snoc.
Qed.

Lemma add_then_remove_witness :
  exists w2,
    @removeFromList Node.builtins answering Catalogue.userHex Catalogue.movieHex
      worldWithMovie = (Ok (Some Catalogue.movieItem), w2)
    /\ mylistitems (db w2) = [].
Proof.
  refine (@add_then_remove Node.builtins Catalogue.userHex Catalogue.addMovie
            Sample.newYear 1%N Catalogue.world worldWithMovie
            Catalogue.movieItem Catalogue.movieItem _ _ _);
    vm_compute; reflexivity.
Defined.

(* ================================================================== *)
(** * Listing: one call *)
(* ================================================================== *)

Lemma pretty_N_go_truthy (x : N) (s : string) :
  truthy s = true -> truthy (pretty_N_go x s) = true.
Proof.
  revert s. induction (N.lt_wf_0 x) as [x _ IH]; intros s Hs.
  assert (x = 0 \/ 0 < x)%N as [->|Hx] by lia.
  - by rewrite pretty_N_go_0.
  - rewrite pretty_N_go_step by done. apply IH; [by apply N.div_lt|done].
Qed.

(** A version counter never prints as the empty string. *)
Lemma pretty_Z_truthy (z : Z) : truthy (pretty z) = true.
Proof.
  destruct z as [|p|p]; [reflexivity| |reflexivity].
  unfold pretty, pretty_Z, pretty, pretty_positive, pretty, pretty_N.
  destruct (decide (N.pos p = 0%N)); [done|].
  rewrite pretty_N_go_step by lia. by apply pretty_N_go_truthy.
Qed.

Lemma versionRead_present (cs : gmap string Z) (userId : string) (v : Z) :
  cs !! userVersionKey userId = Some v -> versionRead cs userId = cs.
Proof. intros Hv. unfold versionRead. rewrite Hv. by apply insert_id. Qed.

Lemma bind_Ok {A B} (m : M A) (k : A -> M B) (w w' : World) (a : A) :
  m w = (Ok a, w') -> (x <- m ;; k x) w = k a w'.
Proof. unfold bind. by intros ->. Qed.

Lemma bind_Throw {A B} (m : M A) (k : A -> M B) (w w' : World) (e : Error) :
  m w = (Throw e, w') -> (x <- m ;; k x) w = (Throw e, w').
Proof. unfold bind. by intros ->. Qed.

Section ListOne.
Context `{Builtins} `{Config}.

(** One call of getList with Redis reachable, in closed form: a cached
    page is returned as it is; otherwise the cursor is decoded, the
    store is read and the page is cached. *)
Lemma getListWith_reachable (limit : Z) (userId : string)
    (opts : ListOptions.t) (includeTotal : bool) (uid : ObjectId) (d : Db)
    (cs : gmap string Z) (ps : gmap string Payload) (lg : list string) :
  ObjectId_isValid userId = true ->
  ObjectId_new userId = Some uid ->
  let version := default 0 (cs !! userVersionKey userId) in
  let key := pageCacheKey userId (pretty version) limit (ListOptions.cursor opts) in
  let cs' := versionRead cs userId in
  getListWith limit userId opts includeTotal (mkWorld d (mkRedis cs ps []) lg)
  = match ps !! key with
    | Some page => (Ok page, mkWorld d (mkRedis cs' ps []) lg)
    | None =>
        match cursorPosition (ListOptions.cursor opts) with
        | None =>
            (Throw InvalidCursor,
             mkWorld d (mkRedis cs' ps []) (lg ++ ["cursor decode error:"]))
        | Some position =>
            match storeRead d uid limit (ListOptions.contentType opts) position
                    includeTotal with
            | Ok payload =>
                (Ok payload,
                 mkWorld d (mkRedis cs' (<[key := payload]> ps) []) lg)
            | Throw e => (Throw e, mkWorld d (mkRedis cs' ps []) lg)
            end
        end
    end.
Proof.
  intros Hv Hn version key cs'.
  unfold getListWith. rewrite Hv. cbn [negb].
  (* the version *)
  erewrite bind_Ok by reflexivity.
  assert ((match pretty <$> cs !! userVersionKey userId with
           | Some v => if truthy v then ret v
                       else redis_setnx (userVersionKey userId) 0 ;;; ret "0"
           | None => redis_setnx (userVersionKey userId) 0 ;;; ret "0"
           end) (mkWorld d (mkRedis cs ps []) lg)
          = (Ok (pretty version), mkWorld d (mkRedis cs' ps []) lg)) as Hver.
  { subst version cs'. unfold versionRead.
    destruct (cs !! userVersionKey userId) as [v|] eqn:Hcs;
      cbn [fmap option_fmap option_map default].
    - rewrite pretty_Z_truthy. rewrite insert_id by done. reflexivity.
    - unfold bind, redis_setnx, redis_cmd, ret, set_redis.
      cbn [redis faults counters pages db log]. rewrite Hcs. reflexivity. }
  erewrite bind_Ok by exact Hver. clear Hver.
  (* the page cache *)
  erewrite bind_Ok by reflexivity.
  unfold set_redis. cbn [pages redis db log counters faults]. fold key.
  destruct (ps !! key) as [page|] eqn:Hmiss; [reflexivity|].
  (* the store *)
  unfold newObjectId. rewrite Hn. erewrite bind_Ok by reflexivity.
  assert (forall (k : option (Date * ObjectId) -> M Payload) w,
    (position <- match ListOptions.cursor opts with
                 | Some c => if truthy c
                             then k0 <- decodeCursorSafe c ;; ret (Some k0)
                             else ret None
                 | None => ret None
                 end ;; k position) w
    = match cursorPosition (ListOptions.cursor opts) with
      | Some position => k position w
      | None => (Throw InvalidCursor, logged "cursor decode error:" w)
      end) as Hpos.
  { intros k w. unfold bind, ret, cursorPosition.
    destruct (ListOptions.cursor opts) as [c|]; [|reflexivity].
    destruct (truthy c); [|reflexivity].
    rewrite decodeCursorSafe_accepted.
    destruct (acceptedCursor c); reflexivity. }
  rewrite Hpos. clear Hpos.
  destruct (cursorPosition (ListOptions.cursor opts)) as [position|];
    [|reflexivity].
  erewrite bind_Ok by reflexivity.
  unfold storeRead, cutPage, matching. cbn [db].
  set (docs := Mongo_limit (limit + 1) _).
  destruct (Z.of_nat (length docs) >? limit).
  - destruct (arrayGet docs (limit - 1)) as [last|]; [|reflexivity].
    destruct includeTotal;
      unfold bind, ret, try_catch, redis_set_EX_NX, redis_cmd, set_redis,
        MyListItemModel_countDocuments, store_call, countOf;
      answered;
      cbn [redis faults counters pages db log fst snd];
      rewrite Hmiss; reflexivity.
  - destruct includeTotal;
      unfold bind, ret, try_catch, redis_set_EX_NX, redis_cmd, set_redis,
        MyListItemModel_countDocuments, store_call, countOf;
      answered;
      cbn [redis faults counters pages db log fst snd];
      rewrite Hmiss; reflexivity.
Qed.

End ListOne.

Section ListAny.
Context `{Builtins} `{Config} `{Driver}.

(** One call of getList with Redis reachable and any driver, in closed
    form. *)
Lemma getListWith_reachable_any (limit : Z) (userId : string)
    (opts : ListOptions.t) (includeTotal : bool) (uid : ObjectId) (d : Db)
    (cs : gmap string Z) (ps : gmap string Payload) (lg : list string) :
  ObjectId_isValid userId = true ->
  ObjectId_new userId = Some uid ->
  let version := default 0 (cs !! userVersionKey userId) in
  let key := pageCacheKey userId (pretty version) limit (ListOptions.cursor opts) in
  let after := mkWorld d (mkRedis (versionRead cs userId) ps []) lg in
  getListWith limit userId opts includeTotal (mkWorld d (mkRedis cs ps []) lg)
  = match ps !! key with
    | Some page => (Ok page, after)
    | None =>
        match cursorPosition (ListOptions.cursor opts) with
        | None => (Throw InvalidCursor, logged "cursor decode error:" after)
        | Some position =>
            match rejects ItemFind with
            | Some errcode => (Throw (EMongo errcode), after)
            | None =>
                match storeRead d uid limit (ListOptions.contentType opts)
                        position includeTotal with
                | Ok payload =>
                    match (if includeTotal then rejects ItemCountDocuments
                           else None) with
                    | Some errcode => (Throw (EMongo errcode), after)
                    | None =>
                        (Ok payload,
                         mkWorld d
                           (mkRedis (versionRead cs userId)
                              (<[key := payload]> ps) []) lg)
                    end
                | Throw e => (Throw e, after)
                end
            end
        end
    end.
Proof.
  intros Hv Hn version key after.
  unfold getListWith. rewrite Hv. cbn [negb].
  erewrite bind_Ok by reflexivity.
  assert ((match pretty <$> cs !! userVersionKey userId with
           | Some v => if truthy v then ret v
                       else redis_setnx (userVersionKey userId) 0 ;;; ret "0"
           | None => redis_setnx (userVersionKey userId) 0 ;;; ret "0"
           end) (mkWorld d (mkRedis cs ps []) lg)
          = (Ok (pretty version), after)) as Hver.
  { subst version after. unfold versionRead.
    destruct (cs !! userVersionKey userId) as [v|] eqn:Hcs;
      cbn [fmap option_fmap option_map default].
    - rewrite pretty_Z_truthy. rewrite insert_id by done. reflexivity.
    - unfold bind, redis_setnx, redis_cmd, ret, set_redis.
      cbn [redis faults counters pages db log]. rewrite Hcs. reflexivity. }
  erewrite bind_Ok by exact Hver. clear Hver.
  erewrite bind_Ok by reflexivity.
  unfold set_redis. subst after. cbn [pages redis db log counters faults].
  fold key.
  destruct (ps !! key) as [page|] eqn:Hmiss; [reflexivity|].
  unfold newObjectId. rewrite Hn. erewrite bind_Ok by reflexivity.
  assert (forall (k : option (Date * ObjectId) -> M Payload) w,
    (position <- match ListOptions.cursor opts with
                 | Some c => if truthy c
                             then k0 <- decodeCursorSafe c ;; ret (Some k0)
                             else ret None
                 | None => ret None
                 end ;; k position) w
    = match cursorPosition (ListOptions.cursor opts) with
      | Some position => k position w
      | None => (Throw InvalidCursor, logged "cursor decode error:" w)
      end) as Hpos.
  { intros k w. unfold bind, ret, cursorPosition.
    destruct (ListOptions.cursor opts) as [c|]; [|reflexivity].
    destruct (truthy c); [|reflexivity].
    rewrite decodeCursorSafe_accepted.
    destruct (acceptedCursor c); reflexivity. }
  rewrite Hpos. clear Hpos.
  destruct (cursorPosition (ListOptions.cursor opts)) as [position|];
    [|reflexivity].
  unfold MyListItemModel_find, MyListItemModel_countDocuments, store_call.
  destruct (rejects ItemFind) as [errcode|]; [reflexivity|].
  erewrite bind_Ok by reflexivity.
  unfold storeRead, cutPage, matching. cbn [db].
  set (docs := Mongo_limit (limit + 1) _).
  destruct (Z.of_nat (length docs) >? limit).
  - destruct (arrayGet docs (limit - 1)) as [last|]; [|reflexivity].
    destruct includeTotal;
      [destruct (rejects ItemCountDocuments); [reflexivity|]|];
      unfold bind, ret, try_catch, redis_set_EX_NX, redis_cmd, set_redis, countOf;
      cbn [redis faults counters pages db log fst snd];
      rewrite Hmiss; reflexivity.
  - destruct includeTotal;
      [destruct (rejects ItemCountDocuments); [reflexivity|]|];
      unfold bind, ret, try_catch, redis_set_EX_NX, redis_cmd, set_redis, countOf;
      cbn [redis faults counters pages db log fst snd];
      rewrite Hmiss; reflexivity.
Qed.

End ListAny.

(** ** getList never writes to the database *)

Lemma keepsDb_ret {A} (a : A) : keepsDb (ret a).
Proof. by intros w. Qed.

Lemma keepsDb_throw {A} (e : Error) : keepsDb (@throw A e).
Proof. by intros w. Qed.

Lemma keepsDb_bind {A B} (m : M A) (k : A -> M B) :
  keepsDb m -> (forall a, keepsDb (k a)) -> keepsDb (x <- m ;; k x).
Proof.
  intros Hm Hk w. unfold bind. specialize (Hm w).
  destruct (m w) as [[a|e] w1]; cbn in *; [|done].
  by rewrite Hk.
Qed.

Lemma keepsDb_try_catch {A} (m : M A) (h : Error -> M A) :
  keepsDb m -> (forall e, keepsDb (h e)) -> keepsDb (try_catch m h).
Proof.
  intros Hm Hh w. unfold try_catch. specialize (Hm w).
  destruct (m w) as [[a|e] w1]; cbn in *; [done|].
  by rewrite Hh.
Qed.

Lemma keepsDb_redis_cmd {A} (run : Redis -> A * Redis) : keepsDb (redis_cmd run).
Proof.
  intros [d [cs ps fs] lg]. unfold redis_cmd.
  cbn [redis faults counters pages].
  destruct fs as [|[] fs]; [|done|]; by destruct (run _).
Qed.

Lemma keepsDb_logger_error (msg : string) : keepsDb (logger_error msg).
Proof. by intros w. Qed.

Lemma keepsDb_decodeCursorSafe `{Builtins} (c : string) :
  keepsDb (decodeCursorSafe c).
Proof.
  intros w. rewrite decodeCursorSafe_accepted. by destruct (acceptedCursor c).
Qed.

Lemma keepsDb_bumpUserVersion `{Builtins} (userId : string) :
  keepsDb (bumpUserVersion userId).
Proof.
  intros w. destruct (bumpUserVersion_ok userId w) as (w' & -> & Hd & _).
  exact Hd.
Qed.

(** getList only reads the membership store: whatever Redis does and
    whatever the call returns or throws, the database is as before. *)
Theorem getList_keeps_database `{Builtins} `{Config} (limit : Z)
    (userId : string) (opts : ListOptions.t) (includeTotal : bool) (w : World) :
  db (snd (getListWith limit userId opts includeTotal w)) = db w.
Proof.
  revert w. change (keepsDb (getListWith limit userId opts includeTotal)).
  unfold getListWith.
  destruct (negb (ObjectId_isValid userId)); [apply keepsDb_throw|].
  apply keepsDb_bind; [apply keepsDb_redis_cmd|]. intros got.
  apply keepsDb_bind.
  { destruct got as [v|]; [destruct (truthy v)|];
      first [apply keepsDb_ret
            | apply keepsDb_bind;
              [apply keepsDb_redis_cmd | intros; apply keepsDb_ret]]. }
  intros version. apply keepsDb_bind.
  { apply keepsDb_try_catch; [apply keepsDb_redis_cmd|].
    intros e. apply keepsDb_bind;
      [apply keepsDb_logger_error | intros; apply keepsDb_ret]. }
  intros [page|]; [apply keepsDb_ret|].
  apply keepsDb_bind.
  { unfold newObjectId. destruct (ObjectId_new userId);
      [apply keepsDb_ret | apply keepsDb_throw]. }
  intros uid. apply keepsDb_bind.
  { destruct (ListOptions.cursor opts) as [c|]; [|apply keepsDb_ret].
    destruct (truthy c); [|apply keepsDb_ret].
    apply keepsDb_bind; [apply keepsDb_decodeCursorSafe|].
    intros; apply keepsDb_ret. }
  intros position. apply keepsDb_bind; [by intros w|]. intros docs.
  apply keepsDb_bind.
  { destruct (_ >? _); [|apply keepsDb_ret].
    destruct (arrayGet _ _); [apply keepsDb_ret | apply keepsDb_throw]. }
  intros page. apply keepsDb_bind.
  { destruct includeTotal; [|apply keepsDb_ret].
    apply keepsDb_bind; [by intros w | intros; apply keepsDb_ret]. }
  intros total. apply keepsDb_bind; [|intros; apply keepsDb_ret].
  apply keepsDb_try_catch; [apply keepsDb_redis_cmd|].
  intros e. apply keepsDb_logger_error.
Qed.

(** ** What one call of getList returns *)

Ltac tidy :=
  unfold set_redis; cbv beta iota zeta;
  cbn [redis faults counters pages db log fst snd].

Section ListFacts.
Context `{Builtins} `{Config}.

Lemma getListWith_version_read (userId : string) (d : Db)
    (cs : gmap string Z) (ps : gmap string Payload) (fs : list bool)
    (lg : list string) (k : string -> M Payload) (v : Z) :
  cs !! userVersionKey userId = Some v ->
  (got <- redis_get (userVersionKey userId) ;;
   version <- match got with
              | Some v => if truthy v then ret v
                          else redis_setnx (userVersionKey userId) 0 ;;; ret "0"
              | None => redis_setnx (userVersionKey userId) 0 ;;; ret "0"
              end ;;
   k version) (mkWorld d (mkRedis cs ps (false :: fs)) lg)
  = k (pretty v) (mkWorld d (mkRedis cs ps fs) lg).
Proof.
  intros Hv. erewrite bind_Ok by reflexivity.
  tidy. rewrite Hv. cbn [fmap option_fmap option_map].
  rewrite pretty_Z_truthy. erewrite bind_Ok by reflexivity. reflexivity.
Qed.

End ListFacts.

(** A user id that is not a valid ObjectId: getList throws a plain
    Error, which the error handler turns into a 500 response carrying
    the message, while addToList refuses the same id with a 400
    INVALID_USER_ID. Neither writes anything. *)
Theorem invalid_userId_500_on_list_400_on_add `{Builtins} `{Config}
    (limit : Z) (userId : string) (opts : ListOptions.t) (includeTotal : bool)
    (payload : AddPayload.t) (now : Date) (newId : ObjectId) (w : World) :
  ObjectId_isValid userId = false ->
  getListWith limit userId opts includeTotal w
  = (Throw (EPlain "invalid userId"), w)
  /\ errorHandler (EPlain "invalid userId")
     = mkResponse 500 (BodyError None "invalid userId")
  /\ addToList userId payload now newId w
     = (Throw (EHttp (mkHttpError 400 "invalid userId" (Some "INVALID_USER_ID"))),
        w).
Proof.
  intros Hv. split; [|split; [reflexivity|]].
  - unfold getListWith. by rewrite Hv.
  - rewrite addToList_unfold. unfold prepareDocument. by rewrite Hv.
Qed.

Lemma invalid_userId_500_on_list_400_on_add_witness :
  @getListWith Node.builtins defaultConfig answering 20 "me" Listing.firstPage false
    Listing.world
  = (Throw (EPlain "invalid userId"), Listing.world).
Proof.
  refine (proj1 (@invalid_userId_500_on_list_400_on_add Node.builtins
                   defaultConfig 20 "me" Listing.firstPage false
                   Catalogue.addMovie Sample.newYear 1%N Listing.world _)).
  vm_compute. reflexivity.
Defined.

(** The version commands of getList are not guarded: a rejected GET of
    the version key, or a rejected SETNX when the key is absent, makes
    the call throw the Redis client's error before the page cache or
    the store is consulted. The error handler answers it with status
    500 and the error's own message (its fallback text when the message
    is empty). *)
Theorem getList_version_failure_propagates `{Builtins} `{Config} (limit : Z)
    (userId : string) (opts : ListOptions.t) (includeTotal : bool) (d : Db)
    (cs : gmap string Z) (ps : gmap string Payload) (fs : list bool)
    (lg : list string) :
  ObjectId_isValid userId = true ->
  getListWith limit userId opts includeTotal
    (mkWorld d (mkRedis cs ps (true :: fs)) lg)
  = (Throw ERedis, mkWorld d (mkRedis cs ps fs) lg)
  /\ (cs !! userVersionKey userId = None ->
      getListWith limit userId opts includeTotal
        (mkWorld d (mkRedis cs ps (false :: true :: fs)) lg)
      = (Throw ERedis, mkWorld d (mkRedis cs ps fs) lg))
  /\ errorHandler ERedis
     = mkResponse 500
         (BodyError None
            (if truthy RedisError_message then RedisError_message
             else "Internal Server Error")).
Proof.
  intros Hv. unfold getListWith. rewrite Hv. cbn [negb].
  split; [reflexivity|]. split; [|reflexivity].
  intros Hnone. erewrite bind_Ok by reflexivity.
  tidy. rewrite Hnone. reflexivity.
Qed.

Lemma getList_version_failure_propagates_witness :
  @getListWith Node.builtins defaultConfig answering 20 Catalogue.userHex
    Listing.firstPage false
    (mkWorld Listing.database (mkRedis ∅ ∅ [true]) [])
  = (Throw ERedis, Listing.world)
  /\ @errorHandler Node.builtins ERedis
     = mkResponse 500 (BodyError None "Connection is closed.").
Proof.
  refine (let p := @getList_version_failure_propagates Node.builtins
                     defaultConfig 20 Catalogue.userHex Listing.firstPage false
                     Listing.database ∅ ∅ [] [] _ in
          conj (proj1 p) (proj2 (proj2 p))).
  vm_compute. reflexivity.
Defined.

(** The page-cache commands are guarded: when the GET of the page key
    and the later SET are both rejected, getList still returns the page
    read from the store, whatever the cache holds; the two failures are
    logged and Redis is left as it was. *)
Theorem getList_page_cache_failures_swallowed `{Builtins} `{Config}
    (limit : Z) (userId : string) (opts : ListOptions.t) (includeTotal : bool)
    (uid : ObjectId) (d : Db) (cs : gmap string Z) (ps : gmap string Payload)
    (fs : list bool) (lg : list string) (v : Z)
    (position : option (Date * ObjectId)) (payload : Payload) :
  ObjectId_isValid userId = true ->
  ObjectId_new userId = Some uid ->
  cs !! userVersionKey userId = Some v ->
  cursorPosition (ListOptions.cursor opts) = Some position ->
  storeRead d uid limit (ListOptions.contentType opts) position includeTotal
  = Ok payload ->
  getListWith limit userId opts includeTotal
    (mkWorld d (mkRedis cs ps (false :: true :: true :: fs)) lg)
  = (Ok payload,
     mkWorld d (mkRedis cs ps fs)
       (lg ++ ["redis get failed"; "redis set failed"])).
Proof.
  intros Hv Hn Hcs Hpos Hread. unfold getListWith. rewrite Hv. cbn [negb].
  erewrite getListWith_version_read by exact Hcs.
  erewrite bind_Ok by reflexivity.
  unfold newObjectId. rewrite Hn. erewrite bind_Ok by reflexivity.
  assert ((match ListOptions.cursor opts with
           | Some c => if truthy c
                       then k0 <- decodeCursorSafe c ;; ret (Some k0)
                       else ret None
           | None => ret None
           end) (mkWorld d (mkRedis cs ps (true :: fs)) (lg ++ ["redis get failed"]))
          = (Ok position,
             mkWorld d (mkRedis cs ps (true :: fs)) (lg ++ ["redis get failed"])))
    as Hp.
  { unfold cursorPosition in Hpos. unfold bind, ret.
    destruct (ListOptions.cursor opts) as [c|]; [|by injection Hpos as <-].
    destruct (truthy c); [|by injection Hpos as <-].
    rewrite decodeCursorSafe_accepted.
    destruct (acceptedCursor c); [by injection Hpos as <- | discriminate]. }
  erewrite bind_Ok by exact Hp. erewrite bind_Ok by reflexivity.
  unfold storeRead, cutPage, matching in Hread. cbn [db].
  set (docs := Mongo_limit (limit + 1) _) in *.
  destruct (Z.of_nat (length docs) >? limit).
  - destruct (arrayGet docs (limit - 1)) as [last|]; [|discriminate].
    injection Hread as <-.
    destruct includeTotal;
      unfold bind, ret, try_catch, redis_set_EX_NX, redis_cmd, set_redis,
        MyListItemModel_countDocuments, store_call, countOf, logger_error;
      answered;
      cbn [redis faults counters pages db log fst snd];
      rewrite <- app_assoc; reflexivity.
  - injection Hread as <-.
    destruct includeTotal;
      unfold bind, ret, try_catch, redis_set_EX_NX, redis_cmd, set_redis,
        MyListItemModel_countDocuments, store_call, countOf, logger_error;
      answered;
      cbn [redis faults counters pages db log fst snd];
      rewrite <- app_assoc; reflexivity.
Qed.

Lemma getList_page_cache_failures_swallowed_witness :
  let payload :=
    mkPayload [Listing.r3; Listing.r2]
      (Some (encodeCursor Sample.newYear 2%N)) (Some 3) in
  @getListWith Node.builtins defaultConfig answering 2 Catalogue.userHex
    Listing.firstPage true
    (mkWorld Listing.database
       (mkRedis {[userVersionKey Catalogue.userHex := 0]} ∅ [false; true; true])
       [])
  = (Ok payload,
     mkWorld Listing.database
       (mkRedis {[userVersionKey Catalogue.userHex := 0]} ∅ [])
       ["redis get failed"; "redis set failed"]).
Proof.
  intros payload.
  refine (@getList_page_cache_failures_swallowed Node.builtins defaultConfig 2
            Catalogue.userHex Listing.firstPage true Catalogue.userOid
            Listing.database {[userVersionKey Catalogue.userHex := 0]} ∅ [] []
            0 None payload _ _ _ _ _); vm_compute; reflexivity.
Defined.

(** A cached page is returned as it is: the store is not read, the
    cursor is not decoded, and neither the content-type filter nor
    includeTotal (which are not part of the key) has any influence. *)
Theorem getList_cache_hit `{Builtins} `{Config} (limit : Z) (userId : string)
    (opts : ListOptions.t) (includeTotal : bool) (d : Db)
    (cs : gmap string Z) (ps : gmap string Payload) (lg : list string)
    (page : Payload) :
  ObjectId_isValid userId = true ->
  ps !! pageCacheKey userId (pretty (default 0 (cs !! userVersionKey userId)))
          limit (ListOptions.cursor opts) = Some page ->
  forall d' contentType' includeTotal',
    getListWith limit userId
      (ListOptions.mk (ListOptions.limit opts) (ListOptions.cursor opts)
         contentType') includeTotal' (mkWorld d' (mkRedis cs ps []) lg)
    = (Ok page, mkWorld d' (mkRedis (versionRead cs userId) ps []) lg).
Proof.
  intros Hv Hhit d' ct' inc'. unfold getListWith. rewrite Hv. cbn [negb].
  erewrite bind_Ok by reflexivity.
  assert ((match pretty <$> cs !! userVersionKey userId with
           | Some v => if truthy v then ret v
                       else redis_setnx (userVersionKey userId) 0 ;;; ret "0"
           | None => redis_setnx (userVersionKey userId) 0 ;;; ret "0"
           end) (mkWorld d' (mkRedis cs ps []) lg)
          = (Ok (pretty (default 0 (cs !! userVersionKey userId))),
             mkWorld d' (mkRedis (versionRead cs userId) ps []) lg)) as Hver.
  { unfold versionRead.
    destruct (cs !! userVersionKey userId) as [v|] eqn:Hcs;
      cbn [fmap option_fmap option_map default].
    - rewrite pretty_Z_truthy. rewrite insert_id by done. reflexivity.
    - unfold bind, redis_setnx, redis_cmd, ret, set_redis.
      cbn [redis faults counters pages db log]. rewrite Hcs. reflexivity. }
  tidy. erewrite bind_Ok by exact Hver.
  erewrite bind_Ok by reflexivity. tidy.
  cbn [ListOptions.cursor]. rewrite Hhit. reflexivity.
Qed.

Lemma getList_cache_hit_witness :
  let page := mkPayload [Listing.r3] None None in
  let cached :=
    mkRedis ∅ {[pageCacheKey Catalogue.userHex "0" 20 None := page]} [] in
  @getListWith Node.builtins defaultConfig answering 20 Catalogue.userHex
    (ListOptions.mk None None (Some tvshow)) true
    (mkWorld Listing.database cached [])
  = (Ok page,
     mkWorld Listing.database
       (mkRedis (versionRead ∅ Catalogue.userHex) (pages cached) []) []).
Proof.
  intros page cached.
  refine (@getList_cache_hit Node.builtins defaultConfig 20 Catalogue.userHex
            Listing.firstPage false Sample.emptyDb ∅ (pages cached) [] page
            _ _ Listing.database (Some tvshow) true); vm_compute; reflexivity.
Defined.

(** The cursor "start" is the cache sentinel of an absent cursor: with
    the first page cached it is answered with that page, and only
    without it with 400 InvalidCursor. *)
Theorem getList_cursor_start `{Builtins} `{Config} (limit : Z)
    (userId : string) (lim : option number) (ct : option ContentType)
    (includeTotal : bool) (uid : ObjectId) (d : Db) (cs : gmap string Z)
    (ps : gmap string Payload) (lg : list string) :
  ObjectId_isValid userId = true ->
  ObjectId_new userId = Some uid ->
  getListWith limit userId (ListOptions.mk lim (Some "start") ct) includeTotal
    (mkWorld d (mkRedis cs ps []) lg)
  = match ps !! pageCacheKey userId
                  (pretty (default 0 (cs !! userVersionKey userId))) limit None
    with
    | Some page => (Ok page, mkWorld d (mkRedis (versionRead cs userId) ps []) lg)
    | None =>
        (Throw InvalidCursor,
         mkWorld d (mkRedis (versionRead cs userId) ps [])
           (lg ++ ["cursor decode error:"]))
    end.
Proof.
  intros Hv Hn.
  rewrite (getListWith_reachable limit userId _ includeTotal uid) by done.
  cbn [ListOptions.cursor].
  change (pageCacheKey userId ?v limit (Some "start"))
    with (pageCacheKey userId v limit None).
  destruct (ps !! _); reflexivity.
Qed.

Lemma getList_cursor_start_witness :
  @getListWith Node.builtins defaultConfig answering 20 Catalogue.userHex
    (ListOptions.mk None (Some "start") None) false Listing.world
  = (Throw InvalidCursor,
     mkWorld Listing.database
       (mkRedis (versionRead ∅ Catalogue.userHex) ∅ [])
       ["cursor decode error:"]).
Proof.
  refine (@getList_cursor_start Node.builtins defaultConfig 20
            Catalogue.userHex None None false Catalogue.userOid
            Listing.database ∅ ∅ [] _ _); vm_compute; reflexivity.
Defined.

(** A cursor that does not decode is refused on a cache miss with 400
    INVALID_CURSOR; the failure is logged and nothing is cached. *)
Theorem getList_invalid_cursor `{Builtins} `{Config} (limit : Z)
    (userId : string) (opts : ListOptions.t) (includeTotal : bool)
    (uid : ObjectId) (d : Db) (cs : gmap string Z) (ps : gmap string Payload)
    (lg : list string) :
  ObjectId_isValid userId = true ->
  ObjectId_new userId = Some uid ->
  cursorPosition (ListOptions.cursor opts) = None ->
  ps !! pageCacheKey userId (pretty (default 0 (cs !! userVersionKey userId)))
          limit (ListOptions.cursor opts) = None ->
  getListWith limit userId opts includeTotal (mkWorld d (mkRedis cs ps []) lg)
  = (Throw InvalidCursor,
     mkWorld d (mkRedis (versionRead cs userId) ps [])
       (lg ++ ["cursor decode error:"]))
  /\ errorHandler InvalidCursor
     = mkResponse 400 (BodyError (Some "INVALID_CURSOR") "Invalid cursor").
Proof.
  intros Hv Hn Hpos Hmiss. split; [|reflexivity].
  rewrite (getListWith_reachable limit userId opts includeTotal uid) by done.
  by rewrite Hmiss, Hpos.
Qed.

Lemma getList_invalid_cursor_witness :
  @getListWith Node.builtins defaultConfig answering 20 Catalogue.userHex
    (ListOptions.mk None (Some "bm90IGEgY3Vyc29y") None) false Listing.world
  = (Throw InvalidCursor,
     mkWorld Listing.database
       (mkRedis (versionRead ∅ Catalogue.userHex) ∅ [])
       ["cursor decode error:"]).
Proof.
  refine (proj1 (@getList_invalid_cursor Node.builtins defaultConfig 20
                   Catalogue.userHex
                   (ListOptions.mk None (Some "bm90IGEgY3Vyc29y") None) false
                   Catalogue.userOid Listing.database ∅ ∅ [] _ _ _ _));
    vm_compute; reflexivity.
Defined.

(** When the page is read from the store with includeTotal set, the
    total attached is the number of all records of the user, whatever
    content-type filter selects the items. *)
Theorem getList_total_unfiltered `{Builtins} `{Config} (limit : Z)
    (userId : string) (opts : ListOptions.t) (uid : ObjectId) (d : Db)
    (cs : gmap string Z) (ps : gmap string Payload) (lg : list string)
    (p : Payload) (w' : World) :
  ObjectId_isValid userId = true ->
  ObjectId_new userId = Some uid ->
  ps !! pageCacheKey userId (pretty (default 0 (cs !! userVersionKey userId)))
          limit (ListOptions.cursor opts) = None ->
  getListWith limit userId opts true (mkWorld d (mkRedis cs ps []) lg)
  = (Ok p, w') ->
  total p = Some (countOf d uid).
Proof.
  intros Hv Hn Hmiss.
  rewrite (getListWith_reachable limit userId opts true uid) by done.
  rewrite Hmiss.
  destruct (cursorPosition (ListOptions.cursor opts)) as [position|];
    [|discriminate].
  unfold storeRead. destruct (cutPage _ _) as [[kept next]|e]; [|discriminate].
  by intros [= <- _].
Qed.

Lemma getList_total_unfiltered_witness :
  total (mkPayload [Listing.r3; Listing.r1] None (Some 3)) = Some 3.
Proof.
  refine (@getList_total_unfiltered Node.builtins defaultConfig 20
            Catalogue.userHex Listing.movies Catalogue.userOid
            Listing.database ∅ ∅ [] _
            (mkWorld Listing.database
               (mkRedis (versionRead ∅ Catalogue.userHex)
                  {[pageCacheKey Catalogue.userHex "0" 20 None :=
                      mkPayload [Listing.r3; Listing.r1] None (Some 3)]} [])
               [])
            _ _ _ _); vm_compute; reflexivity.
Defined.

(** Invalidation by version: once the user's version has been raised by
    one (as a successful add or remove does), the same list call no
    longer sees the page cached under the old version, which is still
    in Redis: it reads the store as it is now. *)
Theorem getList_after_version_bump `{Builtins} `{Config} (limit : Z)
    (userId : string) (opts : ListOptions.t) (includeTotal : bool)
    (uid : ObjectId) (d d' : Db) (cs : gmap string Z)
    (ps : gmap string Payload) (lg : list string) (p : Payload) (w1 : World) :
  ObjectId_isValid userId = true ->
  ObjectId_new userId = Some uid ->
  let version := default 0 (cs !! userVersionKey userId) in
  ps !! pageCacheKey userId (pretty (version + 1)) limit
          (ListOptions.cursor opts) = None ->
  getListWith limit userId opts includeTotal (mkWorld d (mkRedis cs ps []) lg)
  = (Ok p, w1) ->
  let w2 := withVersion (set_db w1 d') userId (version + 1) in
  pages (redis w2) !! pageCacheKey userId (pretty version) limit
                         (ListOptions.cursor opts) = Some p
  /\ fst (getListWith limit userId opts includeTotal w2)
     = match cursorPosition (ListOptions.cursor opts) with
       | Some position =>
           storeRead d' uid limit (ListOptions.contentType opts) position
             includeTotal
       | None => Throw InvalidCursor
       end.
Proof.
  intros Hv Hn version Hnext.
  rewrite (getListWith_reachable limit userId opts includeTotal uid) by done.
  fold version. set (key := pageCacheKey userId (pretty version) limit _).
  set (key' := pageCacheKey userId (pretty (version + 1)) limit _) in Hnext.
  assert (key' <> key) as Hkeys.
  { intros E. apply pageCacheKey_version_inj, (inj pretty) in E. lia. }
  assert (forall ps1 : gmap string Payload,
    ps1 !! key = Some p -> ps1 !! key' = None ->
    let w2 := withVersion
                (set_db (mkWorld d (mkRedis (versionRead cs userId) ps1 []) lg) d')
                userId (version + 1) in
    pages (redis w2) !! key = Some p
    /\ fst (getListWith limit userId opts includeTotal w2)
       = match cursorPosition (ListOptions.cursor opts) with
         | Some position =>
             storeRead d' uid limit (ListOptions.contentType opts) position
               includeTotal
         | None => Throw InvalidCursor
         end) as Hgen.
  { intros ps1 Hp Hnone w2. split; [exact Hp|]. subst w2.
    unfold withVersion, set_db, set_redis.
    cbn [redis faults counters pages db log].
    rewrite (getListWith_reachable limit userId opts includeTotal uid) by done.
    rewrite lookup_insert_eq. cbn [default from_option id]. fold key'. rewrite Hnone.
    destruct (cursorPosition (ListOptions.cursor opts)) as [position|];
      [|reflexivity].
    by destruct (storeRead _ _ _ _ _ _). }
  destruct (ps !! key) as [page|] eqn:Hhit.
  - intros [= <- <-]. by apply Hgen.
  - destruct (cursorPosition (ListOptions.cursor opts)) as [position|] eqn:Hpos;
      [|discriminate].
    destruct (storeRead d uid limit _ position includeTotal) as [payload|e];
      [|discriminate].
    intros [= <- <-]. apply Hgen.
    + apply lookup_insert_eq.
    + by rewrite lookup_insert_ne.
Qed.

Lemma getList_after_version_bump_witness :
  fst (@getListWith Node.builtins defaultConfig answering 20 Catalogue.userHex
         Listing.firstPage false
         (withVersion
            (set_db
               (mkWorld Catalogue.database
                  (mkRedis (versionRead ∅ Catalogue.userHex)
                     {[pageCacheKey Catalogue.userHex "0" 20 None :=
                         mkPayload [] None None]} []) [])
               Listing.database)
            Catalogue.userHex 1))
  = storeRead Listing.database Catalogue.userOid 20 None None false.
Proof.
  refine (proj2 (@getList_after_version_bump Node.builtins defaultConfig 20
                   Catalogue.userHex Listing.firstPage false Catalogue.userOid
                   Catalogue.database Listing.database ∅ ∅ []
                   (mkPayload [] None None) _ _ _ _ _));
    vm_compute; reflexivity.
Defined.

(** getList itself does not default a limit that is not positive (only
    the controller does): called with such a limit it reads the store
    and then throws a TypeError on [docs[limit - 1]], for every negative
    limit and, for limit 0, whenever a record matches. The error handler
    answers the TypeError with status 500 and the TypeError's own
    message. *)
Theorem getList_nonpositive_limit `{Builtins} (limit : Z) (userId : string)
    (cursor : option string) (ct : option ContentType) (includeTotal : bool)
    (uid : ObjectId) (d : Db) (cs : gmap string Z) (ps : gmap string Payload)
    (lg : list string) (position : option (Date * ObjectId)) :
  ObjectId_isValid userId = true ->
  ObjectId_new userId = Some uid ->
  cursorPosition cursor = Some position ->
  ps !! pageCacheKey userId (pretty (default 0 (cs !! userVersionKey userId)))
          limit cursor = None ->
  limit < 0 \/ (limit = 0 /\ matching d (mkQuery uid ct position) <> []) ->
  let opts := ListOptions.mk (Some (ofZ limit)) cursor ct in
  @getList _ defaultConfig answering userId opts includeTotal
    (mkWorld d (mkRedis cs ps []) lg)
  = (Throw ETypeError, mkWorld d (mkRedis (versionRead cs userId) ps []) lg)
  /\ errorHandler ETypeError
     = mkResponse 500
         (BodyError None
            (if truthy TypeError_message then TypeError_message
             else "Internal Server Error")).
Proof.
  intros Hv Hn Hpos Hmiss Hlim opts.
  assert (@pageLimit defaultConfig opts = ofZ limit) as Hpl.
  { unfold pageLimit, opts. cbn [ListOptions.limit nullish MAX_LIMIT defaultConfig].
    rewrite Math_min_ofZ. f_equal. lia. }
  split; [|reflexivity].
  unfold getList. cbv zeta. rewrite Hpl, toInteger_ofZ.
  rewrite (getListWith_reachable limit userId opts includeTotal uid) by done.
  cbn [ListOptions.cursor ListOptions.contentType opts].
  rewrite Hmiss, Hpos.
  assert (storeRead d uid limit ct position includeTotal = Throw ETypeError)
    as ->; [|reflexivity].
  unfold storeRead, cutPage, arrayGet.
  set (docs := Mongo_limit (limit + 1) _).
  assert ((Z.of_nat (length docs) >? limit) = true) as ->.
  { rewrite Z.gtb_ltb. apply Z.ltb_lt.
    destruct Hlim as [Hneg | [-> Hne]]; [lia|].
    subst docs. change (Mongo_limit (0 + 1) ?l) with (take 1 l).
    destruct (matching d (mkQuery uid ct position)); [done|].
    cbn [take length]. lia. }
  assert ((limit - 1 <? 0) = true) as -> by (apply Z.ltb_lt; lia).
  reflexivity.
Qed.

Lemma getList_nonpositive_limit_witness :
  @getList Node.builtins defaultConfig answering Catalogue.userHex
    (ListOptions.mk (Some (ofZ 0)) None None) false Listing.world
  = (Throw ETypeError,
     mkWorld Listing.database
       (mkRedis (versionRead ∅ Catalogue.userHex) ∅ []) [])
  /\ @errorHandler Node.builtins ETypeError
     = mkResponse 500
         (BodyError None
            "Cannot read properties of undefined (reading 'addedAt')").
Proof.
  refine (@getList_nonpositive_limit Node.builtins 0 Catalogue.userHex None
            None false Catalogue.userOid Listing.database ∅ ∅ [] None
            _ _ _ _ _); try (vm_compute; reflexivity).
  right. split; [reflexivity|]. vm_compute. discriminate.
Defined.

(* ================================================================== *)
(** * Listing: pages and their chaining *)
(* ================================================================== *)

Lemma newestFirst_trans : Transitive newestFirst.
Proof. intros a b c. unfold newestFirst. lia. Qed.

Lemma newestFirst_total : Total newestFirst.
Proof. intros a b. unfold newestFirst. lia. Qed.

Lemma Permutation_filter {A} (f : A -> bool) (l l' : list A) :
  l ≡ₚ l' -> List.filter f l ≡ₚ List.filter f l'.
Proof.
  induction 1 as [|x l l' _ IH|x y l|l l' l'' _ IH1 _ IH2]; simpl.
  - done.
  - destruct (f x); [by constructor | done].
  - destruct (f x), (f y); try done. apply perm_swap.
  - by etrans.
Qed.

Lemma StronglySorted_filter {A} (R : relation A) (f : A -> bool) (l : list A) :
  StronglySorted R l -> StronglySorted R (List.filter f l).
Proof.
  induction 1 as [|x l Hl IH Hx]; simpl; [constructor|].
  destruct (f x); [|exact IH]. constructor; [exact IH|].
  apply Forall_forall. intros y Hy.
  apply list_elem_of_In, filter_In in Hy as [Hy _].
  rewrite Forall_forall in Hx. by apply Hx, list_elem_of_In.
Qed.

Lemma StronglySorted_prefix {A} (R : relation A) (l1 l2 : list A) :
  StronglySorted R (l1 ++ l2) -> StronglySorted R l1.
Proof.
  induction l1 as [|x l1 IH]; simpl; [constructor|].
  intros Hs. apply StronglySorted_inv in Hs as [Hs Hx].
  constructor; [by apply IH|].
  by apply Forall_app in Hx as [Hx _].
Qed.

Lemma filter_andb {A} (f g : A -> bool) (l : list A) :
  List.filter (fun x => f x && g x) l = List.filter g (List.filter f l).
Proof.
  induction l as [|x l IH]; simpl; [done|].
  destruct (f x); simpl; [|exact IH]. destruct (g x); by rewrite IH.
Qed.

Lemma same_id_same_record (l : list Item.t) (a b : Item.t) :
  uniqueIds l -> In a l -> In b l -> Item._id a = Item._id b -> a = b.
Proof.
  unfold uniqueIds. induction l as [|x l IH]; simpl; [done|].
  intros Hnd. apply NoDup_cons in Hnd as [Hx Hnd].
  intros [<-|Ha] [<-|Hb] E; try done.
  - exfalso. apply Hx. rewrite E. apply list_elem_of_In, in_map_iff. eauto.
  - exfalso. apply Hx. rewrite <- E. apply list_elem_of_In, in_map_iff. eauto.
  - by apply IH.
Qed.

Lemma matching_sorted (d : Db) (q : Query) :
  StronglySorted newestFirst (matching d q).
Proof.
  apply StronglySorted_merge_sort;
    [apply newestFirst_trans | apply newestFirst_total].
Qed.

Lemma matching_Permutation (d : Db) (q : Query) :
  matching d q ≡ₚ List.filter (matchesQuery q) (mylistitems d).
Proof. apply merge_sort_Permutation. Qed.

Lemma matching_In (d : Db) (q : Query) (r : Item.t) :
  In r (matching d q) <-> In r (mylistitems d) /\ matchesQuery q r = true.
Proof.
  rewrite <- filter_In, <- !list_elem_of_In.
  by rewrite (matching_Permutation d q).
Qed.

(** The query below a position selects, from the whole sorted list,
    the records below that position. *)
Lemma matching_below (d : Db) (uid : ObjectId) (ct : option ContentType)
    (k : Date * ObjectId) :
  uniqueIds (mylistitems d) ->
  matching d (mkQuery uid ct (Some k))
  = List.filter (keyBefore k) (matching d (mkQuery uid ct None)).
Proof.
  intros Hu. apply (StronglySorted_unique_strong newestFirst).
  - intros a b Ha Hb Hab Hba.
    apply list_elem_of_In, matching_In in Ha as [Ha _].
    apply list_elem_of_In, filter_In in Hb as [Hb _].
    apply matching_In in Hb as [Hb _].
    apply (same_id_same_record _ _ _ Hu Ha Hb).
    unfold newestFirst in *. lia.
  - apply matching_sorted.
  - apply StronglySorted_filter, matching_sorted.
  - rewrite !matching_Permutation.
    rewrite (Permutation_filter _ _ _ (matching_Permutation d _)).
    rewrite <- filter_andb.
    erewrite filter_ext; [reflexivity|].
    intros r. unfold matchesQuery. cbn [q_userId q_contentType q_or].
    by rewrite andb_true_r.
Qed.

Lemma keyBefore_irrefl (r : Item.t) : keyBefore (orderingKey r) r = false.
Proof.
  unfold keyBefore, orderingKey. cbn [fst snd].
  rewrite Z.ltb_irrefl, N.ltb_irrefl. by rewrite andb_false_r.
Qed.

Lemma keyBefore_asym (a b : Item.t) :
  keyBefore (orderingKey a) b = true -> keyBefore (orderingKey b) a = false.
Proof.
  unfold keyBefore, orderingKey. cbn [fst snd].
  rewrite orb_true_iff, andb_true_iff, Z.ltb_lt, Z.eqb_eq, N.ltb_lt.
  intros Hab.
  apply orb_false_iff. split.
  - apply Z.ltb_ge. lia.
  - apply andb_false_iff.
    destruct (Z.eqb_spec (Item.addedAt a) (Item.addedAt b)); [|by left].
    right. apply N.ltb_ge. lia.
Qed.

Lemma keyBefore_trans (a b c : Item.t) :
  keyBefore (orderingKey a) b = true -> keyBefore (orderingKey b) c = true ->
  keyBefore (orderingKey a) c = true.
Proof.
  unfold keyBefore, orderingKey. cbn [fst snd].
  rewrite !orb_true_iff, !andb_true_iff, !Z.ltb_lt, !Z.eqb_eq, !N.ltb_lt.
  lia.
Qed.

(** With unique ids the sorted list is strictly descending. *)
Lemma matching_strictly_sorted (d : Db) (q : Query) :
  uniqueIds (mylistitems d) ->
  StronglySorted strictlyNewer (matching d q).
Proof.
  intros Hu.
  assert (NoDup (matching d q)) as Hnd.
  { rewrite matching_Permutation. apply NoDup_ListNoDup, List.NoDup_filter.
    apply NoDup_ListNoDup. unfold uniqueIds in Hu.
    by apply NoDup_fmap_1 in Hu. }
  assert (forall r, In r (matching d q) -> In r (mylistitems d)) as Hin
    by (intros r Hr; by apply matching_In in Hr as [Hr _]).
  pose proof (matching_sorted d q) as Hs.
  induction Hs as [|x l Hl IH Hx]; [constructor|].
  apply NoDup_cons in Hnd as [Hxl Hnd].
  constructor.
  - apply IH; [done|]. intros r Hr. apply Hin. by right.
  - rewrite Forall_forall in Hx |- *. intros y Hy.
    specialize (Hx y Hy). unfold strictlyNewer, keyBefore, orderingKey.
    cbn [fst snd]. unfold newestFirst in Hx.
    assert (Item._id y <> Item._id x) as Hne.
    { intros E. apply Hxl.
      assert (y = x) as ->; [|done].
      apply (same_id_same_record _ _ _ Hu); [| |done].
      - apply Hin. right. by apply list_elem_of_In.
      - apply Hin. by left. }
    apply orb_true_iff. rewrite andb_true_iff, Z.ltb_lt, Z.eqb_eq, N.ltb_lt.
    lia.
Qed.

(** In a strictly descending list the records below the position of an
    element are exactly those after it. *)
Lemma filter_below_element (pre post : list Item.t) (x : Item.t) :
  StronglySorted strictlyNewer (pre ++ x :: post) ->
  List.filter (keyBefore (orderingKey x)) (pre ++ x :: post) = post.
Proof.
  induction pre as [|a pre IH]; simpl.
  - intros Hs. apply StronglySorted_inv in Hs as [Hs Hx].
    rewrite keyBefore_irrefl.
    apply forallb_filter_id, forallb_forall. intros y Hy.
    rewrite Forall_forall in Hx. by apply Hx, list_elem_of_In.
  - intros Hs. apply StronglySorted_inv in Hs as [Hs Ha].
    rewrite Forall_forall in Ha.
    assert (keyBefore (orderingKey x) a = false) as ->.
    { apply keyBefore_asym. apply Ha, list_elem_of_In, in_or_app.
      right. by left. }
    by apply IH.
Qed.

Section Pages.
Context `{Builtins}.

Lemma cursorPosition_start : cursorPosition (Some "start") = None.
Proof. reflexivity. Qed.

(** Two cursors that decode and share a cache key stand for the same
    position. *)
Lemma pageCacheKey_position (userId version : string) (limit : Z)
    (c c' : option string) (pos pos' : option (Date * ObjectId)) :
  cursorPosition c = Some pos -> cursorPosition c' = Some pos' ->
  pageCacheKey userId version limit c = pageCacheKey userId version limit c' ->
  pos = pos'.
Proof.
  unfold pageCacheKey. intros Hc Hc' E.
  do 7 apply String.app_inj in E.
  destruct c as [t|], c' as [t'|].
  - destruct (truthy t) eqn:Ht, (truthy t') eqn:Ht'.
    + subst t'. congruence.
    + subst t. by rewrite cursorPosition_start in Hc.
    + subst t'. by rewrite cursorPosition_start in Hc'.
    + unfold cursorPosition in Hc, Hc'. rewrite Ht in Hc. rewrite Ht' in Hc'.
      congruence.
  - destruct (truthy t) eqn:Ht.
    + subst t. by rewrite cursorPosition_start in Hc.
    + unfold cursorPosition in Hc, Hc'. rewrite Ht in Hc. congruence.
  - destruct (truthy t') eqn:Ht'.
    + subst t'. by rewrite cursorPosition_start in Hc'.
    + unfold cursorPosition in Hc, Hc'. rewrite Ht' in Hc'. congruence.
  - congruence.
Qed.

Lemma versionRead_version (cs : gmap string Z) (userId : string) :
  default 0 (versionRead cs userId !! userVersionKey userId)
  = default 0 (cs !! userVersionKey userId).
Proof. unfold versionRead. by rewrite lookup_insert_eq. Qed.

(** The last page: no more than [limit] records are left. *)
Lemma storeRead_last_page (d : Db) (uid : ObjectId) (limit : Z)
    (ct : option ContentType) (pos : option (Date * ObjectId)) (inc : bool) :
  1 <= limit ->
  (length (matching d (mkQuery uid ct pos)) <= Z.to_nat limit)%nat ->
  storeRead d uid limit ct pos inc
  = Ok (mkPayload (matching d (mkQuery uid ct pos)) None
          (if inc then Some (countOf d uid) else None)).
Proof.
  intros Hl Hlen. unfold storeRead, cutPage, Mongo_limit.
  set (R := matching d (mkQuery uid ct pos)) in *.
  destruct (Z.eqb_spec (limit + 1) 0) as [|_]; [lia|].
  rewrite take_ge by lia.
  destruct (Z.gtb_spec (Z.of_nat (length R)) limit); [lia | reflexivity].
Qed.

(** A full page: more than [limit] records are left. *)
Lemma storeRead_full_page (d : Db) (uid : ObjectId) (limit : Z)
    (ct : option ContentType) (pos : option (Date * ObjectId)) (inc : bool)
    (last : Item.t) :
  1 <= limit ->
  (Z.to_nat limit < length (matching d (mkQuery uid ct pos)))%nat ->
  matching d (mkQuery uid ct pos) !! (Z.to_nat limit - 1)%nat = Some last ->
  storeRead d uid limit ct pos inc
  = Ok (mkPayload (take (Z.to_nat limit) (matching d (mkQuery uid ct pos)))
          (Some (encodeCursor (Item.addedAt last) (Item._id last)))
          (if inc then Some (countOf d uid) else None)).
Proof.
  intros Hl Hlen Hlast. unfold storeRead, cutPage, Mongo_limit, arrayGet,
    arraySplice.
  set (R := matching d (mkQuery uid ct pos)) in *.
  destruct (Z.eqb_spec (limit + 1) 0) as [|_]; [lia|].
  replace (Z.abs_nat (limit + 1)) with (S (Z.to_nat limit)) by lia.
  rewrite length_take, Nat.min_l by lia.
  destruct (Z.gtb_spec (Z.of_nat (S (Z.to_nat limit))) limit); [|lia].
  destruct (Z.ltb_spec (limit - 1) 0); [lia|].
  replace (Z.to_nat (limit - 1)) with (Z.to_nat limit - 1)%nat by lia.
  rewrite lookup_take_lt by lia. rewrite Hlast.
  destruct (Z.ltb_spec limit 0); [lia|].
  rewrite Z.min_l by lia.
  rewrite take_take, Nat.min_l by lia. reflexivity.
Qed.

End Pages.

Section Chain.
Context `{Builtins} `{Config}.
Variables (d : Db) (uid : ObjectId) (userId : string) (limit : Z)
  (ct : option ContentType) (lg : list string).
Hypothesis Hvalid : ObjectId_isValid userId = true.
Hypothesis Hnew : ObjectId_new userId = Some uid.
Hypothesis Hlimit : 1 <= limit.
Hypothesis Hunique : uniqueIds (mylistitems d).
Hypothesis Hdecode : cursorsDecode (mylistitems d).

(** One call under a coherent cache returns what the store holds for
    the cursor, and leaves the cache coherent. *)
Lemma getListWith_coherent (cs : gmap string Z) (ps : gmap string Payload)
    (lim : option number) (c : option string)
    (pos : option (Date * ObjectId)) (payload : Payload) :
  coherentCache d uid userId (default 0 (cs !! userVersionKey userId)) limit
    ct ps ->
  cursorPosition c = Some pos ->
  storeRead d uid limit ct pos false = Ok payload ->
  exists ps' page,
    getListWith limit userId (ListOptions.mk lim c ct) false
      (mkWorld d (mkRedis cs ps []) lg)
    = (Ok page, mkWorld d (mkRedis (versionRead cs userId) ps' []) lg)
    /\ samePage page payload
    /\ coherentCache d uid userId
         (default 0 (versionRead cs userId !! userVersionKey userId)) limit
         ct ps'.
Proof.
  intros Hcoh Hpos Hread.
  rewrite (getListWith_reachable limit userId _ false uid) by done.
  cbn [ListOptions.cursor ListOptions.contentType].
  rewrite versionRead_version.
  set (version := default 0 (cs !! userVersionKey userId)) in *.
  destruct (ps !! pageCacheKey userId (pretty version) limit c) as [page|]
    eqn:Hhit.
  - exists ps, page. split; [reflexivity|]. split; [|exact Hcoh].
    destruct (Hcoh c pos page Hpos Hhit) as (payload' & Hread' & Hsame).
    congruence.
  - rewrite Hpos, Hread. eexists _, payload.
    split; [reflexivity|]. split; [done|].
    intros c' pos' page' Hpos' Hlook.
    destruct (decide (pageCacheKey userId (pretty version) limit c
                      = pageCacheKey userId (pretty version) limit c'))
      as [E|Hne].
    + rewrite <- E, lookup_insert_eq in Hlook. injection Hlook as <-.
      exists payload. split; [|done].
      by rewrite <- (pageCacheKey_position _ _ _ _ _ _ _ Hpos Hpos' E).
    + rewrite lookup_insert_ne in Hlook by done. by eapply Hcoh.
Qed.

(** Following the cursors from any point of the list collects exactly
    the records that are left. *)
Lemma collectPages_rest (fuel : nat) :
  forall (pre R : list Item.t) (c : option string)
         (pos : option (Date * ObjectId)) (cs : gmap string Z)
         (ps : gmap string Payload),
    matching d (mkQuery uid ct None) = (pre ++ R)%list ->
    cursorPosition c = Some pos ->
    matching d (mkQuery uid ct pos) = R ->
    coherentCache d uid userId (default 0 (cs !! userVersionKey userId)) limit
      ct ps ->
    (length R < fuel)%nat ->
    exists w',
      collectPages fuel limit userId ct c (mkWorld d (mkRedis cs ps []) lg)
      = Some (Ok R, w')
      /\ db w' = d.
Proof.
  induction fuel as [|fuel IH]; intros pre R c pos cs ps HS Hpos HR Hcoh Hlen;
    [lia|].
  cbn [collectPages].
  destruct (decide (length R <= Z.to_nat limit)%nat) as [Hshort|Hlong].
  - (* the last page *)
    pose proof (storeRead_last_page d uid limit ct pos false Hlimit) as Hread.
    rewrite HR in Hread. specialize (Hread Hshort).
    destruct (getListWith_coherent cs ps (Some (ofZ limit)) c pos _ Hcoh Hpos
                Hread) as (ps' & page & -> & [Hitems Hnext] & _).
    rewrite Hnext, Hitems. cbn [nextCursor items]. eauto.
  - (* a full page, and the rest from its cursor *)
    assert (exists last, R !! (Z.to_nat limit - 1)%nat = Some last)
      as [last Hlast] by (apply lookup_lt_is_Some_2; lia).
    pose proof (storeRead_full_page d uid limit ct pos false last Hlimit)
      as Hread.
    rewrite HR in Hread. specialize (Hread ltac:(lia) Hlast).
    destruct (getListWith_coherent cs ps (Some (ofZ limit)) c pos _ Hcoh Hpos
                Hread) as (ps' & page & -> & [Hitems Hnext] & Hcoh').
    rewrite Hnext, Hitems. cbn [nextCursor items].
    set (tok := encodeCursor (Item.addedAt last) (Item._id last)).
    assert (R = (take (Z.to_nat limit - 1) R ++ last
                   :: drop (Z.to_nat limit) R)%list) as Hsplit.
    { rewrite <- (take_drop_middle R (Z.to_nat limit - 1) last Hlast) at 1.
      do 3 f_equal. lia. }
    assert (In last (mylistitems d)) as Hin.
    { apply (matching_In d (mkQuery uid ct None)). rewrite HS.
      apply in_or_app. right. rewrite Hsplit. apply in_or_app. right.
      by left. }
    assert (cursorPosition (Some tok) = Some (Some (orderingKey last)))
      as Hpos'.
    { unfold cursorPosition. pose proof (Hdecode last Hin) as Hacc.
      fold tok in Hacc. rewrite Hacc.
      by apply acceptedCursor_truthy in Hacc as [-> _]. }
    assert (matching d (mkQuery uid ct (Some (orderingKey last)))
            = drop (Z.to_nat limit) R) as HR'.
    { rewrite matching_below by done. rewrite HS.
      transitivity
        (List.filter (keyBefore (orderingKey last))
           ((pre ++ take (Z.to_nat limit - 1) R) ++ last
              :: drop (Z.to_nat limit) R)).
      { f_equal. rewrite <- app_assoc. f_equal. exact Hsplit. }
      apply filter_below_element.
      rewrite <- app_assoc, <- Hsplit, <- HS.
      by apply matching_strictly_sorted. }
    destruct (IH (pre ++ take (Z.to_nat limit) R)%list
                (drop (Z.to_nat limit) R) (Some tok)
                (Some (orderingKey last)) (versionRead cs userId) ps')
      as (w' & -> & Hdb).
    + by rewrite <- app_assoc, take_drop.
    + exact Hpos'.
    + exact HR'.
    + exact Hcoh'.
    + rewrite length_drop. lia.
    + exists w'. by rewrite take_drop.
Qed.

End Chain.

(** Pagination is complete. With Redis answering, a limit of at least
    1, unique record ids, cursors that decode to their records, and a
    page cache that is coherent for the content-type filter asked for
    (for instance a cold one), calling getList and following nextCursor
    until it is null returns every record of the user that passes the
    filter exactly once, in strictly descending (addedAt, _id) order,
    after finitely many calls; the database is not changed. *)
Theorem pagination_complete `{Builtins} `{Config} (d : Db) (uid : ObjectId)
    (userId : string) (limit : Z) (ct : option ContentType)
    (cs : gmap string Z) (ps : gmap string Payload) (lg : list string)
    (fuel : nat) :
  ObjectId_isValid userId = true ->
  ObjectId_new userId = Some uid ->
  1 <= limit ->
  uniqueIds (mylistitems d) ->
  cursorsDecode (mylistitems d) ->
  coherentCache d uid userId (default 0 (cs !! userVersionKey userId)) limit
    ct ps ->
  let all := matching d (mkQuery uid ct None) in
  (length all < fuel)%nat ->
  all ≡ₚ List.filter (matchesQuery (mkQuery uid ct None)) (mylistitems d)
  /\ StronglySorted strictlyNewer all
  /\ exists w',
       collectPages fuel limit userId ct None (mkWorld d (mkRedis cs ps []) lg)
       = Some (Ok all, w')
       /\ db w' = d.
Proof.
  intros Hv Hn Hl Hu Hd Hcoh all Hfuel.
  split; [apply matching_Permutation|].
  split; [by apply matching_strictly_sorted|].
  by apply (collectPages_rest d uid userId limit ct lg Hv Hn Hl Hu Hd fuel
              [] all None None cs ps).
Qed.

Lemma Listing_cursorsDecode :
  @cursorsDecode Node.builtins (mylistitems Listing.database).
Proof.
  intros r [<-|[<-|[<-|[]]]]; vm_compute; reflexivity.
Qed.

Lemma Listing_uniqueIds : uniqueIds (mylistitems Listing.database).
Proof.
  unfold uniqueIds. cbn [map mylistitems Listing.database set_mylistitems].
  cbn [Item._id Listing.r1 Listing.r2 Listing.r3 Listing.record].
  apply NoDup_ListNoDup. repeat constructor; cbn; intuition discriminate.
Qed.

Lemma warmCache_coherent :
  @coherentCache Node.builtins Listing.database Catalogue.userOid
    Catalogue.userHex 0 2 None warmCache.
Proof.
  intros c pos page Hpos Hlook.
  unfold warmCache in Hlook.
  apply lookup_singleton_Some in Hlook as [E <-].
  pose proof (@pageCacheKey_position Node.builtins _ _ _ None c None pos
                eq_refl Hpos E) as <-.
  eexists. split; [vm_compute; reflexivity|]. split; reflexivity.
Qed.

(** The three records, two per page, the first page served from the
    cache and the second read from the store. *)
Lemma pagination_complete_witness :
  exists w',
    @collectPages Node.builtins defaultConfig 4 2 Catalogue.userHex None None
      (mkWorld Listing.database (mkRedis ∅ warmCache []) [])
    = Some (Ok [Listing.r3; Listing.r2; Listing.r1], w')
    /\ db w' = Listing.database.
Proof.
  pose proof (@pagination_complete Node.builtins defaultConfig
                Listing.database Catalogue.userOid Catalogue.userHex 2 None
                ∅ warmCache [] 4) as P.
  specialize (P ltac:(vm_compute; reflexivity) ltac:(vm_compute; reflexivity)
                ltac:(lia) Listing_uniqueIds Listing_cursorsDecode).
  specialize (P warmCache_coherent).
  specialize (P ltac:(vm_compute; lia)).
  exact (proj2 (proj2 P)).
Defined.

(** The page a store read returns, with Redis answering, for a limit of
    at least 1 and under any driver: the call fails only on a cursor
    that does not decode or with the error of a rejected find or
    countDocuments, which nothing converts; otherwise the items are the
    first [limit] of the matching records in newest-first order, all of
    them records of the user that pass the filters, and nextCursor is
    null exactly when no more than [limit] records matched. *)
Theorem getList_page_shape `{Builtins} `{Config} `{Driver} (limit : Z)
    (userId : string) (opts : ListOptions.t) (includeTotal : bool)
    (uid : ObjectId) (d : Db) (cs : gmap string Z) (ps : gmap string Payload)
    (lg : list string) :
  ObjectId_isValid userId = true ->
  ObjectId_new userId = Some uid ->
  1 <= limit ->
  ps !! pageCacheKey userId (pretty (default 0 (cs !! userVersionKey userId)))
          limit (ListOptions.cursor opts) = None ->
  match getListWith limit userId opts includeTotal
          (mkWorld d (mkRedis cs ps []) lg) with
  | (Ok page, _) =>
      exists position,
        cursorPosition (ListOptions.cursor opts) = Some position
        /\ let found :=
             matching d (mkQuery uid (ListOptions.contentType opts) position) in
           items page = take (Z.to_nat limit) found
           /\ (length (items page) <= Z.to_nat limit)%nat
           /\ (nextCursor page = None <-> (length found <= Z.to_nat limit)%nat)
           /\ StronglySorted newestFirst (items page)
           /\ (forall r, In r (items page) ->
                 In r (mylistitems d)
                 /\ matchesQuery
                      (mkQuery uid (ListOptions.contentType opts) position) r
                    = true)
  | (Throw e, _) => e = InvalidCursor \/ driverError listReads e
  end.
Proof.
  intros Hv Hn Hl Hmiss.
  rewrite (getListWith_reachable_any limit userId opts includeTotal uid) by done.
  rewrite Hmiss.
  destruct (cursorPosition (ListOptions.cursor opts)) as [position|];
    [|by left].
  destruct (rejects ItemFind) as [errcode|] eqn:Hfind.
  { right. exists ItemFind, errcode. cbn. tauto. }
  assert (forall errcode,
            (if includeTotal then rejects ItemCountDocuments else None)
            = Some errcode ->
            driverError listReads (EMongo errcode)) as Hcount.
  { intros errcode Hc. destruct includeTotal; [|discriminate].
    exists ItemCountDocuments, errcode. cbn. tauto. }
  set (found := matching d (mkQuery uid (ListOptions.contentType opts) position)).
  assert (forall l : list Item.t, (forall r, In r l -> In r found) ->
            forall r, In r l ->
              In r (mylistitems d)
              /\ matchesQuery
                   (mkQuery uid (ListOptions.contentType opts) position) r
                 = true) as Hsub.
  { intros l Hl' r Hr. by apply matching_In, Hl'. }
  destruct (decide (length found <= Z.to_nat limit)%nat) as [Hshort|Hlong].
  - rewrite storeRead_last_page by done. fold found.
    destruct (if includeTotal then _ else _) as [errcode|] eqn:Hc;
      [right; by apply Hcount|].
    exists position. split; [done|]. cbv zeta. fold found.
    cbn [items nextCursor].
    split; [by rewrite take_ge|]. split; [done|]. split; [done|].
    split; [apply matching_sorted | by apply Hsub].
  - assert (exists last, found !! (Z.to_nat limit - 1)%nat = Some last)
      as [last Hlast] by (apply lookup_lt_is_Some_2; lia).
    pose proof (storeRead_full_page d uid limit (ListOptions.contentType opts)
                  position includeTotal last Hl) as Hfull.
    fold found in Hfull. rewrite Hfull by (lia || done).
    destruct (if includeTotal then _ else _) as [errcode|] eqn:Hc;
      [right; by apply Hcount|].
    exists position. split; [done|]. cbv zeta. fold found.
    cbn [items nextCursor].
    split; [done|]. split; [rewrite length_take; lia|].
    split; [split; [discriminate | intros ?; lia]|].
    split.
    + rewrite <- (take_drop (Z.to_nat limit) found).
      pose proof (matching_sorted d
                    (mkQuery uid (ListOptions.contentType opts) position)) as Hs.
      fold found in Hs. rewrite <- (take_drop (Z.to_nat limit) found) in Hs.
      apply StronglySorted_prefix in Hs. by rewrite take_drop.
    + apply Hsub. intros r Hr.
      rewrite <- (take_drop (Z.to_nat limit) found).
      apply in_or_app. by left.
Qed.

(** Two of the three movies fit the page, with the driver answering;
    and with [find] rejected the call throws the driver's error. *)
Lemma getList_page_shape_witness :
  match @getListWith Node.builtins defaultConfig answering 2 Catalogue.userHex
          (ListOptions.mk None None None) true Listing.world with
  | (Ok page, _) =>
      exists position,
        @cursorPosition Node.builtins None = Some position
        /\ let found :=
             matching Listing.database
               (mkQuery Catalogue.userOid None position) in
           items page = take (Z.to_nat 2) found
           /\ (length (items page) <= Z.to_nat 2)%nat
           /\ (nextCursor page = None <-> (length found <= Z.to_nat 2)%nat)
           /\ StronglySorted newestFirst (items page)
           /\ (forall r, In r (items page) ->
                 In r (mylistitems Listing.database)
                 /\ matchesQuery (mkQuery Catalogue.userOid None position) r
                    = true)
  | (Throw e, _) => e = InvalidCursor \/ @driverError answering listReads e
  end
  /\ (EMongo None = InvalidCursor
      \/ @driverError (rejecting ItemFind None) listReads (EMongo None)).
Proof.
  split.
  - refine (@getList_page_shape Node.builtins defaultConfig answering 2
              Catalogue.userHex (ListOptions.mk None None None) true
              Catalogue.userOid Listing.database ∅ ∅ [] _ _ _ _);
      try (vm_compute; reflexivity).
    lia.
  - refine (@getList_page_shape Node.builtins defaultConfig
              (rejecting ItemFind None) 2 Catalogue.userHex
              (ListOptions.mk None None None) true
              Catalogue.userOid Listing.database ∅ ∅ [] _ _ _ _);
      try (vm_compute; reflexivity).
    lia.
Defined.

(* ================================================================== *)
(** * Further properties of the helpers *)
(* ================================================================== *)

(** The version bump is best effort: it never throws and never touches
    the database or the cached pages; with Redis reachable it adds
    exactly one to the user's counter (an absent counter counting as
    0), and with the INCR rejected it leaves the counter as it is and
    logs the failure. *)
Theorem bumpUserVersion_best_effort (userId : string) (w : World) :
  (exists w', bumpUserVersion userId w = (Ok tt, w')
              /\ db w' = db w /\ pages (redis w') = pages (redis w))
  /\ (reachable w ->
      bumpUserVersion userId w
      = (Ok tt, withVersion w userId (currentVersion w userId + 1)))
  /\ (forall fs,
        faults (redis w) = true :: fs ->
        bumpUserVersion userId w
        = (Ok tt,
           mkWorld (db w) (mkRedis (counters (redis w)) (pages (redis w)) fs)
             (log w ++ ["redis incr failed"]))).
Proof.
  split; [apply bumpUserVersion_ok|]. split; [apply bumpUserVersion_reachable|].
  intros fs Hfs. destruct w as [d [cs ps fs'] lg]. cbn in Hfs. subst fs'.
  apply bumpUserVersion_rejected.
Qed.

Lemma bumpUserVersion_best_effort_witness :
  bumpUserVersion Catalogue.userHex Sample.emptyWorld
  = (Ok tt, withVersion Sample.emptyWorld Catalogue.userHex
              (currentVersion Sample.emptyWorld Catalogue.userHex + 1)).
Proof.
  refine (proj1 (proj2 (bumpUserVersion_best_effort Catalogue.userHex
                          Sample.emptyWorld)) _).
  reflexivity.
Defined.

(** Keys of the cache: pages of one user, limit and cursor cached under
    different versions have different keys, and the version key of a
    user is never one of that user's page keys. *)
Theorem cache_keys_distinct (userId : string) (v1 v2 : Z) (limit : Z)
    (cursor : option string) :
  v1 <> v2 ->
  pageCacheKey userId (pretty v1) limit cursor
  <> pageCacheKey userId (pretty v2) limit cursor
  /\ userVersionKey userId <> pageCacheKey userId (pretty v1) limit cursor.
Proof.
  intros Hne. split.
  - intros E. by apply pageCacheKey_version_inj, (inj pretty) in E.
  - apply userVersionKey_ne_pageCacheKey.
Qed.

Lemma cache_keys_distinct_witness :
  pageCacheKey Catalogue.userHex (pretty 1) 20 None
  <> pageCacheKey Catalogue.userHex (pretty 2) 20 None
  /\ userVersionKey Catalogue.userHex
     <> pageCacheKey Catalogue.userHex (pretty 1) 20 None.
Proof.
  refine (cache_keys_distinct Catalogue.userHex 1 2 20 None _). lia.
Defined.

(** toNumberOrDefault returns its argument when that is finite and
    positive and the default otherwise, so with a finite positive
    default the limit it yields is always finite and positive. *)
Theorem toNumberOrDefault_positive (v d : number) :
  Number_isFinite d && number_gt d (ofZ 0) = true ->
  let n := toNumberOrDefault v d in
  Number_isFinite n && number_gt n (ofZ 0) = true
  /\ (n = v \/ n = d)
  /\ (Number_isFinite v && number_gt v (ofZ 0) = true -> n = v).
Proof.
  intros Hd. unfold toNumberOrDefault. cbv zeta.
  destruct (Number_isFinite v && number_gt v (ofZ 0)) eqn:Hv.
  - split; [exact Hv|]. split; [by left | done].
  - split; [exact Hd|]. split; [by right | discriminate].
Qed.

Lemma toNumberOrDefault_positive_witness :
  let n := toNumberOrDefault (ofZ (-3)) (ofZ 20) in
  Number_isFinite n && number_gt n (ofZ 0) = true
  /\ (n = ofZ (-3) \/ n = ofZ 20)
  /\ (Number_isFinite (ofZ (-3)) && number_gt (ofZ (-3)) (ofZ 0) = true ->
      n = ofZ (-3)).
Proof.
  refine (toNumberOrDefault_positive (ofZ (-3)) (ofZ 20) _). reflexivity.
Defined.

(** Cursors tell records apart: two records whose cursors coincide have
    the same printed date and, being genuine ObjectIds, the same id. *)
Theorem encodeCursor_inj (t t' : Date) (id id' : ObjectId) :
  validObjectId id -> validObjectId id' ->
  encodeCursor t id = encodeCursor t' id' ->
  Date_toISOString t = Date_toISOString t' /\ id = id'.
Proof.
  intros Hid Hid' E. unfold encodeCursor in E. apply toBase64_inj in E.
  apply (f_equal (str_split "|")) in E.
  change ("|" +:+ ObjectId_toString id)
    with (String "|" (ObjectId_toString id)) in E.
  change ("|" +:+ ObjectId_toString id')
    with (String "|" (ObjectId_toString id')) in E.
  rewrite !str_split_app in E by apply Date_toISOString_lacks_bar.
  rewrite !str_split_lacks in E by apply ObjectId_toString_lacks_bar.
  pose proof (f_equal (fun l => nth 0 l "") E) as Ht.
  pose proof (f_equal (fun l => nth 1 l "") E) as Hi.
  cbn [nth] in Ht, Hi. split; [exact Ht|].
  apply ObjectId_toString_inj; assumption.
Qed.

Lemma encodeCursor_inj_witness :
  Date_toISOString Sample.newYear = Date_toISOString Sample.newYear
  /\ Sample.someId = Sample.someId.
Proof.
  refine (encodeCursor_inj Sample.newYear Sample.newYear Sample.someId
            Sample.someId _ _ _); reflexivity.
Defined.

(** A user or a content that does not exist: addToList fails with 404
    USER_NOT_FOUND before looking at the content, and with 404
    CONTENT_NOT_FOUND when the movie (for a movie) or the show (for a
    show) is missing; nothing is written. *)
Theorem addToList_not_found `{Builtins} (userId : string)
    (payload : AddPayload.t) (now : Date) (newId : ObjectId) (w : World)
    (uid cid : ObjectId) :
  AddPayload.episodeId payload = None ->
  ObjectId_isValid userId = true -> ObjectId_new userId = Some uid ->
  ObjectId_isValid (AddPayload.contentId payload) = true ->
  ObjectId_new (AddPayload.contentId payload) = Some cid ->
  (uid ∉ users (db w) ->
   addToList userId payload now newId w
   = (Throw (EHttp (mkHttpError 404 "user not found" (Some "USER_NOT_FOUND"))),
      w))
  /\ (uid ∈ users (db w) ->
      match AddPayload.contentType payload with
      | movie =>
          movies (db w) !! cid = None ->
          addToList userId payload now newId w
          = (Throw (EHttp (mkHttpError 404 "movie not found"
                             (Some "CONTENT_NOT_FOUND"))), w)
      | tvshow =>
          tvshows (db w) !! cid = None ->
          addToList userId payload now newId w
          = (Throw (EHttp (mkHttpError 404 "tv show not found"
                             (Some "CONTENT_NOT_FOUND"))), w)
      end).
Proof.
  intros Hep Hvu Hnu Hvc Hnc. split.
  - intros Hu. rewrite addToList_unfold. unfold_prepare.
    rewrite Hvu, Hvc, Hep. cbn [negb]. rewrite Hnu, Hnc.
    by rewrite (bool_decide_eq_false_2 _ Hu).
  - intros Hu.
    destruct (AddPayload.contentType payload) eqn:Hct; intros Hnone;
      rewrite addToList_unfold; unfold_prepare;
      rewrite Hvu, Hvc, Hep; cbn [negb]; rewrite Hnu, Hnc;
      rewrite (bool_decide_eq_true_2 _ Hu); cbn [negb];
      rewrite Hct, Hnone; reflexivity.
Qed.

Lemma addToList_not_found_witness :
  @addToList Node.builtins answering Catalogue.userHex
    (AddPayload.mk Catalogue.showHex movie None None) Sample.newYear 1%N
    Catalogue.world
  = (Throw (EHttp (mkHttpError 404 "movie not found"
                     (Some "CONTENT_NOT_FOUND"))), Catalogue.world).
Proof.
  exact (proj2 (@addToList_not_found Node.builtins Catalogue.userHex
                  (AddPayload.mk Catalogue.showHex movie None None)
                  Sample.newYear 1%N Catalogue.world Catalogue.userOid
                  Catalogue.showOid
                  ltac:(vm_compute; reflexivity) ltac:(vm_compute; reflexivity)
                  ltac:(vm_compute; reflexivity) ltac:(vm_compute; reflexivity)
                  ltac:(vm_compute; reflexivity))
               ltac:(vm_compute; reflexivity) ltac:(vm_compute; reflexivity)).
Defined.

(** The document of an accepted request: its content exists in the
    collection its content type names; its snapshot is the one supplied
    or, when none is supplied, the one built from that content; a movie
    never carries an episode; and an episode of a show exists and is
    linked to a show whose id prints as the content id. *)
Theorem prepareDocument_document `{Builtins} (userId : string)
    (payload : AddPayload.t) (now : Date) (newId : ObjectId) (w w' : World)
    (doc : Item.t) :
  prepareDocument userId payload now newId w = (Ok doc, w') ->
  exists content,
    match Item.contentType doc with
    | movie => movies (db w) !! Item.contentId doc = Some content
               /\ Item.episodeId doc = None
    | tvshow =>
        tvshows (db w) !! Item.contentId doc = Some content
        /\ forall eid, Item.episodeId doc = Some eid ->
             exists ep linked,
               episodes (db w) !! eid = Some ep
               /\ Episode.showId ep = Some linked
               /\ ObjectId_toString linked
                  = ObjectId_toString (Item.contentId doc)
    end
    /\ Item.snapshot doc
       = match AddPayload.snapshot payload with
         | Some s => s
         | None => snapshotOf content
         end.
Proof.
  unfold_prepare.
  repeat (first [discriminate | step]); intros [= <- <-];
    cbn [Item.userId Item.contentId Item.contentType Item.episodeId
           Item.snapshot].
  all: try discriminate.
  all: eexists.
  all: repeat split; try eassumption; try reflexivity; try discriminate.
  all: intros eid [= <-]; do 2 eexists.
  all: split; [eassumption|]; split; [eassumption|].
  all: match goal with
       | Hm : negb (String.eqb _ _) = false |- _ =>
           apply negb_false_iff, String.eqb_eq in Hm; exact Hm
       end.
Qed.

Lemma prepareDocument_document_witness :
  exists content,
    (movies Catalogue.database !! Catalogue.movieOid = Some content
     /\ (None : option ObjectId) = None)
    /\ snapshotOf Catalogue.inception = snapshotOf content.
Proof.
  refine (@prepareDocument_document Node.builtins Catalogue.userHex
            Catalogue.addMovie Sample.newYear 1%N Catalogue.world
            Catalogue.world Catalogue.movieItem _).
  vm_compute. reflexivity.
Defined.


(** includeTotal is read from the query string as text: any non-empty
    value, "false" and "0" included, switches the total on. A list
    request carrying one and answered from the store gets status 200
    and a page whose total is the number of all records of the user. *)
Theorem listItems_includeTotal_text `{Builtins} (m : Z) (userId : string)
    (v : number) (cursor : option string) (ct : option ContentType)
    (text : string) (uid : ObjectId) (d : Db) (cs : gmap string Z)
    (ps : gmap string Payload) (lg : list string) :
  1 <= m ->
  fractional v = false ->
  truthy text = true ->
  ObjectId_isValid userId = true ->
  ObjectId_new userId = Some uid ->
  ps !! pageCacheKey userId (pretty (default 0 (cs !! userVersionKey userId)))
          (clampedLimit m v) cursor = None ->
  forall r w',
    @listItems _ (configWithMax m) answering userId
      (mkListQuery v cursor ct (Some text)) (mkWorld d (mkRedis cs ps []) lg)
    = (Ok r, w') ->
    exists p, r = mkResponse 200 (BodyPage p)
              /\ total p = Some (countOf d uid).
Proof.
  intros Hm Hv Ht Hvalid Hnew Hmiss r w'.
  rewrite listItems_whole_limit by exact Hv.
  cbn [query_limit query_cursor query_contentType query_includeTotal].
  rewrite Ht. unfold bind at 1.
  rewrite (@getListWith_reachable _ (configWithMax m) (clampedLimit m v)
             userId (listOptions v cursor ct) true uid) by done.
  change (ListOptions.cursor (listOptions v cursor ct)) with cursor.
  rewrite Hmiss. destruct (cursorPosition cursor) as [position|]; [|discriminate].
  unfold storeRead. destruct (cutPage _ _) as [[kept next]|e]; [|discriminate].
  unfold bind, ret. intros [= <- _]. eexists. split; reflexivity.
Qed.

(** [?contentType=movie&includeTotal=false] on the sample list: two
    movies on the page, and the total 3 of all records. *)
Lemma listItems_includeTotal_text_witness :
  exists p,
    mkResponse 200 (BodyPage (mkPayload [Listing.r3; Listing.r1] None (Some 3)))
    = mkResponse 200 (BodyPage p)
    /\ total p = Some (countOf Listing.database Catalogue.userOid).
Proof.
  refine (@listItems_includeTotal_text Node.builtins 100 Catalogue.userHex NaN
            None (Some movie) "false" Catalogue.userOid Listing.database ∅ ∅ []
            _ _ _ _ _ _
            (mkResponse 200
               (BodyPage (mkPayload [Listing.r3; Listing.r1] None (Some 3))))
            (mkWorld Listing.database
               (mkRedis (versionRead ∅ Catalogue.userHex)
                  {[pageCacheKey Catalogue.userHex (pretty 0) 20 None :=
                      mkPayload [Listing.r3; Listing.r1] None (Some 3)]} [])
               [])
            _); [lia | vm_compute; reflexivity..].
Defined.

(* ================================================================== *)
(** * A limit that is not an integer *)
(* ================================================================== *)

Section ListOther.
Context `{Builtins} `{Config}.

(** One call of getList with a limit that is not an integer, Redis
    reachable and the driver answering, in closed form. *)
Lemma getListOther_reachable (limit : number) (userId : string)
    (opts : ListOptions.t) (includeTotal : bool) (uid : ObjectId) (d : Db)
    (cs : gmap string Z) (ps : gmap string Payload) (lg : list string) :
  ObjectId_isValid userId = true ->
  ObjectId_new userId = Some uid ->
  let version := default 0 (cs !! userVersionKey userId) in
  let key := pageCacheKeyText userId (pretty version) (Number_toString limit)
               (ListOptions.cursor opts) in
  let after := mkWorld d (mkRedis (versionRead cs userId) ps []) lg in
  getListOther limit userId opts includeTotal (mkWorld d (mkRedis cs ps []) lg)
  = match ps !! key with
    | Some page => (Ok page, after)
    | None =>
        match cursorPosition (ListOptions.cursor opts) with
        | None => (Throw InvalidCursor, logged "cursor decode error:" after)
        | Some position =>
            let docs :=
              fetchedOther d
                (mkQuery uid (ListOptions.contentType opts) position)
                (number_add limit (ofZ 1)) in
            if number_gt (ofZ (Z.of_nat (length docs))) limit then
              (Throw ETypeError, after)
            else
              let payload :=
                mkPayload docs None
                  (if includeTotal then Some (countOf d uid) else None) in
              (Ok payload,
               mkWorld d
                 (mkRedis (versionRead cs userId) (<[key := payload]> ps) [])
                 lg)
        end
    end.
Proof.
  intros Hv Hn version key after.
  unfold getListOther. rewrite Hv. cbn [negb].
  erewrite bind_Ok by reflexivity.
  assert ((match pretty <$> cs !! userVersionKey userId with
           | Some v => if truthy v then ret v
                       else redis_setnx (userVersionKey userId) 0 ;;; ret "0"
           | None => redis_setnx (userVersionKey userId) 0 ;;; ret "0"
           end) (mkWorld d (mkRedis cs ps []) lg)
          = (Ok (pretty version), after)) as Hver.
  { subst version after. unfold versionRead.
    destruct (cs !! userVersionKey userId) as [v|] eqn:Hcs;
      cbn [fmap option_fmap option_map default].
    - rewrite pretty_Z_truthy. rewrite insert_id by done. reflexivity.
    - unfold bind, redis_setnx, redis_cmd, ret, set_redis.
      cbn [redis faults counters pages db log]. rewrite Hcs. reflexivity. }
  erewrite bind_Ok by exact Hver. clear Hver.
  erewrite bind_Ok by reflexivity.
  unfold set_redis. subst after. cbn [pages redis db log counters faults].
  fold key.
  destruct (ps !! key) as [page|] eqn:Hmiss; [reflexivity|].
  unfold newObjectId. rewrite Hn. erewrite bind_Ok by reflexivity.
  assert (forall (k : option (Date * ObjectId) -> M Payload) w,
    (position <- match ListOptions.cursor opts with
                 | Some c => if truthy c
                             then k0 <- decodeCursorSafe c ;; ret (Some k0)
                             else ret None
                 | None => ret None
                 end ;; k position) w
    = match cursorPosition (ListOptions.cursor opts) with
      | Some position => k position w
      | None => (Throw InvalidCursor, logged "cursor decode error:" w)
      end) as Hpos.
  { intros k w. unfold bind, ret, cursorPosition.
    destruct (ListOptions.cursor opts) as [c|]; [|reflexivity].
    destruct (truthy c); [|reflexivity].
    rewrite decodeCursorSafe_accepted.
    destruct (acceptedCursor c); reflexivity. }
  rewrite Hpos. clear Hpos.
  destruct (cursorPosition (ListOptions.cursor opts)) as [position|];
    [|reflexivity].
  erewrite bind_Ok by reflexivity.
  cbv zeta. unfold fetchedOther, matching. cbn [db].
  set (docs := match Query_limit _ with Some k => _ | None => _ end).
  destruct (number_gt (ofZ (Z.of_nat (length docs))) limit); [reflexivity|].
  destruct includeTotal;
    unfold bind, ret, try_catch, redis_set_EX_NX, redis_cmd, set_redis,
      MyListItemModel_countDocuments, store_call, countOf;
    answered;
    cbn [redis faults counters pages db log fst snd];
    rewrite Hmiss; reflexivity.
Qed.

End ListOther.

(** The page limit of a positive limit parameter that is no integer
    and does not exceed the maximum: the parameter itself. *)
Lemma pageLimit_fractional (m : Z) (v : number) c ct :
  fractional v = true ->
  number_gt v (ofZ m) = false ->
  @pageLimit (configWithMax m) (listOptions v c ct) = v
  /\ toInteger v = None.
Proof.
  unfold fractional, listOptions, toNumberOrDefault, pageLimit.
  intros [[Hf Hp]%andb_prop Hi%bool_decide_eq_true]%andb_prop Hm.
  split; [|exact Hi].
  cbn [ListOptions.limit nullish MAX_LIMIT configWithMax].
  rewrite Hf, Hp. cbn [andb].
  destruct v as [| s | q]; try discriminate.
  unfold number_gt, ofZ in Hm. apply negb_false_iff in Hm.
  unfold Math_min, ofZ. by rewrite Hm.
Qed.

(** C6, the defect. A limit parameter that is positive but no integer
    (and not above the maximum) is neither defaulted nor rounded: it is
    the page limit. With Redis answering, the driver answering and the
    page not cached, whenever the query brings back more documents than
    that limit the request fails: [docs[limit - 1]] is undefined,
    reading its [addedAt] throws a TypeError, and the error handler
    answers with status 500 and the TypeError's message. *)
Theorem listItems_fractional_limit `{Builtins} (m : Z) (userId : string)
    (v : number) (cursor : option string) (ct : option ContentType)
    (includeTotal : option string) (uid : ObjectId) (d : Db)
    (cs : gmap string Z) (ps : gmap string Payload) (lg : list string)
    (position : option (Date * ObjectId)) :
  fractional v = true ->
  number_gt v (ofZ m) = false ->
  ObjectId_isValid userId = true ->
  ObjectId_new userId = Some uid ->
  cursorPosition cursor = Some position ->
  ps !! pageCacheKeyText userId
          (pretty (default 0 (cs !! userVersionKey userId)))
          (Number_toString v) cursor = None ->
  let docs := fetchedOther d (mkQuery uid ct position) (number_add v (ofZ 1)) in
  number_gt (ofZ (Z.of_nat (length docs))) v = true ->
  @pageLimit (configWithMax m) (listOptions v cursor ct) = v
  /\ respond (@listItems _ (configWithMax m) answering userId
                (mkListQuery v cursor ct includeTotal))
       (mkWorld d (mkRedis cs ps []) lg)
     = (mkResponse 500
          (BodyError None
             (if truthy TypeError_message then TypeError_message
              else "Internal Server Error")),
        mkWorld d (mkRedis (versionRead cs userId) ps []) lg).
Proof.
  intros Hfrac Hmax Hvalid Hnew Hpos Hmiss docs Hmany.
  destruct (pageLimit_fractional m v cursor ct Hfrac Hmax) as [Hpl Hint].
  split; [exact Hpl|].
  unfold respond, listItems, getList.
  cbn [query_limit query_cursor query_contentType query_includeTotal].
  fold (listOptions v cursor ct). cbv zeta. rewrite Hpl, Hint.
  unfold bind at 1.
  rewrite (@getListOther_reachable _ (configWithMax m) v userId
             (listOptions v cursor ct) _ uid) by done.
  change (ListOptions.cursor (listOptions v cursor ct)) with cursor.
  change (ListOptions.contentType (listOptions v cursor ct)) with ct.
  rewrite Hmiss, Hpos. cbv zeta. fold docs. rewrite Hmany. reflexivity.
Qed.

(** [GET /api/mylist?limit=0.5] for the user of the sample list, the
    cache cold: the page limit is 0.5 and the answer is a 500. *)
Lemma listItems_fractional_limit_witness :
  @pageLimit (configWithMax 100) (listOptions (Finite (1 # 2)) None None)
  = Finite (1 # 2)
  /\ @respond Node.builtins
       (@listItems Node.builtins (configWithMax 100) answering
          Catalogue.userHex (mkListQuery (Finite (1 # 2)) None None None))
       Listing.world
     = (mkResponse 500
          (BodyError None
             "Cannot read properties of undefined (reading 'addedAt')"),
        mkWorld Listing.database
          (mkRedis (versionRead ∅ Catalogue.userHex) ∅ []) []).
Proof.
  refine (@listItems_fractional_limit Node.builtins 100 Catalogue.userHex
            (Finite (1 # 2)) None None None Catalogue.userOid
            Listing.database ∅ ∅ [] None _ _ _ _ _ _ _);
    vm_compute; reflexivity.
Defined.

(* ================================================================== *)
(** * The claims of the specification *)
(* ================================================================== *)


Lemma find_none_pair (uid cid : ObjectId) (l : list Item.t) :
  (forall r, In r l -> Item.userId r = uid -> Item.contentId r <> cid) ->
  List.find (sameEntry uid cid) l = None.
Proof.
  intros Hnone. destruct (List.find (sameEntry uid cid) l) as [r|] eqn:Hf; [|done].
  apply find_some in Hf as [Hin Hs]. apply sameEntry_iff in Hs.
  injection Hs as Hu Hc. by destruct (Hnone r Hin Hu).
Qed.

(** C8. Removing a pair of well-formed identifiers that has no record
    is a normal negative result: removeFromList returns null, the list
    of records is as before, the version counter is not bumped, and no
    Redis command is issued at all. *)
Theorem removeFromList_absent_pair `{Builtins} (userId contentId : string)
    (uid cid : ObjectId) (w : World) :
  ObjectId_new userId = Some uid ->
  ObjectId_new contentId = Some cid ->
  (forall r, In r (mylistitems (db w)) ->
     Item.userId r = uid -> Item.contentId r <> cid) ->
  let w' := snd (removeFromList userId contentId w) in
  fst (removeFromList userId contentId w) = Ok None
  /\ mylistitems (db w') = mylistitems (db w)
  /\ currentVersion w' userId = currentVersion w userId
  /\ redis w' = redis w.
Proof.
  intros Hu Hc Hnone. apply find_none_pair in Hnone.
  pose proof (removeFromList_cases userId contentId w) as Hr.
  rewrite Hu, Hc, Hnone in Hr. cbv zeta. rewrite Hr. done.
Qed.

Lemma removeFromList_absent_pair_witness :
  let w' := snd (@removeFromList Node.builtins answering Catalogue.userHex
                   Catalogue.showHex worldWithMovie) in
  fst (@removeFromList Node.builtins answering Catalogue.userHex
         Catalogue.showHex worldWithMovie) = Ok None
  /\ mylistitems (db w') = [Catalogue.movieItem]
  /\ currentVersion w' Catalogue.userHex = 1
  /\ redis w' = redis worldWithMovie.
Proof.
  refine (@removeFromList_absent_pair Node.builtins Catalogue.userHex
            Catalogue.showHex Catalogue.userOid Catalogue.showOid
            worldWithMovie _ _ _).
  - vm_compute. reflexivity.
  - vm_compute. reflexivity.
  - intros r [<-|[]] _. vm_compute. discriminate.
Defined.



(** C7 (as amended). Adding an episode of a show: when the episode
    exists but belongs to another show the request fails with a
    BadRequest error (HTTP 400, code EPISODE_MISMATCH), which is no
    Conflict; when the episode does not exist it fails with NotFound
    (HTTP 404, code EPISODE_NOT_FOUND). In both cases the world is as
    before: no record is inserted. *)
Theorem addToList_episode_of_other_show `{Builtins} (userId : string)
    (payload : AddPayload.t) (now : Date) (newId : ObjectId) (w : World)
    (e : string) (uid cid eid : ObjectId) (show : Content.t) :
  AddPayload.contentType payload = tvshow ->
  AddPayload.episodeId payload = Some e -> truthy e = true ->
  ObjectId_isValid userId = true -> ObjectId_new userId = Some uid ->
  ObjectId_isValid (AddPayload.contentId payload) = true ->
  ObjectId_new (AddPayload.contentId payload) = Some cid ->
  ObjectId_isValid e = true -> ObjectId_new e = Some eid ->
  validObjectId cid ->
  uid ∈ users (db w) ->
  tvshows (db w) !! cid = Some show ->
  (forall ep sid,
     episodes (db w) !! eid = Some ep ->
     Episode.showId ep = Some sid -> validObjectId sid -> sid <> cid ->
     exists err,
       addToList userId payload now newId w = (Throw err, w)
       /\ err = EHttp (mkHttpError 400
                         "episode does not belong to provided tv show"
                         (Some "EPISODE_MISMATCH"))
       /\ BadRequest err /\ ~ Conflict err)
  /\ (episodes (db w) !! eid = None ->
      exists err,
        addToList userId payload now newId w = (Throw err, w)
        /\ err = EHttp (mkHttpError 404 "episode not found"
                          (Some "EPISODE_NOT_FOUND"))
        /\ NotFound err).
Proof.
  intros Hct Hep Hte Hvu Hnu Hvc Hnc Hve Hne Hvalid Hu Hs.
  split.
  - intros ep sid Hepi Hsid Hvsid Hdiff. eexists. split; [|split; [reflexivity|]].
    + rewrite addToList_unfold. unfold_prepare.
      rewrite Hvu, Hvc, Hep, Hte, Hve. cbn [negb]. rewrite Hnu, Hnc, Hne.
      rewrite (bool_decide_eq_true_2 _ Hu). cbn [negb]. rewrite Hct, Hs, Hepi.
      rewrite Hsid.
      destruct (String.eqb_spec (ObjectId_toString sid) (ObjectId_toString cid))
        as [E|_]; [|reflexivity].
      by apply ObjectId_toString_inj in E.
    + split; cbn; [tauto | intros [?|[]]; discriminate].
  - intros Hnone. eexists. split; [|split; [reflexivity|cbn; tauto]].
    rewrite addToList_unfold. unfold_prepare.
    rewrite Hvu, Hvc, Hep, Hte, Hve. cbn [negb]. rewrite Hnu, Hnc, Hne.
    rewrite (bool_decide_eq_true_2 _ Hu). cbn [negb]. rewrite Hct, Hs, Hnone.
    reflexivity.
Qed.

Lemma addToList_episode_of_other_show_witness :
  exists err,
    @addToList Node.builtins answering Catalogue.userHex Catalogue.addEpisode
      Sample.newYear 1%N Catalogue.world = (Throw err, Catalogue.world)
    /\ err = EHttp (mkHttpError 400
                      "episode does not belong to provided tv show"
                      (Some "EPISODE_MISMATCH"))
    /\ BadRequest err /\ ~ Conflict err.
Proof.
  refine (proj1 (@addToList_episode_of_other_show Node.builtins
                   Catalogue.userHex Catalogue.addEpisode Sample.newYear 1%N
                   Catalogue.world Catalogue.episodeHex Catalogue.userOid
                   Catalogue.showOid Catalogue.episodeOid Catalogue.someShow
                   ltac:(vm_compute; reflexivity) ltac:(vm_compute; reflexivity)
                   ltac:(vm_compute; reflexivity) ltac:(vm_compute; reflexivity)
                   ltac:(vm_compute; reflexivity) ltac:(vm_compute; reflexivity)
                   ltac:(vm_compute; reflexivity) ltac:(vm_compute; reflexivity)
                   ltac:(vm_compute; reflexivity) ltac:(vm_compute; reflexivity)
                   ltac:(vm_compute; reflexivity) ltac:(vm_compute; reflexivity))
            (Episode.mk (Some Catalogue.otherShowOid) "S1E1")
            Catalogue.otherShowOid _ _ _ _).
  - vm_compute. reflexivity.
  - reflexivity.
  - vm_compute. reflexivity.
  - vm_compute. discriminate.
Defined.

(** C7 as stated fails: the episode of the sample catalogue exists and
    belongs to another show than the one named, and the add is refused
    with status 400, not with a Conflict. *)
Lemma addToList_episode_mismatch_not_Conflict :
  ~ (forall err w',
       episodes Catalogue.database !! Catalogue.episodeOid
       = Some (Episode.mk (Some Catalogue.otherShowOid) "S1E1") ->
       Catalogue.otherShowOid <> Catalogue.showOid ->
       @addToList Node.builtins answering Catalogue.userHex
         Catalogue.addEpisode Sample.newYear 1%N Catalogue.world
       = (Throw err, w') ->
       Conflict err).
Proof.
  intros Hall.
  specialize (Hall (EHttp (mkHttpError 400
                             "episode does not belong to provided tv show"
                             (Some "EPISODE_MISMATCH")))
                Catalogue.world).
  assert (Conflict (EHttp (mkHttpError 400
                             "episode does not belong to provided tv show"
                             (Some "EPISODE_MISMATCH")))) as Hc.
  { apply Hall; vm_compute; (reflexivity || discriminate). }
  destruct Hc as [Hc|[]]. discriminate Hc.
Qed.



Section Mutations.
Context `{Builtins}.

(** What a successful add does to Redis when Redis is reachable: the
    version of the user is raised by one, on the fresh path and on the
    duplicate path alike. *)
Lemma addToList_Ok_redis (userId : string) (payload : AddPayload.t)
    (now : Date) (newId : ObjectId) (w w' : World) (item : Item.t) :
  reachable w ->
  addToList userId payload now newId w = (Ok item, w') ->
  redis w'
  = mkRedis (<[userVersionKey userId := currentVersion w userId + 1]>
               (counters (redis w))) (pages (redis w)) [].
Proof.
  intros Hr. rewrite addToList_unfold.
  destruct (fst (prepareDocument userId payload now newId w)) as [doc|e];
    [|discriminate].
  pose proof (insertDocument_cases userId doc w) as Hc. cbv zeta in Hc.
  destruct (negb (truthy (Snapshot.title (Item.snapshot doc)))).
  { rewrite Hc. discriminate. }
  destruct (existsb (collides doc) (mylistitems (db w))).
  - destruct (List.find _ _) as [e|].
    + destruct Hc as (w1 & -> & Hb). intros [= _ <-].
      rewrite bumpUserVersion_reachable in Hb by exact Hr.
      injection Hb as <-. unfold withVersion, set_redis.
      cbn [redis]. by rewrite Hr.
    + rewrite Hc. discriminate.
  - destruct Hc as (w1 & -> & Hb). intros [= _ <-].
    rewrite bumpUserVersion_reachable in Hb by exact Hr.
    injection Hb as <-. unfold withVersion, set_redis, set_db, currentVersion.
    cbn [redis]. by rewrite Hr.
Qed.

(** The same for a remove that deleted a record. *)
Lemma removeFromList_Some_redis (userId contentId : string) (w w' : World)
    (r : Item.t) :
  reachable w ->
  removeFromList userId contentId w = (Ok (Some r), w') ->
  redis w'
  = mkRedis (<[userVersionKey userId := currentVersion w userId + 1]>
               (counters (redis w))) (pages (redis w)) [].
Proof.
  intros Hr. pose proof (removeFromList_cases userId contentId w) as Hc.
  destruct (ObjectId_new userId) as [uid|]; [|rewrite Hc; discriminate].
  destruct (ObjectId_new contentId) as [cid|]; [|rewrite Hc; discriminate].
  destruct (List.find _ _) as [r0|]; [|rewrite Hc; discriminate].
  destruct Hc as (w1 & -> & Hb). intros [= _ <-].
  rewrite bumpUserVersion_reachable in Hb by exact Hr.
  injection Hb as <-. unfold withVersion, set_redis, set_db, currentVersion.
  cbn [redis]. by rewrite Hr.
Qed.

Lemma mutated_redis (userId : string) (w w' : World) :
  reachable w -> mutated userId w w' ->
  redis w'
  = mkRedis (<[userVersionKey userId := currentVersion w userId + 1]>
               (counters (redis w))) (pages (redis w)) [].
Proof.
  intros Hr [(payload & now & newId & item & Hadd) | (contentId & r & Hrem)].
  - by eapply addToList_Ok_redis.
  - by eapply removeFromList_Some_redis.
Qed.

End Mutations.

(** C2. Invalidation by version. A list call returns a page, which is
    then cached under the user's version V; an add or a remove for that
    user succeeds and, Redis being reachable, raises the version to
    V + 1. After that the page is still in Redis under its V key, but
    the same list call (same limit and cursor) does not return it: its
    key carries V + 1, under which nothing is cached, and it reads the
    store as the mutation left it. *)
Theorem invalidation_after_mutation `{Builtins} `{Config} (limit : Z)
    (userId : string) (opts : ListOptions.t) (includeTotal : bool)
    (uid : ObjectId) (w0 w1 w2 : World) (p : Payload) :
  ObjectId_isValid userId = true ->
  ObjectId_new userId = Some uid ->
  reachable w0 ->
  pages (redis w0)
    !! pageCacheKey userId (pretty (currentVersion w0 userId + 1)) limit
         (ListOptions.cursor opts) = None ->
  getListWith limit userId opts includeTotal w0 = (Ok p, w1) ->
  mutated userId w1 w2 ->
  currentVersion w2 userId = currentVersion w0 userId + 1
  /\ pages (redis w2)
       !! pageCacheKey userId (pretty (currentVersion w0 userId)) limit
            (ListOptions.cursor opts) = Some p
  /\ fst (getListWith limit userId opts includeTotal w2)
     = match cursorPosition (ListOptions.cursor opts) with
       | Some position =>
           storeRead (db w2) uid limit (ListOptions.contentType opts) position
             includeTotal
       | None => Throw InvalidCursor
       end.
Proof.
  intros Hv Hn Hr Hnext Hlist Hmut.
  destruct w0 as [d [cs ps fs] lg]. unfold reachable in Hr. cbn in Hr. subst fs.
  unfold currentVersion in *. cbn [redis counters pages] in *.
  set (V := default 0 (cs !! userVersionKey userId)) in *.
  set (key := pageCacheKey userId (pretty V) limit (ListOptions.cursor opts)).
  set (key' := pageCacheKey userId (pretty (V + 1)) limit
                 (ListOptions.cursor opts)) in *.
  assert (key' <> key) as Hkeys.
  { intros E. apply pageCacheKey_version_inj, (inj pretty) in E. lia. }
  (* the first call leaves the page under the V key *)
  assert (exists ps1,
            w1 = mkWorld d (mkRedis (versionRead cs userId) ps1 []) lg
            /\ ps1 !! key = Some p /\ ps1 !! key' = None)
    as (ps1 & -> & Hp & Hnone).
  { rewrite (getListWith_reachable limit userId opts includeTotal uid) in Hlist
      by done.
    fold V in Hlist. fold key in Hlist.
    destruct (ps !! key) as [page|] eqn:Hhit.
    - injection Hlist as <- <-. by exists ps.
    - destruct (cursorPosition (ListOptions.cursor opts)) as [position|];
        [|discriminate].
      destruct (storeRead d uid limit _ position includeTotal) as [payload|e];
        [|discriminate].
      injection Hlist as <- <-. eexists. split; [reflexivity|].
      split; [apply lookup_insert_eq | by rewrite lookup_insert_ne]. }
  (* the mutation raises the version *)
  apply mutated_redis in Hmut; [|reflexivity].
  unfold currentVersion in Hmut. cbn [redis counters pages] in Hmut.
  rewrite versionRead_version in Hmut. fold V in Hmut.
  destruct w2 as [d2 r2 lg2]. cbn [redis db] in *. subst r2.
  cbn [counters pages].
  split; [by rewrite lookup_insert_eq|]. split; [exact Hp|].
  rewrite (getListWith_reachable limit userId opts includeTotal uid) by done.
  rewrite lookup_insert_eq. cbn [default from_option id]. fold key'.
  rewrite Hnone.
  destruct (cursorPosition (ListOptions.cursor opts)) as [position|];
    [|reflexivity].
  by destruct (storeRead _ _ _ _ _ _).
Qed.

(** The first page of the sample list is read and cached, the movie of
    the catalogue is added, and the first page is read again. *)
Lemma invalidation_after_mutation_witness :
  let opts := ListOptions.mk None None None in
  let w1 :=
    snd (@getListWith Node.builtins defaultConfig answering 2
           Catalogue.userHex opts false Listing.world) in
  let w2 :=
    snd (@addToList Node.builtins answering Catalogue.userHex
           Catalogue.addMovie (Sample.newYear + 5) 9%N w1) in
  currentVersion w2 Catalogue.userHex
  = currentVersion Listing.world Catalogue.userHex + 1
  /\ pages (redis w2)
       !! pageCacheKey Catalogue.userHex
            (pretty (currentVersion Listing.world Catalogue.userHex)) 2
            (ListOptions.cursor opts)
     = Some (mkPayload [Listing.r3; Listing.r2]
               (Some (encodeCursor Sample.newYear 2%N)) None)
  /\ fst (@getListWith Node.builtins defaultConfig answering 2
            Catalogue.userHex opts false w2)
     = match @cursorPosition Node.builtins (ListOptions.cursor opts) with
       | Some position =>
           storeRead (db w2) Catalogue.userOid 2
             (ListOptions.contentType opts) position false
       | None => Throw InvalidCursor
       end.
Proof.
  intros opts w1 w2.
  pose proof (@invalidation_after_mutation Node.builtins defaultConfig 2
                Catalogue.userHex opts false Catalogue.userOid Listing.world
                w1 w2
                (mkPayload [Listing.r3; Listing.r2]
                   (Some (encodeCursor Sample.newYear 2%N)) None)) as P.
  specialize (P ltac:(vm_compute; reflexivity) ltac:(vm_compute; reflexivity)
                ltac:(reflexivity) ltac:(vm_compute; reflexivity)
                ltac:(vm_compute; reflexivity)).
  apply P. left.
  exists Catalogue.addMovie, (Sample.newYear + 5), 9%N,
    (Item.mk 9%N Catalogue.userOid movie Catalogue.movieOid None
       (Sample.newYear + 5) (@snapshotOf Catalogue.inception) available).
  vm_compute. reflexivity.
Defined.

(** C1, the defect. The page cache key carries neither the content-type
    filter nor includeTotal. On the sample list of three records, one
    call with the filter [tvshow] caches its page (the one show) under
    the key of the unfiltered first page; listing without a filter and
    following nextCursor until it is null then yields that one record
    instead of the three the store holds. *)
Theorem pagination_after_filtered_call :
  let filtered :=
    @getListWith Node.builtins defaultConfig answering 2 Catalogue.userHex
      (ListOptions.mk (Some (ofZ 2)) None (Some tvshow)) false Listing.world in
  fst filtered = Ok (mkPayload [Listing.r2] None None)
  /\ option_map fst
       (@collectPages Node.builtins defaultConfig 4 2 Catalogue.userHex None
          None (snd filtered))
     = Some (Ok [Listing.r2])
  /\ matching Listing.database (mkQuery Catalogue.userOid None None)
     = [Listing.r3; Listing.r2; Listing.r1]
  /\ db (snd filtered) = Listing.database.
Proof. vm_compute. repeat split; reflexivity. Qed.

(** C5, the defect. The commands on the version key are outside any try
    block: with the GET of the version key rejected, or the SETNX that
    follows an absent key, the list request is not served from the
    store but answered with status 500 and the Redis client's
    message. *)
Theorem listItems_version_command_rejected :
  let request :=
    @listItems Node.builtins defaultConfig answering Catalogue.userHex
      (mkListQuery NaN None None None) in
  let failure := mkResponse 500 (BodyError None "Connection is closed.") in
  @respond Node.builtins request
    (mkWorld Listing.database (mkRedis ∅ ∅ [true]) [])
  = (failure, Listing.world)
  /\ @respond Node.builtins request
       (mkWorld Listing.database (mkRedis ∅ ∅ [false; true]) [])
     = (failure, Listing.world)
  /\ fst (@respond Node.builtins request Listing.world)
     = mkResponse 200
         (BodyPage (mkPayload [Listing.r3; Listing.r2; Listing.r1] None None)).
Proof. vm_compute. repeat split; reflexivity. Qed.
